(** * ppcg-qc-from-sanger: the pairing-and-validation core

    A shallow embedding of [ppcg_qc_from_sanger/extract_qc.py] and of the
    command line of [ppcg_qc_from_sanger/command_line.py], with the properties
    of the written specification stated and settled against it. *)

From Stdlib Require Import List NArith ZArith String Ascii Bool Lia.
From Stdlib Require Import Sorted.
Import ListNotations.

Set Implicit Arguments.

(** ** Python strings

    A Python [str] is a sequence of Unicode code points. *)

Definition str := list N.

(** A literal of the source, written as a Rocq string literal. *)
Definition py (s : string) : str := map N_of_ascii (list_ascii_of_string s).

Definition LF : N := 10%N.

Fixpoint str_eqb (a b : str) : bool :=
  match a, b with
  | [], [] => true
  | x :: a', y :: b' => N.eqb x y && str_eqb a' b'
  | _, _ => false
  end.

(** [<] on [str]: lexicographic on code points, as [sorted] uses it. *)
Fixpoint str_ltb (a b : str) : bool :=
  match a, b with
  | _, [] => false
  | [], _ :: _ => true
  | x :: a', y :: b' =>
      if N.ltb x y then true
      else if N.ltb y x then false
      else str_ltb a' b'
  end.

(** [sep.join(parts)] *)
Fixpoint join (sep : str) (parts : list str) : str :=
  match parts with
  | [] => []
  | [p] => p
  | p :: rest => p ++ sep ++ join sep rest
  end.

(** ** The fragment of [re] the source uses

    The four patterns of the source are sequences of anchors, literal
    characters, single characters of a class and greedy one-or-more
    repetitions of a class, two of them capturing.  [re.match] tries the
    pattern at position 0 only and does not ask it to reach the end of the
    subject. *)

Inductive item :=
| Bol                                   (* ^ *)
| Eol                                   (* $ *)
| Chr (c : N)                           (* a literal character *)
| Cls (p : N -> bool)                   (* one character of a class *)
| Plus (capture : bool) (p : N -> bool) (* cls+ or (cls+), greedy *).

Definition regex := list item.

(** [$] without MULTILINE: the end of the subject, or just before a line
    break that ends the subject. *)
Definition at_end (s : str) : bool :=
  match s with
  | [] => true
  | [c] => N.eqb c LF
  | _ => false
  end.

(** The greedy repetition: the longest run first, then shorter ones, each
    tried against the continuation [k] of the pattern. *)
Fixpoint plus_greedy {R} (p : N -> bool) (k : str -> str -> option R)
    (taken s : str) : option R :=
  match s with
  | [] => None
  | c :: s' =>
      if p c then
        match plus_greedy p k (taken ++ [c]) s' with
        | Some r => Some r
        | None => k (taken ++ [c]) s'
        end
      else None
  end.

Fixpoint re_run (r : regex) (at_start : bool) (s : str) (groups : list str)
    : option (list str) :=
  match r with
  | [] => Some groups
  | Bol :: r' => if at_start then re_run r' at_start s groups else None
  | Eol :: r' => if at_end s then re_run r' at_start s groups else None
  | Chr c :: r' =>
      match s with
      | x :: s' => if N.eqb x c then re_run r' false s' groups else None
      | [] => None
      end
  | Cls p :: r' =>
      match s with
      | x :: s' => if p x then re_run r' false s' groups else None
      | [] => None
      end
  | Plus capture p :: r' =>
      plus_greedy p
        (fun taken rest =>
           re_run r' false rest (if capture then groups ++ [taken] else groups))
        [] s
  end.

(** [re.match(pattern, s)]: [None], or the captured groups in order. *)
Definition re_match (r : regex) (s : str) : option (list str) :=
  re_run r true s [].

Definition lit (s : string) : regex := map Chr (py s).

(** [.] without DOTALL *)
Definition dot (c : N) : bool := negb (N.eqb c LF).

Definition ascii_alnum (c : N) : bool :=
  ((48 <=? c) && (c <=? 57) || (65 <=? c) && (c <=? 90)
   || (97 <=? c) && (c <=? 122))%N.

Section Patterns.

(** The word characters beyond ASCII come from the Unicode database of the
    interpreter: [\w] on a [str] pattern is [c.isalnum() or c == '_']. *)
Variable unicode_alnum : N -> bool.

Definition word (c : N) : bool :=
  if (c <? 128)%N then ascii_alnum c || N.eqb c 95 else unicode_alnum c.

(** [[\w\-]] *)
Definition word_hyphen (c : N) : bool := word c || N.eqb c 45.

(** [r'^WGS_([\w\-]+)_vs_([\w\-]+)$'] *)
Definition PAIR_PATTERN : regex :=
  [Bol] ++ lit "WGS_" ++ [Plus true word_hyphen] ++ lit "_vs_"
    ++ [Plus true word_hyphen] ++ [Eol].

End Patterns.

(** [r'.+\.bam\.bas$'] *)
Definition BAS_PATTERN : regex := [Plus false dot] ++ lit ".bam.bas" ++ [Eol].

(** [r'\.tar.gz$']: the first dot is escaped, the second is not. *)
Definition TAR_PATTERN : regex := lit ".tar" ++ [Cls dot] ++ lit "gz" ++ [Eol].

(** [r'.+\.tsv$'] *)
Definition TSV_PATTERN : regex := [Plus false dot] ++ lit ".tsv" ++ [Eol].


(** ** Python values, exceptions and results *)

#[local] Unset Elimination Schemes.
Inductive pyval :=
| PyNone
| PyBool (b : bool)
| PyInt (z : Z)
| PyStr (s : str)
| PyList (l : list pyval)
| PyTuple (l : list pyval)
| PyDict (items : list (pyval * pyval))
| PyFunc (name : string).
#[local] Set Elimination Schemes.

(** The truth value of an object in a condition. *)
Definition truthy (v : pyval) : bool :=
  match v with
  | PyNone => false
  | PyBool b => b
  | PyInt z => negb (Z.eqb z 0)
  | PyStr s => match s with [] => false | _ => true end
  | PyList l | PyTuple l => match l with [] => false | _ => true end
  | PyDict items => match items with [] => false | _ => true end
  | PyFunc _ => true
  end.

(** [isinstance(v, int)]; [bool] is a subclass of [int]. *)
Definition isinstance_int (v : pyval) : bool :=
  match v with
  | PyInt _ | PyBool _ => true
  | _ => false
  end.

(** Whether an object can be the key of a [dict]: lists and dictionaries
    cannot, a tuple can when its elements can. *)
Fixpoint hashable (v : pyval) : bool :=
  match v with
  | PyList _ | PyDict _ => false
  | PyTuple l => forallb hashable l
  | _ => true
  end.

(** [==] on the objects that can be keys; [True] and [False] are the
    integers 1 and 0. *)
Fixpoint key_eqb (a b : pyval) {struct a} : bool :=
  match a with
  | PyNone => match b with PyNone => true | _ => false end
  | PyBool x =>
      match b with
      | PyBool y => Bool.eqb x y
      | PyInt y => Z.eqb (Z.b2z x) y
      | _ => false
      end
  | PyInt x =>
      match b with
      | PyInt y => Z.eqb x y
      | PyBool y => Z.eqb x (Z.b2z y)
      | _ => false
      end
  | PyStr x => match b with PyStr y => str_eqb x y | _ => false end
  | PyTuple x =>
      match b with
      | PyTuple y =>
          (fix all (l1 l2 : list pyval) {struct l1} : bool :=
             match l1, l2 with
             | [], [] => true
             | u :: l1', v :: l2' => key_eqb u v && all l1' l2'
             | _, _ => false
             end) x y
      | _ => false
      end
  | PyFunc x => match b with PyFunc y => String.eqb x y | _ => false end
  | PyList _ | PyDict _ => false
  end.

(** The source raises [RuntimeError] for each of its own failures and tells
    them apart by the message; the other constructors are the interpreter's
    exceptions the code can run into, and [Raised] stands for whatever a
    collaborator outside [extract_qc.py] raises. *)
Inductive exn :=
| RuntimeError (msg : str)
| AttributeError (attr : string)
| UnboundLocalError (var : string)
| TypeError (msg : string)
| KeyError (key : pyval)
| FileNotFoundError (path : str)
| OSError (msg : str)
| SystemExit (code : Z) (msg : str)
| Raised (what : str).

(** [except OSError] *)
Definition is_OSError (e : exn) : bool :=
  match e with
  | OSError _ | FileNotFoundError _ => true
  | _ => false
  end.

(** [except Exception]: everything but the interpreter's exit. *)
Definition is_Exception (e : exn) : bool :=
  match e with
  | SystemExit _ _ => false
  | _ => true
  end.

(** [str(exc)] *)
Definition exn_str (e : exn) : str :=
  match e with
  | RuntimeError msg | OSError msg | Raised msg | SystemExit _ msg => msg
  | AttributeError a => py "object has no attribute '" ++ py a ++ py "'"
  | UnboundLocalError v =>
      py "local variable '" ++ py v ++ py "' referenced before assignment"
  | TypeError msg => py msg
  | KeyError _ => py "key"
  | FileNotFoundError p =>
      py "[Errno 2] No such file or directory: '" ++ p ++ py "'"
  end.

Inductive result (A : Type) :=
| Ok (a : A)
| Err (e : exn).
Arguments Ok {A} a.
Arguments Err {A} e.

Definition rbind {A B} (r : result A) (f : A -> result B) : result B :=
  match r with
  | Ok a => f a
  | Err e => Err e
  end.

Declare Scope res_scope.
Delimit Scope res_scope with res.
Notation "x <- c ;; k" := (rbind c (fun x => k))
  (at level 61, c at next level, right associativity) : res_scope.
Notation "c ;; k" := (rbind c (fun _ => k))
  (at level 61, right associativity) : res_scope.

Definition is_ok {A} (r : result A) : bool :=
  match r with Ok _ => true | Err _ => false end.

(** ** The messages of the source's own failures, under the names the
    specification gives them *)

Definition InvalidArchiveError (a_tar : str) : exn :=
  RuntimeError (py "Not a valid Sanger Variant Call result archive: " ++ a_tar).

Inductive role := Tumour | Normal.

Definition role_name (r : role) : str :=
  match r with Tumour => py "tumour" | Normal => py "normal" end.

Definition MissingSampleError (r : role) (not_found : list str) : exn :=
  RuntimeError (py "Missing BAS files for " ++ role_name r ++ py " samples: "
                ++ join (py ", ") not_found).

Definition OutputExistsError (output_tar : str) : exn :=
  RuntimeError (py "existing output file: " ++ output_tar ++ py ".").

Definition OutputUnwritableError (exc : exn) : exn :=
  RuntimeError (py "output is not writable: " ++ exn_str exc ++ py ".").

Definition PackagingError (exc : exn) : exn :=
  RuntimeError (py "failed to create the final output: " ++ exn_str exc).

Definition GenomeSizeError : exn := RuntimeError (py "genome_size is not int").

(** ** Dictionaries and sets

    A [dict] keeps its keys in the order of their first insertion, and an
    assignment to a key that is present replaces its value in place. *)

Section Dict.

Variables (K V : Type) (keq : K -> K -> bool).

Definition dict := list (K * V).

Fixpoint dict_set (d : dict) (k : K) (v : V) : dict :=
  match d with
  | [] => [(k, v)]
  | (k', v') :: d' =>
      if keq k' k then (k', v) :: d' else (k', v') :: dict_set d' k v
  end.

Fixpoint dict_get (d : dict) (k : K) : option V :=
  match d with
  | [] => None
  | (k', v') :: d' => if keq k' k then Some v' else dict_get d' k
  end.

Definition keys (d : dict) : list K := map fst d.

End Dict.

Definition mem (x : str) (l : list str) : bool := existsb (str_eqb x) l.

(** [set(l)], listed in the order of first occurrence; [sorted] below makes
    the listing order immaterial. *)
Fixpoint py_set (l : list str) : list str :=
  match l with
  | [] => []
  | x :: l' => x :: filter (fun y => negb (str_eqb x y)) (py_set l')
  end.

(** [a - b] on sets *)
Definition set_difference (a b : list str) : list str :=
  filter (fun x => negb (mem x b)) a.

Fixpoint insert_sorted (x : str) (l : list str) : list str :=
  match l with
  | [] => [x]
  | y :: l' => if str_ltb y x then y :: insert_sorted x l' else x :: y :: l'
  end.

(** [sorted(l)] for a list of [str] *)
Definition sorted (l : list str) : list str := fold_right insert_sorted [] l.

Definition pair_eqb (a b : str * str) : bool :=
  str_eqb (fst a) (fst b) && str_eqb (snd a) (snd b).

(** ** The module's tables *)

Definition OUTPUT_HEADER_BASE : list str := map py
  [ "Tumour sample name"; "Tumour ID"; "Tumour UUID";
    "Tumour sequencing year"; "Tumour sequencer"; "Tumour ReadGroup IDs";
    "Tumour depth per RG"; "Tumour total depth";
    "Tumour fraction of mapped reads per RG";
    "Tumour mean fraction of mapped reads"; "Tumour insert size per RG";
    "Tumour mean Insert size"; "Tumour insert size sd per RG";
    "Tumour mean insert size sd"; "Tumour r1 GC content per RG";
    "Tumour mean r1 GC content"; "Tumour r2 GC content per RG";
    "Tumour mean r2 GC content";
    "Tumour fraction of duplicated reads per RG";
    "Tumour mean fraction of duplicated reads";
    "Tumour fraction of mis-matched pairs per RG";
    "Tumour mean fraction of mis-matched pairs";
    "Tumour contamination per RG"; "Tumour mean contamination";
    "Tumour sex"; "Tumour fraction of matched sex with Normal";
    "Tumour fraction of matched genotype with Normal";
    "Normal contamination in Tumour";
    "Normal sample name"; "Normal ID"; "Normal UUID";
    "Normal sequencing year"; "Normal sequencer"; "Normal ReadGroup IDs";
    "Normal depth per RG"; "Normal total depth";
    "Normal fraction of mapped reads per RG";
    "Normal mean fraction of mapped reads"; "Normal insert size per RG";
    "Normal mean Insert size"; "Normal insert size sd per RG";
    "Normal mean insert size sd"; "Normal r1 GC content per RG";
    "Normal mean r1 GC content"; "Normal r2 GC content per RG";
    "Normal mean r2 GC content";
    "Normal fraction of duplicated reads per RG";
    "Normal mean fraction of duplicated reads";
    "Normal fraction of mis-matched pairs per RG";
    "Normal mean fraction of mis-matched pairs";
    "Normal contamination per RG"; "Normal mean contamination";
    "Donor ID"; "Donor UUID" ]%string.

Definition VARIANT_COUNT_HEADER : list str := map py
  [ "Number of SNVs (PASS/All)"; "Number of INDELs (PASS/All)";
    "Number of SVs (PASS/All)"; "Number of CNVs" ]%string.

(** ** The collaborators and the operating system

    [get_abs_path] and [check_file_exists] live in the package's
    [__init__.py] and [SangerQcMetricsExtractor] in [sanger_qc_extractor.py];
    the core calls them and the file system, and the model takes what they
    answer as given. *)

(** What [with open(path, 'w') as f: f.write(text)] can come to: the file
    cannot be opened and is not created; it is created and the write (or the
    flush at close) fails; or all of it succeeds. *)
Inductive open_outcome :=
| OpenFails (e : exn)
| WriteFails (e : exn)
| Written.

(** The arguments [SangerQcMetricsExtractor] is constructed with. *)
Record Extractor := {
  ex_tumour_bas : str;
  ex_normal_bas : str;
  ex_genome_size : pyval;
  ex_variant_call_tar : str;
  ex_output_dir : str;
  ex_count_variants : pyval;
  ex_meta : pyval
}.

Record World := {
  (* the Unicode database behind \w and \d, beyond ASCII *)
  unicode_alnum : N -> bool;
  unicode_decimal : N -> bool;
  (* the built-in int on a str; None when it raises ValueError *)
  py_int : str -> option Z;
  (* ppcg_qc_from_sanger/__init__.py *)
  get_abs_path : str -> str;
  check_file_exists : str -> result unit;
  (* SangerQcMetricsExtractor, static methods *)
  validate_tar_name : str -> result unit;
  validate_bas : str -> result unit;
  get_bas_content : str -> result str;
  get_sample_name_from_bas : str -> result str;
  (* SangerQcMetricsExtractor, instances *)
  new_extractor : Extractor -> result unit;
  get_metrics : Extractor -> result (list str);
  get_genotyping_files : Extractor -> result (list str);
  clean_output_dir : Extractor -> result unit;
  (* os, tarfile, tempfile *)
  isdir : str -> bool;
  listdir : str -> result (list str);
  tar_members : str -> result (list str);
  open_w : str -> open_outcome;
  temp_dir : str;
  tar_write : str -> list str -> open_outcome
}.

(** What one call of the core can observe and change: the module-level
    [OUTPUT_HEADER] list, the regular files that exist, the text written so
    far to the metrics file, and the trace of what the call did. *)
Inductive event :=
| EvOpenWrite (path : str)
| EvRemove (path : str)
| EvGetAllBas (input : list str)
| EvGetAllVariantCallTar (input : list str)
| EvValidate
| EvGetAllMeta (input : list str)
| EvWrite (text : str)
| EvPair (t_n_pair : str * str)
| EvExtractor (e : Extractor)
| EvPackage (output_tar : str) (members : list str).

Record state := {
  OUTPUT_HEADER : list str;
  files : list str;
  report : str;
  log : list event
}.

(** The events of the stages that come before the report is opened. *)
Definition setup_event (e : event) : bool :=
  match e with
  | EvOpenWrite _ | EvRemove _ | EvGetAllBas _ | EvGetAllVariantCallTar _
  | EvValidate | EvGetAllMeta _ => true
  | EvWrite _ | EvPair _ | EvExtractor _ | EvPackage _ _ => false
  end.

(** The state of a fresh interpreter that has imported the module. *)
Definition module_loaded (fs : list str) : state :=
  {| OUTPUT_HEADER := OUTPUT_HEADER_BASE; files := fs; report := [];
     log := [] |}.

(** [st] with more events at the end of its trace. *)
Definition add_events (st : state) (evs : list event) : state :=
  {| OUTPUT_HEADER := OUTPUT_HEADER st; files := files st;
     report := report st; log := log st ++ evs |}.

Definition M (A : Type) := state -> result A * state.

Definition ret {A} (a : A) : M A := fun st => (Ok a, st).

Definition raise {A} (e : exn) : M A := fun st => (Err e, st).

Definition bind {A B} (m : M A) (f : A -> M B) : M B :=
  fun st =>
    match m st with
    | (Ok a, st') => f a st'
    | (Err e, st') => (Err e, st')
    end.

Definition lift {A} (r : result A) : M A := fun st => (r, st).

Declare Scope m_scope.
Delimit Scope m_scope with m.
Notation "x <- c ;; k" := (bind c (fun x => k))
  (at level 61, c at next level, right associativity) : m_scope.
Notation "c ;; k" := (bind c (fun _ => k))
  (at level 61, right associativity) : m_scope.

Definition tell (e : event) : M unit :=
  fun st => (Ok tt, {| OUTPUT_HEADER := OUTPUT_HEADER st; files := files st;
                       report := report st; log := log st ++ [e] |}).

(** [try: body except <catches> as exc: handler exc] *)
Definition try_except {A} (body : M A) (catches : exn -> bool)
    (handler : exn -> M A) : M A :=
  fun st =>
    match body st with
    | (Err e, st') => if catches e then handler e st' else (Err e, st')
    | done => done
    end.

(** [try: body finally: final]: [final] runs whatever [body] did, and an
    exception it raises replaces the one that was on its way. *)
Definition try_finally {A} (body : M A) (final : M unit) : M A :=
  fun st =>
    match body st with
    | (r, st') =>
        match final st' with
        | (Ok _, st'') => (r, st'')
        | (Err e, st'') => (Err e, st'')
        end
    end.

(** ** Attribute access, iteration and subscription *)

(** The [argparse.Namespace] handed to the core: the attributes that are
    set, by name. *)
Definition namespace := list (string * pyval).

Fixpoint getattr (args : namespace) (name : string) : result pyval :=
  match args with
  | [] => Err (AttributeError name)
  | (n, v) :: more => if String.eqb n name then Ok v else getattr more name
  end.

Definition as_str (v : pyval) : result str :=
  match v with
  | PyStr s => Ok s
  | _ => Err (TypeError "expected str, bytes or os.PathLike object")
  end.

Fixpoint all_str (l : list pyval) : result (list str) :=
  match l with
  | [] => Ok []
  | v :: l' => (s <- as_str v ;; r <- all_str l' ;; Ok (s :: r))%res
  end.

(** [for path in v] where the body takes [path] for a [str]: a list or a
    tuple yields its elements, a [dict] its keys, a [str] its characters. *)
Definition iterate (v : pyval) : result (list str) :=
  match v with
  | PyList l | PyTuple l => all_str l
  | PyDict items => all_str (map fst items)
  | PyStr s => Ok (map (fun c => [c]) s)
  | _ => Err (TypeError "object is not iterable")
  end.

(** [container[key]] on the sequences and the dictionaries of this model *)
Definition subscript (container key : pyval) : result pyval :=
  match container with
  | PyDict items =>
      if hashable key then
        match find (fun kv => key_eqb (fst kv) key) items with
        | Some kv => Ok (snd kv)
        | None => Err (KeyError key)
        end
      else Err (TypeError "unhashable type")
  | PyList l | PyTuple l =>
      match key with
      | PyInt i =>
          let j := if (i <? 0)%Z then (Z.of_nat (List.length l) + i)%Z else i in
          if (j <? 0)%Z then Err (Raised (py "IndexError"))
          else match nth_error l (Z.to_nat j) with
               | Some v => Ok v
               | None => Err (Raised (py "IndexError"))
               end
      | _ => Err (TypeError "tuple indices must be integers or slices")
      end
  | _ => Err (TypeError "object is not subscriptable")
  end.

(** Reading a local variable that an earlier branch may have left unbound. *)
Definition read_local (name : string) (v : option pyval) : result pyval :=
  match v with
  | Some x => Ok x
  | None => Err (UnboundLocalError name)
  end.

Definition is_match (r : regex) (s : str) : bool :=
  match re_match r s with Some _ => true | None => false end.

Section Core.

Variable w : World.

(** *** [get_all_bas] *)

(** The loop over [os.listdir(path)]: both tests are made on the bare
    entry name [a_file], as the source makes them. *)
Fixpoint bas_entries (entries to_return : list str) : result (list str) :=
  match entries with
  | [] => Ok to_return
  | a_file :: more =>
      if negb (isdir w a_file) && is_match BAS_PATTERN a_file then
        (validate_bas w a_file ;;
         bas_entries more (to_return ++ [get_abs_path w a_file]))%res
      else bas_entries more to_return
  end.

Fixpoint bas_paths (input_abs to_return : list str) : result (list str) :=
  match input_abs with
  | [] => Ok to_return
  | path :: more =>
      (check_file_exists w path ;;
       if isdir w path then
         entries <- listdir w path ;;
         found <- bas_entries entries to_return ;;
         bas_paths more found
       else
         validate_bas w path ;;
         bas_paths more (to_return ++ [get_abs_path w path]))%res
  end.

Definition get_all_bas (input_abs : list str) : result (list str) :=
  bas_paths input_abs [].

(** *** [get_all_variant_call_tar] *)

Fixpoint tar_entries (entries to_return : list str) : list str :=
  match entries with
  | [] => to_return
  | a_file :: more =>
      if negb (isdir w a_file) && is_match TAR_PATTERN a_file then
        tar_entries more (to_return ++ [get_abs_path w a_file])
      else tar_entries more to_return
  end.

Fixpoint tar_paths (input_call_tars to_return : list str)
    : result (list str) :=
  match input_call_tars with
  | [] => Ok to_return
  | path :: more =>
      (check_file_exists w path ;;
       if isdir w path then
         entries <- listdir w path ;;
         tar_paths more (tar_entries entries to_return)
       else
         validate_tar_name w path ;;
         tar_paths more (to_return ++ [get_abs_path w path]))%res
  end.

Definition get_all_variant_call_tar (input_call_tars : list str)
    : result (list str) :=
  tar_paths input_call_tars [].

(** *** [get_all_meta] *)

Fixpoint meta_entries (entries to_return : list str) : list str :=
  match entries with
  | [] => to_return
  | a_file :: more =>
      if negb (isdir w a_file) && is_match TSV_PATTERN a_file then
        meta_entries more (to_return ++ [get_abs_path w a_file])
      else meta_entries more to_return
  end.

Fixpoint meta_paths (metadata_paths to_return : list str)
    : result (list str) :=
  match metadata_paths with
  | [] => Ok to_return
  | path :: more =>
      (check_file_exists w path ;;
       if isdir w path then
         entries <- listdir w path ;;
         meta_paths more (meta_entries entries to_return)
       else meta_paths more (to_return ++ [get_abs_path w path]))%res
  end.

Definition get_all_meta (metadata_paths : list str) : result (list str) :=
  meta_paths metadata_paths [].

(** The placeholder of the source: whatever it is given, it returns the
    tuple [(1, 2)]. *)
Definition get_t_n_pair_meta (meta_files : list str)
    (t_n_pairs : list (str * str)) : pyval :=
  PyTuple [PyInt 1; PyInt 2].

(** *** [get_all_t_n_pairs] *)

(** The loop over the members of one archive, left at the first match with
    groups 1 and 2. *)
Fixpoint first_pair (all_files : list str) : option (str * str) :=
  match all_files with
  | [] => None
  | name :: more =>
      match re_match (PAIR_PATTERN (unicode_alnum w)) name with
      | Some groups => Some (nth 0 groups [], nth 1 groups [])
      | None => first_pair more
      end
  end.

(** One archive: its pair, or the failure of [if not t_name]. *)
Definition archive_pair (a_tar : str) : result (str * str) :=
  (all_files <- tar_members w a_tar ;;
   match first_pair all_files with
   | Some (t_name, n_name) =>
       if truthy (PyStr t_name) then Ok (t_name, n_name)
       else Err (InvalidArchiveError a_tar)
   | None => Err (InvalidArchiveError a_tar)
   end)%res.

Fixpoint pairs_loop (variant_call_tars : list str)
    (t_n_pair_tar : dict (str * str) str) : result (dict (str * str) str) :=
  match variant_call_tars with
  | [] => Ok t_n_pair_tar
  | a_tar :: more =>
      (key <- archive_pair a_tar ;;
       pairs_loop more (dict_set pair_eqb t_n_pair_tar key a_tar))%res
  end.

Definition get_all_t_n_pairs (variant_call_tars : list str)
    : result (dict (str * str) str) :=
  pairs_loop variant_call_tars [].

(** *** [get_sample_names_bas_file_dict] *)

Fixpoint names_loop (bas_list : list str) (d : dict str str)
    : result (dict str str) :=
  match bas_list with
  | [] => Ok d
  | bas :: more =>
      (content <- get_bas_content w bas ;;
       name <- get_sample_name_from_bas w content ;;
       names_loop more (dict_set str_eqb d name bas))%res
  end.

Definition get_sample_names_bas_file_dict (bas_list : list str)
    : result (dict str str) :=
  names_loop bas_list [].

(** *** [get_validated_tn_pair_and_bas_lists] *)

(** [sorted(set(expected) - set(present))] *)
Definition not_found (expected present : list str) : list str :=
  sorted (set_difference (py_set expected) (py_set present)).

(** The two checks that follow the construction of the three maps. *)
Definition check_bas (t_n_pair_tar : dict (str * str) str)
    (t_name_bas n_name_bas : dict str str) : result unit :=
  let expected_tumours := map fst (keys t_n_pair_tar) in
  let expected_normals := map snd (keys t_n_pair_tar) in
  let missing := not_found expected_tumours (keys t_name_bas) in
  match missing with
  | _ :: _ => Err (MissingSampleError Tumour missing)
  | [] =>
      let missing := not_found expected_normals (keys n_name_bas) in
      match missing with
      | _ :: _ => Err (MissingSampleError Normal missing)
      | [] => Ok tt
      end
  end.

Definition get_validated_tn_pair_and_bas_lists
    (tumour_bas normal_bas variant_call_tars : list str)
    : result (dict (str * str) str * dict str str * dict str str) :=
  (t_n_pair_tar <- get_all_t_n_pairs variant_call_tars ;;
   t_name_bas <- get_sample_names_bas_file_dict tumour_bas ;;
   n_name_bas <- get_sample_names_bas_file_dict normal_bas ;;
   check_bas t_n_pair_tar t_name_bas n_name_bas ;;
   Ok (t_n_pair_tar, t_name_bas, n_name_bas))%res.

End Core.

(** ** [extract_from_sanger] *)

Definition TAB : N := 9%N.

Definition update_files (f : list str -> list str) : M unit :=
  fun st => (Ok tt, {| OUTPUT_HEADER := OUTPUT_HEADER st; files := f (files st);
                       report := report st; log := log st |}).

Definition update_report (f : str -> str) : M unit :=
  fun st => (Ok tt, {| OUTPUT_HEADER := OUTPUT_HEADER st; files := files st;
                       report := f (report st); log := log st |}).

(** [OUTPUT_HEADER += more], on the list object the module holds. *)
Definition extend_OUTPUT_HEADER (more : list str) : M unit :=
  fun st => (Ok tt, {| OUTPUT_HEADER := OUTPUT_HEADER st ++ more;
                       files := files st; report := report st;
                       log := log st |}).

Definition read_OUTPUT_HEADER : M (list str) :=
  fun st => (Ok (OUTPUT_HEADER st), st).

Definition create_file (path : str) : M unit :=
  update_files (fun fs => if mem path fs then fs else fs ++ [path]).

(** What the core has in hand when it enters the scratch directory. *)
Record Prepared := {
  p_genome_size : pyval;
  p_output_tar : str;
  p_t_n_pair_tar : dict (str * str) str;
  p_t_name_bas : dict str str;
  p_n_name_bas : dict str str;
  p_t_n_pair_meta : option pyval;   (* [None]: the local was never bound *)
  p_count_variants : pyval
}.

(** What the core has in hand when it turns to the reconciliation. *)
Record Located := {
  l_genome_size : pyval;
  l_output_tar : str;
  l_tumour_bas : list str;
  l_normal_bas : list str;
  l_variant_call_tars : list str
}.

Definition lookup (d : dict str str) (k : str) : result str :=
  match dict_get str_eqb d k with
  | Some v => Ok v
  | None => Err (KeyError (PyStr k))
  end.

Section Run.

Variable w : World.

(** [os.path.exists] *)
Definition os_path_exists (path : str) : M bool :=
  fun st => (Ok (mem path (files st) || isdir w path), st).

(** [with open(path, 'w') as out: out.write(text)] *)
Definition open_and_write (path text : str) : M unit :=
  (tell (EvOpenWrite path) ;;
   match open_w w path with
   | OpenFails e => raise e
   | WriteFails e => create_file path ;; raise e
   | Written => create_file path
   end)%m.

(** [os.remove] *)
Definition os_remove (path : str) : M unit :=
  (tell (EvRemove path) ;;
   fun st =>
     if mem path (files st) then
       update_files (filter (fun f => negb (str_eqb path f))) st
     else if isdir w path then (Err (OSError (py "Is a directory")), st)
     else (Err (FileNotFoundError path), st))%m.

(** The test of the output path, lines 135 to 147 of the source. *)
Definition check_output (output_tar : str) : M unit :=
  (present <- os_path_exists output_tar ;;
   if negb present then
     try_finally
       (try_except
          (open_and_write output_tar (py "place holder" ++ [LF]))
          is_OSError
          (fun exc => raise (OutputUnwritableError exc)))
       (os_remove output_tar)
   else raise (OutputExistsError output_tar))%m.

(** From the top of the function to the end of the test of the output
    path: the genome size and the absolute output path. *)
Definition preflight (args : namespace) : M (pyval * str) :=
  (_ <- lift (getattr args "debug") ;;
   genome_size <- lift (getattr args "genome_size") ;;
   if negb (isinstance_int genome_size) then raise GenomeSizeError else
   output_arg <- lift (getattr args "output_tar") ;;
   output_path <- lift (as_str output_arg) ;;
   let output_tar := get_abs_path w output_path in
   lift (validate_tar_name w output_tar) ;;
   check_output output_tar ;;
   ret (genome_size, output_tar))%m.

(** The three calls that turn the input paths into lists of files. *)
Definition locate_after (args : namespace) (checked : pyval * str)
    : M Located :=
  (let (genome_size, output_tar) := checked in
   tumour_arg <- lift (getattr args "tumour_bas") ;;
   tumour_in <- lift (iterate tumour_arg) ;;
   tell (EvGetAllBas tumour_in) ;;
   tumour_bas <- lift (get_all_bas w tumour_in) ;;
   normal_arg <- lift (getattr args "normal_bas") ;;
   normal_in <- lift (iterate normal_arg) ;;
   tell (EvGetAllBas normal_in) ;;
   normal_bas <- lift (get_all_bas w normal_in) ;;
   tar_arg <- lift (getattr args "variant_call_tar") ;;
   tar_in <- lift (iterate tar_arg) ;;
   tell (EvGetAllVariantCallTar tar_in) ;;
   variant_call_tars <- lift (get_all_variant_call_tar w tar_in) ;;
   ret {| l_genome_size := genome_size; l_output_tar := output_tar;
          l_tumour_bas := tumour_bas; l_normal_bas := normal_bas;
          l_variant_call_tars := variant_call_tars |})%m.

Definition locate (args : namespace) : M Located :=
  (checked <- preflight args ;; locate_after args checked)%m.

(** From the reconciliation to [count_variants = args.count_variants]. *)
Definition reconcile (args : namespace) (l : Located) : M Prepared :=
  (tell EvValidate ;;
   maps <- lift (get_validated_tn_pair_and_bas_lists w (l_tumour_bas l)
                   (l_normal_bas l) (l_variant_call_tars l)) ;;
   let '(t_n_pair_tar, t_name_bas, n_name_bas) := maps in
   metadata <- lift (getattr args "metadata") ;;
   t_n_pair_meta <-
     (if truthy metadata then
        meta_in <- lift (iterate metadata) ;;
        tell (EvGetAllMeta meta_in) ;;
        metadata_list <- lift (get_all_meta w meta_in) ;;
        ret (Some (get_t_n_pair_meta metadata_list (keys t_n_pair_tar)))
      else ret None) ;;
   count_variants <- lift (getattr args "count_variants") ;;
   ret {| p_genome_size := l_genome_size l; p_output_tar := l_output_tar l;
          p_t_n_pair_tar := t_n_pair_tar; p_t_name_bas := t_name_bas;
          p_n_name_bas := n_name_bas; p_t_n_pair_meta := t_n_pair_meta;
          p_count_variants := count_variants |})%m.

Definition prepare (args : namespace) : M Prepared :=
  (l <- locate args ;; reconcile args l)%m.

(** [o.write(text)] on the metrics file *)
Definition o_write (text : str) : M unit :=
  (tell (EvWrite text) ;; update_report (fun r => r ++ text))%m.

(** [header = OUTPUT_HEADER] binds a second name to the module's list, and
    [header += VARIANT_COUNT_HEADER] extends that list where it is. *)
Definition build_header (count_variants : pyval) : M (list str) :=
  ((if truthy count_variants then extend_OUTPUT_HEADER VARIANT_COUNT_HEADER
    else ret tt) ;;
   read_OUTPUT_HEADER)%m.

(** One turn of the loop over [t_n_pair_tar.items()]. *)
Definition process_pair (p : Prepared) (item : (str * str) * str)
    (genotyping_files : list str) : M (list str) :=
  (let (t_n_pair, v_tar) := item in
   let key := PyTuple [PyStr (fst t_n_pair); PyStr (snd t_n_pair)] in
   tell (EvPair t_n_pair) ;;
   table <- lift (read_local "t_n_pair_meta" (p_t_n_pair_meta p)) ;;
   lift (subscript table key) ;;
   t_bas <- lift (lookup (p_t_name_bas p) (fst t_n_pair)) ;;
   n_bas <- lift (lookup (p_n_name_bas p) (snd t_n_pair)) ;;
   meta <- lift (subscript table key) ;;
   let extractor :=
     {| ex_tumour_bas := t_bas; ex_normal_bas := n_bas;
        ex_genome_size := p_genome_size p; ex_variant_call_tar := v_tar;
        ex_output_dir := temp_dir w;
        ex_count_variants := p_count_variants p; ex_meta := meta |} in
   tell (EvExtractor extractor) ;;
   lift (new_extractor w extractor) ;;
   metrics <- lift (get_metrics w extractor) ;;
   o_write (join [TAB] metrics ++ [LF]) ;;
   produced <- lift (get_genotyping_files w extractor) ;;
   lift (clean_output_dir w extractor) ;;
   ret (genotyping_files ++ produced))%m.

Fixpoint process_pairs (p : Prepared) (items : list ((str * str) * str))
    (genotyping_files : list str) : M (list str) :=
  match items with
  | [] => ret genotyping_files
  | item :: more =>
      (found <- process_pair p item genotyping_files ;;
       process_pairs p more found)%m
  end.

(** The body of [with open(output_metrics_file, 'w') as o]; opening and
    writing a file of the scratch directory are taken to succeed. *)
Definition write_report (p : Prepared) : M (list str) :=
  (update_report (fun _ => []) ;;
   header <- build_header (p_count_variants p) ;;
   o_write (join [TAB] header ++ [LF]) ;;
   process_pairs p (p_t_n_pair_tar p) [])%m.

Definition output_metrics_file : str :=
  temp_dir w ++ py "/" ++ py "ppcg_sanger_metrics.txt".

(** The final bundle, lines 194 to 201. *)
Definition package (p : Prepared) (genotyping_files : list str) : M unit :=
  let members := output_metrics_file :: genotyping_files in
  try_except
    (tell (EvPackage (p_output_tar p) members) ;;
     match tar_write w (p_output_tar p) members with
     | OpenFails e => raise e
     | WriteFails e => create_file (p_output_tar p) ;; raise e
     | Written => create_file (p_output_tar p)
     end)%m
    is_Exception
    (fun exc => raise (PackagingError exc)).

Definition extract_from_sanger (args : namespace) : M unit :=
  (p <- prepare args ;;
   genotyping_files <- write_report p ;;
   package p genotyping_files)%m.

End Run.

(** The state once the header line is written: the module's list extended
    when variant counting is on, and the header line as the report. *)
Definition header_of (count_variants : pyval) (st : state) : list str :=
  if truthy count_variants then OUTPUT_HEADER st ++ VARIANT_COUNT_HEADER
  else OUTPUT_HEADER st.

Definition header_written (count_variants : pyval) (st : state) : state :=
  let header := header_of count_variants st in
  {| OUTPUT_HEADER := header; files := files st;
     report := join [TAB] header ++ [LF];
     log := log st ++ [EvWrite (join [TAB] header ++ [LF])] |}.

(** The two values the local [t_n_pair_meta] can have at the loop: unbound,
    or the placeholder's tuple. *)
Definition STUB_META : pyval := PyTuple [PyInt 1; PyInt 2].

(** ** The command line, [command_line.main]

    The parser is what [main] declares, and [parse_args] follows
    [ArgumentParser.parse_args] of the [argparse] of CPython 3.11 on it:
    the defaults are set first; every argument string is classified as an
    option or an argument, an option being a declared option string, one
    followed by [=value], an abbreviation that only one option string
    completes, or a one-letter option with its value or further one-letter
    options glued to it; the options are then consumed from left to right
    with their arguments; and at the end the required options and the
    argument strings that nothing consumed are checked.  The texts that
    [argparse] prints are left out: every error of the parser is the exit
    with status 2. *)

Inductive action_kind :=
| StoreStr
| StoreInt
| StoreTrue
| ShowVersion
| ShowHelp.

Record action := {
  option_strings : list string;
  dest : string;
  act : action_kind;
  required : bool;
  default : option pyval      (* [None]: argparse.SUPPRESS *)
}.

Definition parser_actions : list action :=
  [ {| option_strings := ["-h"; "--help"]; dest := "help"; act := ShowHelp;
       required := false; default := None |};
    {| option_strings := ["-v"; "--version"]; dest := "version";
       act := ShowVersion; required := false; default := None |};
    {| option_strings := ["-tb"; "--tumour_bas"]; dest := "tumour_bas";
       act := StoreStr; required := true; default := Some PyNone |};
    {| option_strings := ["-nb"; "--normal_bas"]; dest := "normal_bas";
       act := StoreStr; required := true; default := Some PyNone |};
    {| option_strings := ["-rt"; "--variant_call_tar"];
       dest := "variant_call_tar";
       act := StoreStr; required := true; default := Some PyNone |};
    {| option_strings := ["-o"; "--output_tar"]; dest := "output_tar";
       act := StoreStr; required := true; default := Some PyNone |};
    {| option_strings := ["-gs"; "--genome_size"]; dest := "genome_size";
       act := StoreInt; required := false;
       default := Some (PyInt 3137454505) |};
    {| option_strings := ["-d"; "--debug"]; dest := "debug";
       act := StoreTrue; required := false;
       default := Some (PyBool false) |} ]%string.

(** [parser.set_defaults(func=extract_from_sanger)] *)
Definition parser_defaults : namespace :=
  [("func"%string, PyFunc "extract_from_sanger")].

Fixpoint setattr (ns : namespace) (name : string) (v : pyval) : namespace :=
  match ns with
  | [] => [(name, v)]
  | (n, v') :: more =>
      if String.eqb n name then (n, v) :: more
      else (n, v') :: setattr more name v
  end.

Definition hasattr (ns : namespace) (name : string) : bool :=
  is_ok (getattr ns name).

Definition initial_namespace : namespace :=
  let with_actions :=
    fold_left
      (fun ns a =>
         match default a with
         | Some v => if hasattr ns (dest a) then ns else setattr ns (dest a) v
         | None => ns
         end)
      parser_actions [] in
  fold_left
    (fun ns kv => if hasattr ns (fst kv) then ns else setattr ns (fst kv) (snd kv))
    parser_defaults with_actions.

(** [action.nargs]: the store actions take one argument, the others none. *)
Definition takes_argument (a : action) : bool :=
  match act a with
  | StoreStr | StoreInt => true
  | StoreTrue | ShowVersion | ShowHelp => false
  end.

(** [parser._option_string_actions], in the order the options were added. *)
Definition option_string_actions : list (str * action) :=
  flat_map (fun a => map (fun o => (py o, a)) (option_strings a))
    parser_actions.

(** [self._option_string_actions[token]], when [token] is a key. *)
Definition find_action (token : str) : option action :=
  find (fun a => existsb (fun o => str_eqb (py o) token) (option_strings a))
       parser_actions.

Definition is_digit (c : N) : bool := ((48 <=? c) && (c <=? 57))%N.

Definition DASH : N := 45%N.

Definition DASHES : str := [DASH; DASH].

Definition usage_error : exn := SystemExit 2 (py "usage").

Fixpoint starts_with (prefix s : str) : bool :=
  match prefix, s with
  | [], _ => true
  | x :: prefix', y :: s' => N.eqb x y && starts_with prefix' s'
  | _ :: _, [] => false
  end.

(** [s.split('=', 1)] for an [s] with an equals sign in it. *)
Fixpoint split_equals (s : str) : option (str * str) :=
  match s with
  | [] => None
  | c :: s' =>
      if N.eqb c 61 then Some ([], s')
      else match split_equals s' with
           | Some (before, after) => Some (c :: before, after)
           | None => None
           end
  end.

(** [l.remove(x)] where it does not raise: the first [x] is taken out. *)
Fixpoint remove_first (x : str) (l : list str) : list str :=
  match l with
  | [] => []
  | y :: l' => if str_eqb y x then l' else y :: remove_first x l'
  end.

(** What [_parse_optional] makes of an option: the action, [None] for an
    option the parser does not declare; the option string; and the argument
    glued to it, if any. *)
Definition option_tuple : Type := option action * str * option str.

(** The pattern letter of an argument string: ['A'], ['O'] with what was
    made of the option, or ['-'] for the first [--]. *)
Inductive arg_kind :=
| Argument
| OptionString (t : option_tuple)
| Dashes.

Section ArgumentParser.

Variable w : World.

(** [\d] on a [str] pattern *)
Definition digit (c : N) : bool :=
  if (c <? 128)%N then is_digit c else unicode_decimal w c.

(** [parser._negative_number_matcher], [r'^-\d+$|^-\d*\.\d+$']; its second
    branch is written out for no digit and for some digits before the
    point. *)
Definition negative_number (s : str) : bool :=
  is_match [Bol; Chr DASH; Plus false digit; Eol] s
  || is_match [Bol; Chr DASH; Chr 46; Plus false digit; Eol] s
  || is_match [Bol; Chr DASH; Plus false digit; Chr 46; Plus false digit; Eol]
       s.

(** [parser._has_negative_number_optionals]: whether an option string was
    added that reads as a negative number. *)
Definition has_negative_number_optionals : bool :=
  existsb (fun oa => negative_number (fst oa)) option_string_actions.

(** [_get_option_tuples], called on a string of two characters or more
    that begins with a dash: the options the string abbreviates, and the
    one-letter option it begins with, the rest being glued to it. *)
Definition get_option_tuples (option_string : str) : list option_tuple :=
  match option_string with
  | c0 :: c1 :: rest =>
      if N.eqb c1 DASH then
        let '(option_prefix, explicit_arg) :=
          match split_equals option_string with
          | Some (before, after) => (before, Some after)
          | None => (option_string, None)
          end in
        flat_map
          (fun oa =>
             if starts_with option_prefix (fst oa)
             then [(Some (snd oa), fst oa, explicit_arg)]
             else [])
          option_string_actions
      else
        let short_option_prefix := [c0; c1] in
        let short_explicit_arg := rest in
        flat_map
          (fun oa =>
             if str_eqb (fst oa) short_option_prefix
             then [(Some (snd oa), fst oa, Some short_explicit_arg)]
             else if starts_with option_string (fst oa)
             then [(Some (snd oa), fst oa, None)]
             else [])
          option_string_actions
  | _ => []
  end.

(** [_parse_optional]: [None] for an argument, the option tuple for an
    option, and the exit of [parser.error] for an ambiguous abbreviation. *)
Definition parse_optional (arg_string : str) : result (option option_tuple) :=
  match arg_string with
  | [] => Ok None
  | c :: rest =>
      if negb (N.eqb c DASH) then Ok None
      else
        match find_action arg_string with
        | Some a => Ok (Some (Some a, arg_string, None))
        | None =>
            match rest with
            | [] => Ok None
            | _ :: _ =>
                let with_equals :=
                  match split_equals arg_string with
                  | Some (option_string, explicit_arg) =>
                      match find_action option_string with
                      | Some a => Some (Some a, option_string, Some explicit_arg)
                      | None => None
                      end
                  | None => None
                  end in
                match with_equals with
                | Some t => Ok (Some t)
                | None =>
                    match get_option_tuples arg_string with
                    | _ :: _ :: _ => Err usage_error
                    | [t] => Ok (Some t)
                    | [] =>
                        if negative_number arg_string
                           && negb has_negative_number_optionals
                        then Ok None
                        else if existsb (N.eqb 32) arg_string then Ok None
                        else Ok (Some (None, arg_string, None))
                    end
                end
            end
        end
  end.

(** The first loop of [_parse_known_args]: the pattern of the argument
    strings.  Everything after the first [--] is an argument. *)
Fixpoint classify (arg_strings : list str) : result (list (str * arg_kind)) :=
  match arg_strings with
  | [] => Ok []
  | arg_string :: more =>
      if str_eqb arg_string DASHES then
        Ok ((arg_string, Dashes) :: map (fun s => (s, Argument)) more)
      else
        (t <- parse_optional arg_string ;;
         rest <- classify more ;;
         Ok ((arg_string,
              match t with
              | None => Argument
              | Some t => OptionString t
              end) :: rest))%res
  end.

(** [_match_argument] on the pattern that follows an option without a glued
    argument: a store action takes the next string when it is an argument
    and fails otherwise, the other actions take nothing.  The result is the
    action with its argument strings, and how many of the strings that
    follow were taken. *)
Definition match_following (a : action) (following : list (str * arg_kind))
    : result (list (action * list str) * nat) :=
  if takes_argument a then
    match following with
    | (arg_string, Argument) :: _ => Ok ([(a, [arg_string])], 1)
    | _ => Err usage_error
    end
  else Ok ([(a, [])], 0).

(** The loop of [consume_optional] on an option with a glued argument: a
    store action takes it; a one-letter option without an argument passes
    it on, its first character being the next one-letter option. *)
Fixpoint glued (a : action) (option_string explicit_arg : str)
    (following : list (str * arg_kind)) {struct explicit_arg}
    : result (list (action * list str) * nat) :=
  if takes_argument a then Ok ([(a, [explicit_arg])], 0)
  else
    match explicit_arg with
    | c :: new_explicit_arg =>
        if negb (N.eqb (nth 1 option_string DASH) DASH) then
          let option_string' := [hd DASH option_string; c] in
          match find_action option_string' with
          | Some a' =>
              (more <-
                 match new_explicit_arg with
                 | [] => match_following a' following
                 | _ :: _ => glued a' option_string' new_explicit_arg following
                 end ;;
               Ok ((a, []) :: fst more, snd more))%res
          | None => Err usage_error
          end
        else Err usage_error
    | [] => Err usage_error
    end.

(** [consume_optional]: the actions one option string stands for, each with
    its argument strings, in the order they are taken, and how many of the
    strings that follow the option were taken. *)
Definition consume_optional (t : action * str * option str)
    (following : list (str * arg_kind))
    : result (list (action * list str) * nat) :=
  let '(a, option_string, explicit_arg) := t in
  match explicit_arg with
  | Some explicit_arg => glued a option_string explicit_arg following
  | None => match_following a following
  end.

(** [_get_value]: the conversion [type=] asks for. *)
Definition get_value (a : action) (arg_string : str) : result pyval :=
  match act a with
  | StoreInt =>
      match py_int w arg_string with
      | Some z => Ok (PyInt z)
      | None => Err usage_error
      end
  | _ => Ok (PyStr arg_string)
  end.

Fixpoint get_all_values (a : action) (arg_strings : list str)
    : result (list pyval) :=
  match arg_strings with
  | [] => Ok []
  | arg_string :: more =>
      (v <- get_value a arg_string ;;
       vs <- get_all_values a more ;;
       Ok (v :: vs))%res
  end.

(** [_get_values]: the first [--] among the argument strings is dropped;
    one string left for an action that takes one argument gives its value,
    and anything else gives the list of the values. *)
Definition get_values (a : action) (arg_strings : list str) : result pyval :=
  let arg_strings := remove_first DASHES arg_strings in
  match arg_strings with
  | [arg_string] =>
      if takes_argument a then get_value a arg_string
      else (vs <- get_all_values a arg_strings ;; Ok (PyList vs))%res
  | _ => (vs <- get_all_values a arg_strings ;; Ok (PyList vs))%res
  end.

(** [take_action]: the action is noted as seen and called on its values. *)
Definition take_action (a : action) (argument_strings : list str)
    (ns : namespace) (seen : list string)
    : result (namespace * list string) :=
  (argument_values <- get_values a argument_strings ;;
   match act a with
   | StoreStr | StoreInt =>
       Ok (setattr ns (dest a) argument_values, dest a :: seen)
   | StoreTrue => Ok (setattr ns (dest a) (PyBool true), dest a :: seen)
   | ShowVersion => Err (SystemExit 0 (py "ppcg-qc-from-sanger"))
   | ShowHelp => Err (SystemExit 0 (py "usage"))
   end)%res.

Fixpoint take_actions (action_tuples : list (action * list str))
    (ns : namespace) (seen : list string)
    : result (namespace * list string) :=
  match action_tuples with
  | [] => Ok (ns, seen)
  | (a, args) :: more =>
      (taken <- take_action a args ns seen ;;
       take_actions more (fst taken) (snd taken))%res
  end.

(** The second loop of [_parse_known_args]: the options are consumed from
    left to right; [skip] counts the strings the option before has taken,
    and the strings that no option takes are collected as [extras]. *)
Fixpoint consume (args : list (str * arg_kind)) (skip : nat)
    (ns : namespace) (seen : list string) (extras : list str)
    : result (namespace * list string * list str) :=
  match args with
  | [] => Ok (ns, seen, extras)
  | (arg_string, kind) :: following =>
      match skip with
      | S skip' => consume following skip' ns seen extras
      | O =>
          match kind with
          | OptionString (Some a, option_string, explicit_arg) =>
              (found <- consume_optional (a, option_string, explicit_arg)
                          following ;;
               taken <- take_actions (fst found) ns seen ;;
               consume following (snd found) (fst taken) (snd taken) extras)%res
          | OptionString (None, _, _) | Argument | Dashes =>
              consume following O ns seen (extras ++ [arg_string])
          end
      end
  end.

(** [parser.parse_args()] on [sys.argv[1:]] *)
Definition parse_args (arg_strings : list str) : result namespace :=
  (pattern <- classify arg_strings ;;
   parsed <- consume pattern 0 initial_namespace [] [] ;;
   let '(ns, seen, extras) := parsed in
   if forallb
        (fun a => negb (required a)
                  || existsb (String.eqb (dest a)) seen)
        parser_actions
   then match extras with
        | [] => Ok ns
        | _ :: _ => Err usage_error
        end
   else Err usage_error)%res.

End ArgumentParser.

Definition ARGUMENTS_REQUIRED : exn :=
  SystemExit 1 (py "ERROR Arguments required").

(** [main], with [sys.argv] as its input. *)
Definition main (w : World) (argv : list str) : M unit :=
  (args <- lift (parse_args w (tl argv)) ;;
   if (1 <? List.length argv)%nat then
     func <- lift (getattr args "func") ;;
     match func with
     | PyFunc "extract_from_sanger" => extract_from_sanger w args
     | _ => raise (TypeError "object is not callable")
     end
   else raise ARGUMENTS_REQUIRED)%m.

(** ** Reading the report back *)

(** The text cut at each occurrence of [sep]; the piece after the last one
    is [cur] with what follows. *)
Fixpoint split_on (sep : N) (s cur : str) : list str :=
  match s with
  | [] => [cur]
  | c :: s' =>
      if N.eqb c sep then cur :: split_on sep s' [] else split_on sep s' (cur ++ [c])
  end.

(** The lines of a text each of whose lines ends in a line break. *)
Definition lines (text : str) : list str := removelast (split_on LF text []).


(** [OUTPUT_HEADER] after [k] extensions by [VARIANT_COUNT_HEADER]. *)
Definition header_after (k : nat) : list str :=
  OUTPUT_HEADER_BASE ++ List.concat (repeat VARIANT_COUNT_HEADER k).

(** ** A small installation to run the model on *)

Definition ends_with (suffix s : str) : bool :=
  starts_with (rev suffix) (rev s).

Definition assoc {A} (table : list (string * A)) (p : str) : option A :=
  match find (fun kv => str_eqb (py (fst kv)) p) table with
  | Some kv => Some (snd kv)
  | None => None
  end.

Definition lab_tars : list (string * list str) :=
  [ ("/work/pair.tar.gz"%string, [py "WGS_T1_vs_N1"; py "WGS_T1_vs_N1/caveman"]);
    ("/work/junk.tar.gz"%string, [py "WGS_T1_vs_N1_extra_junk"]);
    ("/work/t2.tar.gz"%string, [py "WGS_T2_vs_N1"; py "WGS_T2_vs_N1/pindel"]);
    ("/work/n2.tar.gz"%string, [py "WGS_T1_vs_N2"]);
    ("/work/newline.tar.gz"%string, [py "WGS_T1_vs_N1" ++ [LF]]);
    ("/work/twice.tar.gz"%string, [py "WGS_A_vs_B_vs_C"]) ].

Definition lab_samples : list (string * str) :=
  [ ("/work/T1.bam.bas"%string, py "T1"); ("/work/N1.bam.bas"%string, py "N1") ].

(** The directories, each with what [os.listdir] answers for it. *)
Definition lab_dirs : list (string * result (list str)) :=
  [ ("/data/bas"%string, Ok [py "sub.bam.bas"]);
    ("/data/bas/sub.bam.bas"%string, Ok []);
    ("/data/calls"%string, Ok [py "sample.tar.gz"]);
    ("/data/plain"%string, Ok [py "notes.txt"; py "old"]);
    ("/data/plain/old"%string, Ok []);
    ("/data/locked"%string, Err (OSError (py "[Errno 13] Permission denied"))) ].

Definition digits_value (ds : str) : Z :=
  fold_left (fun acc c => (10 * acc + (Z.of_N c - 48))%Z) ds 0%Z.

Definition ascii_blank (c : N) : bool :=
  ((9 <=? c) && (c <=? 13) || N.eqb c 32)%N.

Fixpoint strip_left (s : str) : str :=
  match s with
  | c :: s' => if ascii_blank c then strip_left s' else s
  | [] => []
  end.

(** The digits of a decimal literal in which single underscores may stand
    between digits. *)
Fixpoint grouped_digits (s : str) (after_digit : bool) : option str :=
  match s with
  | [] => if after_digit then Some [] else None
  | c :: s' =>
      if is_digit c then
        match grouped_digits s' true with
        | Some ds => Some (c :: ds)
        | None => None
        end
      else if N.eqb c 95 && after_digit then grouped_digits s' false
      else None
  end.

(** [int(s)] on ASCII text, as the interpreter of the installation answers
    it: blanks around, an optional sign, and decimal digits, at most 4300 of
    them, with single underscores between digits. *)
Definition lab_int (s : str) : option Z :=
  let body := rev (strip_left (rev (strip_left s))) in
  let '(negative, literal) :=
    match body with
    | c :: more =>
        if N.eqb c 45 then (true, more)
        else if N.eqb c 43 then (false, more)
        else (false, body)
    | [] => (false, body)
    end in
  match grouped_digits literal false with
  | Some ds =>
      if (4300 <? List.length ds)%nat then None
      else Some (if negative then - digits_value ds else digits_value ds)%Z
  | None => None
  end.

Definition lab : World :=
  {| unicode_alnum := fun _ => false;
     unicode_decimal := fun _ => false;
     py_int := lab_int;
     get_abs_path := fun p =>
       if starts_with (py "/") p then p else py "/work/" ++ p;
     check_file_exists := fun _ => Ok tt;
     validate_tar_name := fun p =>
       if ends_with (py ".tar.gz") p then Ok tt
       else Err (Raised (py "not a .tar.gz name"));
     validate_bas := fun p =>
       if ends_with (py ".bam.bas") p then Ok tt
       else Err (Raised (py "not a .bam.bas name"));
     get_bas_content := fun p => Ok p;
     get_sample_name_from_bas := fun content =>
       match assoc lab_samples
               (if starts_with (py "/") content then content
                else py "/work/" ++ content) with
       | Some name => Ok name
       | None => Err (Raised (py "no sample name"))
       end;
     new_extractor := fun _ => Ok tt;
     get_metrics := fun e =>
       Ok (repeat (py "NA")
             (if truthy (ex_count_variants e) then 58 else 54));
     get_genotyping_files := fun _ => Ok [];
     clean_output_dir := fun _ => Ok tt;
     isdir := fun p => match assoc lab_dirs p with Some _ => true | None => false end;
     listdir := fun p =>
       match assoc lab_dirs p with
       | Some answer => answer
       | None => Err (FileNotFoundError p)
       end;
     tar_members := fun p =>
       match assoc lab_tars
               (if starts_with (py "/") p then p else py "/work/" ++ p) with
       | Some members => Ok members
       | None => Err (Raised (py "ReadError"))
       end;
     open_w := fun p =>
       if starts_with (py "/readonly/") p
       then OpenFails (OSError (py "[Errno 13] Permission denied"))
       else if starts_with (py "/full/") p
       then WriteFails (OSError (py "[Errno 28] No space left on device"))
       else Written;
     temp_dir := py "/tmp/scratch";
     tar_write := fun _ _ => Written |}.

Definition paths (l : list str) : pyval := PyList (map PyStr l).

(** The namespace of a direct call of the core. *)
Definition call_args (tumour normal tars : list str) (output : str)
    (genome_size metadata count_variants : pyval) : namespace :=
  [ ("tumour_bas"%string, paths tumour); ("normal_bas"%string, paths normal);
    ("variant_call_tar"%string, paths tars);
    ("output_tar"%string, PyStr output);
    ("genome_size"%string, genome_size); ("debug"%string, PyBool false);
    ("metadata"%string, metadata);
    ("count_variants"%string, count_variants) ].

Definition GRCh37 : pyval := PyInt 3137454505.

Definition lab_disk : list str :=
  [py "/work/existing.tar.gz"; py "/work/existing.txt"].

(** ** The specification's vocabulary *)

(** [WGS_<t>_vs_<n>] *)
Definition pairing_name (t n : str) : str := py "WGS_" ++ t ++ py "_vs_" ++ n.

Section Vocabulary.

Variable alnum : N -> bool.

(** One or more word or hyphen characters. *)
Definition name_part (s : str) : Prop :=
  s <> [] /\ forallb (word_hyphen alnum) s = true.

(** A member named exactly [WGS_<T>_vs_<N>]. *)
Definition exactly_pairing (name : str) : Prop :=
  exists t n, name = pairing_name t n /\ name_part t /\ name_part n.

(** The same, or the same followed by one line break. *)
Definition pairing_member (name : str) : Prop :=
  exists t n tail,
    name = pairing_name t n ++ tail /\ name_part t /\ name_part n
    /\ (tail = [] \/ tail = [LF]).

End Vocabulary.

(** A conventional archive name: a stem that is not empty, then [.tar.gz]. *)
Definition conventional_tar_name (name : str) : Prop :=
  exists stem, stem <> [] /\ name = stem ++ py ".tar.gz".

Definition UNDERSCORE : N := 95%N.

Definition JUNK_MEMBER : str := py "WGS_T1_vs_N1_extra_junk".

(** [os.path.join(directory, entry)] for a bare entry name *)
Definition os_path_join (directory entry : str) : str :=
  if ends_with (py "/") directory then directory ++ entry
  else directory ++ py "/" ++ entry.

(** ** What a computation leaves behind *)

(** Every run of [m], failing or not, takes a state to one related to it. *)
Definition respects (R : state -> state -> Prop) {A} (m : M A) : Prop :=
  forall st r st', m st = (r, st') -> R st st'.

(** The trace only grows. *)
Definition grows_rel (st st' : state) : Prop :=
  exists evs, log st' = log st ++ evs.

(** The header and the report are left alone, and the trace grows by
    events of the stages before the report. *)
Definition quiet_rel (st st' : state) : Prop :=
  OUTPUT_HEADER st' = OUTPUT_HEADER st /\ report st' = report st
  /\ exists evs, log st' = log st ++ evs /\ forallb setup_event evs = true.

Definition grows {A} (m : M A) : Prop := respects grows_rel m.
Definition quiet {A} (m : M A) : Prop := respects quiet_rel m.

(** [<] on [str], as a relation. *)
Definition str_lt (a b : str) : Prop := str_ltb a b = true.

(** ** Closed forms to compare the loops with *)

(** The test the scan of a directory makes on an entry, for each of the
    three locators. *)
Definition entry_filter (w : World) (pattern : regex) (a_file : str) : bool :=
  negb (isdir w a_file) && is_match pattern a_file.

(** The entries of a directory that can be listed. *)
Definition listed (w : World) (path : str) : list str :=
  match listdir w path with
  | Ok entries => entries
  | Err _ => []
  end.

(** A path that can be listed when it is a directory. *)
Definition listable (w : World) (path : str) : Prop :=
  isdir w path = true -> exists entries, listdir w path = Ok entries.

(** What one input path contributes to the result of a locator that scans
    directories with [pattern]: the entries that pass the test, or the path
    itself. *)
Definition contribution (w : World) (pattern : regex) (path : str)
    : list str :=
  if isdir w path then
    map (get_abs_path w) (filter (entry_filter w pattern) (listed w path))
  else [get_abs_path w path].

(** The name a statistics file is known by: what
    [get_sample_name_from_bas(get_bas_content(bas))] evaluates to. *)
Definition sample_name (w : World) (bas : str) : result str :=
  (content <- get_bas_content w bas ;; get_sample_name_from_bas w content)%res.

(** The common shape of the two loops that fill a [dict]: each item is
    stored under its key, and a key that cannot be computed ends the loop. *)
Fixpoint index_by {K} (keq : K -> K -> bool) (key : str -> result K)
    (items : list str) (d : dict K str) : result (dict K str) :=
  match items with
  | [] => Ok d
  | x :: more =>
      (k <- key x ;; index_by keq key more (dict_set keq d k x))%res
  end.

(** The files are left as they were. *)
Definition same_files (st st' : state) : Prop := files st' = files st.

Definition keeps_files {A} (m : M A) : Prop := respects same_files m.

(** The installation [lab] with an output archive that cannot be completed. *)
Definition lab_broken_tar : World :=
  {| unicode_alnum := unicode_alnum lab;
     unicode_decimal := unicode_decimal lab;
     py_int := py_int lab;
     get_abs_path := get_abs_path lab;
     check_file_exists := check_file_exists lab;
     validate_tar_name := validate_tar_name lab;
     validate_bas := validate_bas lab;
     get_bas_content := get_bas_content lab;
     get_sample_name_from_bas := get_sample_name_from_bas lab;
     new_extractor := new_extractor lab;
     get_metrics := get_metrics lab;
     get_genotyping_files := get_genotyping_files lab;
     clean_output_dir := clean_output_dir lab;
     isdir := isdir lab;
     listdir := listdir lab;
     tar_members := tar_members lab;
     open_w := open_w lab;
     temp_dir := temp_dir lab;
     tar_write := fun _ _ =>
       WriteFails (OSError (py "[Errno 28] No space left on device")) |}.






(** The four attributes the core takes for lists of paths. *)
Definition path_attributes : list string :=
  ["tumour_bas"; "normal_bas"; "variant_call_tar"; "output_tar"]%string.

(** What an action of the parser can store: a store action the [str] or the
    [int] it converted its argument to, or the empty list when the argument
    glued to the option was [--]; [store_true] the constant [True]. *)
Definition stored_value (a : action) (v : pyval) : Prop :=
  match act a with
  | StoreStr => (exists s, v = PyStr s) \/ v = PyList []
  | StoreInt => (exists z, v = PyInt z) \/ v = PyList []
  | StoreTrue => v = PyBool true
  | ShowVersion | ShowHelp => False
  end.

(** The namespace after the stores [steps], made from left to right. *)
Definition after_stores (steps : list (action * pyval)) (ns : namespace)
    : namespace :=
  fold_left (fun ns s => setattr ns (dest (fst s)) (snd s)) steps ns.

(** The exits of the interpreter among the exceptions. *)
Definition is_exit (e : exn) : bool :=
  match e with
  | SystemExit _ _ => true
  | _ => false
  end.

(** The options of a pattern are declared ones. *)
Definition declared (kind : arg_kind) : Prop :=
  match kind with
  | OptionString (Some a, _, _) => In a parser_actions
  | _ => True
  end.

(** The actions of one option string: declared ones, each with at most one
    argument string, and at most one of them a store action. *)
Definition cluster (tuples : list (action * list str)) : Prop :=
  Forall (fun t => In (fst t) parser_actions /\ List.length (snd t) <= 1)
    tuples
  /\ List.length (filter (fun t => takes_argument (fst t)) tuples) <= 1.

(** What the parser keeps true of the namespace it fills: the genome size
    is an [int] or the empty list, [debug] a [bool], and each path attribute
    whose option was seen a [str] or the empty list. *)
Definition typed_namespace (ns : namespace) (seen : list string) : Prop :=
  ((exists z, getattr ns "genome_size" = Ok (PyInt z))
   \/ getattr ns "genome_size" = Ok (PyList []))
  /\ (exists b, getattr ns "debug" = Ok (PyBool b))
  /\ forall d, In d path_attributes -> In d seen ->
                (exists s, getattr ns d = Ok (PyStr s))
                \/ getattr ns d = Ok (PyList []).

(** * Properties *)

(** ** Strings *)

Lemma str_eqb_eq (a b : str) : str_eqb a b = true <-> a = b.
Proof.
  revert b; induction a as [|x a IH]; intros [|y b]; simpl;
    try (split; [discriminate | congruence]); try tauto.
  rewrite andb_true_iff, N.eqb_eq, IH. split; [intros []| intros [=]]; subst; auto.
Qed.

Lemma str_eqb_refl (a : str) : str_eqb a a = true.
Proof. now apply str_eqb_eq. Qed.

Lemma str_eqb_neq (a b : str) : str_eqb a b = false <-> a <> b.
Proof.
  rewrite <- str_eqb_eq. destruct (str_eqb a b); split; congruence.
Qed.

Lemma mem_In (x : str) (l : list str) : mem x l = true <-> In x l.
Proof.
  unfold mem. rewrite existsb_exists. split.
  - intros (y & Hy & E). apply str_eqb_eq in E. now subst.
  - intros H. exists x. split; [assumption | apply str_eqb_refl].
Qed.

Lemma mem_false (x : str) (l : list str) : mem x l = false <-> ~ In x l.
Proof.
  rewrite <- mem_In. destruct (mem x l); split; congruence.
Qed.

(** ** The matcher *)

Section Greedy.

Variables (R : Type) (p : N -> bool) (k : str -> str -> option R).

Lemma plus_greedy_none (s : str) : forall taken,
  plus_greedy p k taken s = None ->
  forall a b, s = a ++ b -> a <> [] -> forallb p a = true ->
  k (taken ++ a) b = None.
Proof.
  induction s as [|c s IH]; intros taken H a b E Ha Hp.
  - destruct a; [congruence | discriminate].
  - destruct a as [|c' a]; [congruence|].
    simpl in E. injection E as <- ->. simpl in Hp.
    apply andb_true_iff in Hp as [Hc Hp]. simpl in H. rewrite Hc in H.
    destruct (plus_greedy p k (taken ++ [c]) (a ++ b)) eqn:G; [discriminate|].
    destruct a as [|c2 a].
    + exact H.
    + replace (taken ++ c :: c2 :: a) with ((taken ++ [c]) ++ c2 :: a)
        by now rewrite <- app_assoc.
      eapply IH; [exact G | reflexivity | discriminate | assumption].
Qed.

Lemma plus_greedy_some (s : str) : forall taken r,
  plus_greedy p k taken s = Some r ->
  exists a b,
    s = a ++ b /\ a <> [] /\ forallb p a = true /\ k (taken ++ a) b = Some r
    /\ forall a' b', s = a' ++ b' -> List.length a < List.length a' ->
                     forallb p a' = true -> k (taken ++ a') b' = None.
Proof.
  induction s as [|c s IH]; intros taken r H; [discriminate|].
  simpl in H. destruct (p c) eqn:Hc; [|discriminate].
  destruct (plus_greedy p k (taken ++ [c]) s) eqn:G.
  - injection H as ->.
    destruct (IH _ _ G) as (a & b & -> & Ha & Hp & Hk & Hmax).
    exists (c :: a), b. repeat split.
    + discriminate.
    + simpl. now rewrite Hc.
    + now rewrite <- app_assoc in Hk.
    + intros a' b' E Hlen Hp'. destruct a' as [|c' a']; [simpl in Hlen; lia|].
      simpl in E. injection E as <- E. simpl in Hp'.
      apply andb_true_iff in Hp' as [_ Hp'].
      specialize (Hmax a' b' E ltac:(simpl in Hlen; lia) Hp').
      now rewrite <- app_assoc in Hmax.
  - exists [c], s. repeat split; auto.
    + discriminate.
    + simpl. now rewrite Hc.
    + intros a' b' E Hlen Hp'.
      destruct a' as [|c' [|c2 a']]; simpl in Hlen; try lia.
      simpl in E. injection E as <- E. simpl in Hp'.
      apply andb_true_iff in Hp' as [_ Hp'].
      replace (taken ++ c :: c2 :: a') with ((taken ++ [c]) ++ c2 :: a')
        by now rewrite <- app_assoc.
      eapply plus_greedy_none; [exact G | exact E | discriminate | exact Hp'].
Qed.

Lemma plus_greedy_finds (s : str) (taken a b : str) :
  s = a ++ b -> a <> [] -> forallb p a = true ->
  k (taken ++ a) b <> None ->
  plus_greedy p k taken s <> None.
Proof.
  intros E Ha Hp Hk G. apply Hk. eapply plus_greedy_none; eassumption.
Qed.

End Greedy.

Lemma re_run_chars (l : str) (r : regex) (s : str) (g : list str) :
  forall c b, re_run (map Chr (c :: l) ++ r) b ((c :: l) ++ s) g
              = re_run r false s g.
Proof.
  induction l as [|c' l IH]; intros c b; simpl; rewrite N.eqb_refl.
  - reflexivity.
  - apply (IH c' false).
Qed.

Lemma re_run_chars_inv (l : str) (r : regex) (g : list str) (x : list str) :
  forall c b s,
    re_run (map Chr (c :: l) ++ r) b s g = Some x ->
    exists s', s = (c :: l) ++ s' /\ re_run r false s' g = Some x.
Proof.
  induction l as [|c' l IH]; intros c b [|y s] H; simpl in H; try discriminate.
  - destruct (N.eqb y c) eqn:E; [|discriminate]. apply N.eqb_eq in E as ->.
    now exists s.
  - destruct (N.eqb y c) eqn:E; [|discriminate]. apply N.eqb_eq in E as ->.
    destruct (IH c' false s H) as (s' & -> & H').
    now exists s'.
Qed.

(** ** The pairing pattern *)

Section Pairing.

Variable alnum : N -> bool.

Let wh := word_hyphen alnum.

(** What is left of the pattern after the first group, and after the
    second. *)
Let after_tumour (taken rest : str) : option (list str) :=
  re_run (lit "_vs_" ++ [Plus true wh; Eol]) false rest [taken].

Let after_normal (t taken rest : str) : option (list str) :=
  re_run [Eol] false rest [t; taken].

Lemma line_break_is_no_name_character : wh LF = false.
Proof. reflexivity. Qed.

Lemma at_end_tail (tail : str) :
  at_end tail = true <-> tail = [] \/ tail = [LF].
Proof.
  destruct tail as [|c [|c' tail]]; simpl.
  - tauto.
  - rewrite N.eqb_eq. split.
    + intros ->. now right.
    + intros [|[=]]; [discriminate | assumption].
  - split; [discriminate | intros [|]; discriminate].
Qed.

Lemma pair_match_prefix (s : str) :
  re_match (PAIR_PATTERN alnum) (py "WGS_" ++ s)
  = plus_greedy wh after_tumour [] s.
Proof.
  unfold re_match, PAIR_PATTERN. cbn [app re_run].
  change (lit "WGS_") with (map Chr (87 :: [71; 83; 95])%N).
  change (py "WGS_") with (87 :: [71; 83; 95])%N.
  rewrite re_run_chars. reflexivity.
Qed.

Lemma pair_match_prefix_inv (name : str) (gs : list str) :
  re_match (PAIR_PATTERN alnum) name = Some gs ->
  exists s, name = py "WGS_" ++ s
            /\ plus_greedy wh after_tumour [] s = Some gs.
Proof.
  unfold re_match, PAIR_PATTERN. cbn [app re_run].
  change (lit "WGS_") with (map Chr (87 :: [71; 83; 95])%N).
  intros H. apply re_run_chars_inv in H as (s & -> & H).
  exists s. split; [reflexivity | exact H].
Qed.

Lemma after_tumour_infix (t s : str) :
  after_tumour t (py "_vs_" ++ s) = plus_greedy wh (after_normal t) [] s.
Proof.
  unfold after_tumour.
  change (lit "_vs_") with (map Chr (95 :: [118; 115; 95])%N).
  change (py "_vs_") with (95 :: [118; 115; 95])%N.
  rewrite re_run_chars. reflexivity.
Qed.

Lemma after_tumour_infix_inv (t rest : str) (gs : list str) :
  after_tumour t rest = Some gs ->
  exists s, rest = py "_vs_" ++ s
            /\ plus_greedy wh (after_normal t) [] s = Some gs.
Proof.
  unfold after_tumour.
  change (lit "_vs_") with (map Chr (95 :: [118; 115; 95])%N).
  intros H. apply re_run_chars_inv in H as (s & -> & H).
  exists s. split; [reflexivity | exact H].
Qed.

Lemma after_normal_end (t n tail : str) :
  after_normal t n tail = if at_end tail then Some [t; n] else None.
Proof. reflexivity. Qed.

(** What a match says about the name, and that the first group is the
    longest tumour part any reading of the name allows. *)
Lemma pair_match_sound (name : str) (gs : list str) :
  re_match (PAIR_PATTERN alnum) name = Some gs ->
  exists t n tail,
    gs = [t; n] /\ name = pairing_name t n ++ tail
    /\ name_part alnum t /\ name_part alnum n
    /\ (tail = [] \/ tail = [LF])
    /\ forall t' n' tail',
         name = pairing_name t' n' ++ tail' ->
         name_part alnum t' -> name_part alnum n' ->
         (tail' = [] \/ tail' = [LF]) ->
         List.length t' <= List.length t.
Proof.
  intros H. apply pair_match_prefix_inv in H as (s1 & -> & H).
  apply plus_greedy_some in H as (t & b & -> & Ht & Hpt & Hk & Hmax).
  cbn [app] in Hk. apply after_tumour_infix_inv in Hk as (s2 & -> & Hk).
  apply plus_greedy_some in Hk as (n & tail & -> & Hn & Hpn & Hk2 & _).
  cbn [app] in Hk2. rewrite after_normal_end in Hk2.
  destruct (at_end tail) eqn:Hend; [|discriminate]. injection Hk2 as <-.
  exists t, n, tail. repeat split; auto.
  - unfold pairing_name. now rewrite <- !app_assoc.
  - now apply at_end_tail.
  - intros t' n' tail' E [Ht' Hpt'] [Hn' Hpn'] Htail'.
    destruct (Nat.le_gt_cases (List.length t') (List.length t)) as [|Hlt];
      [assumption | exfalso].
    unfold pairing_name in E. rewrite <- !app_assoc in E.
    apply app_inv_head in E.
    specialize (Hmax t' _ E Hlt Hpt'). cbn [app] in Hmax.
    rewrite after_tumour_infix in Hmax. revert Hmax.
    apply plus_greedy_finds with (a := n') (b := tail'); auto.
    cbn [app]. rewrite after_normal_end.
    apply at_end_tail in Htail'. now rewrite Htail'.
Qed.

Lemma pair_match_complete (name : str) :
  pairing_member alnum name ->
  re_match (PAIR_PATTERN alnum) name <> None.
Proof.
  intros (t & n & tail & -> & [Ht Hpt] & [Hn Hpn] & Htail).
  unfold pairing_name. rewrite <- !app_assoc, pair_match_prefix.
  apply plus_greedy_finds with (a := t) (b := py "_vs_" ++ n ++ tail); auto.
  cbn [app]. rewrite after_tumour_infix.
  apply plus_greedy_finds with (a := n) (b := tail); auto.
  cbn [app]. rewrite after_normal_end.
  apply at_end_tail in Htail. now rewrite Htail.
Qed.

Lemma pair_match_none (name : str) :
  ~ pairing_member alnum name ->
  re_match (PAIR_PATTERN alnum) name = None.
Proof.
  intros H. destruct (re_match (PAIR_PATTERN alnum) name) eqn:E; [|reflexivity].
  exfalso. apply H.
  apply pair_match_sound in E as (t & n & tail & _ & -> & Ht & Hn & Htail & _).
  now exists t, n, tail.
Qed.

End Pairing.

Section Readings.

Variable alnum : N -> bool.

Lemma name_part_last (n : str) :
  name_part alnum n ->
  exists n0 c, n = n0 ++ [c] /\ word_hyphen alnum c = true.
Proof.
  intros [Hn Hp]. destruct (exists_last Hn) as (n0 & c & ->).
  exists n0, c. split; [reflexivity|].
  rewrite forallb_app in Hp. apply andb_true_iff in Hp as [_ Hp].
  simpl in Hp. now rewrite andb_true_r in Hp.
Qed.

Lemma pairing_name_last (t n : str) :
  name_part alnum n ->
  exists body c, pairing_name t n = body ++ [c] /\ c <> LF.
Proof.
  intros Hn. destruct (name_part_last Hn) as (n0 & c & -> & Hc).
  exists (py "WGS_" ++ t ++ py "_vs_" ++ n0), c. split.
  - unfold pairing_name. now rewrite <- !app_assoc.
  - intros ->. now rewrite line_break_is_no_name_character in Hc.
Qed.

(** A name has one reading up to its optional final line break. *)
Lemma same_tail (t n tail t' n' tail' : str) :
  pairing_name t n ++ tail = pairing_name t' n' ++ tail' ->
  name_part alnum n -> name_part alnum n' ->
  (tail = [] \/ tail = [LF]) -> (tail' = [] \/ tail' = [LF]) ->
  pairing_name t n = pairing_name t' n' /\ tail = tail'.
Proof.
  intros E Hn Hn' [->| ->] [->| ->].
  - rewrite !app_nil_r in E. now split.
  - exfalso. rewrite app_nil_r in E.
    destruct (pairing_name_last t Hn) as (body & c & Eb & Hc).
    rewrite Eb in E. apply app_inj_tail in E as [_ E]. contradiction.
  - exfalso. rewrite app_nil_r in E.
    destruct (pairing_name_last t' Hn') as (body & c & Eb & Hc).
    rewrite Eb in E. apply app_inj_tail in E as [_ E]. now symmetry in E.
  - apply app_inj_tail in E as [E _]. now split.
Qed.

End Readings.

(** When the normal part holds no underscore the name splits in one way. *)
Lemma split_unique (t : str) : forall t' n n',
  t ++ py "_vs_" ++ n = t' ++ py "_vs_" ++ n' ->
  List.length t <= List.length t' -> ~ In UNDERSCORE n ->
  t = t' /\ n = n'.
Proof.
  change (py "_vs_") with [95; 118; 115; 95]%N. unfold UNDERSCORE.
  induction t as [|c t IH]; intros t' n n' E Hlen Hn.
  - destruct t' as [|c1 [|c2 [|c3 [|c4 t']]]]; simpl in E.
    + injection E as <-. now split.
    + exfalso. congruence.
    + exfalso. congruence.
    + injection E as <- <- <- E. exfalso. apply Hn. subst n. simpl; tauto.
    + injection E as <- <- <- <- E. exfalso. apply Hn. subst n.
      apply in_or_app. right. simpl; tauto.
  - destruct t' as [|c' t']; [simpl in Hlen; lia|].
    simpl in E. injection E as <- E.
    destruct (IH t' n n' E ltac:(simpl in Hlen; lia) Hn) as [-> ->].
    now split.
Qed.

(** ** The Archive Identity Parser *)

Section Parser.

Variable w : World.

Let pattern := PAIR_PATTERN (unicode_alnum w).

Lemma first_pair_none (members : list str) :
  (forall m, In m members -> re_match pattern m = None) ->
  first_pair w members = None.
Proof.
  induction members as [|m members IH]; intros H; simpl; [reflexivity|].
  fold pattern. rewrite (H m (or_introl eq_refl)).
  apply IH. intros m' Hm'. apply H. now right.
Qed.

Lemma first_pair_at (pre : list str) (name : str) (post : list str)
    (gs : list str) :
  (forall m, In m pre -> re_match pattern m = None) ->
  re_match pattern name = Some gs ->
  first_pair w (pre ++ name :: post) = Some (nth 0 gs [], nth 1 gs []).
Proof.
  induction pre as [|m pre IH]; intros H Hm; simpl; fold pattern.
  - now rewrite Hm.
  - rewrite (H m (or_introl eq_refl)). apply IH; [|assumption].
    intros m' Hm'. apply H. now right.
Qed.

Lemma single_archive (a_tar : str) :
  get_all_t_n_pairs w [a_tar]
  = match archive_pair w a_tar with
    | Ok key => Ok [(key, a_tar)]
    | Err e => Err e
    end.
Proof.
  unfold get_all_t_n_pairs. simpl. now destruct (archive_pair w a_tar).
Qed.

Lemma archive_without_member (a_tar : str) (members : list str) :
  tar_members w a_tar = Ok members ->
  (forall m, In m members -> ~ pairing_member (unicode_alnum w) m) ->
  get_all_t_n_pairs w [a_tar] = Err (InvalidArchiveError a_tar).
Proof.
  intros Hm H. rewrite single_archive. unfold archive_pair. rewrite Hm. simpl.
  rewrite first_pair_none; [reflexivity|].
  intros m Hin. apply pair_match_none. now apply H.
Qed.

Lemma archive_with_member (a_tar : str) (pre : list str) (name : str)
    (post : list str) (gs : list str) (t n : str) :
  tar_members w a_tar = Ok (pre ++ name :: post) ->
  (forall m, In m pre -> ~ pairing_member (unicode_alnum w) m) ->
  re_match pattern name = Some [t; n] -> t <> [] ->
  get_all_t_n_pairs w [a_tar] = Ok [((t, n), a_tar)].
Proof.
  intros Hm Hpre Hname Ht. rewrite single_archive. unfold archive_pair.
  rewrite Hm. simpl.
  rewrite (@first_pair_at pre name post [t; n]); [|
    intros m Hin; apply pair_match_none; now apply Hpre | assumption].
  simpl. destruct t; [congruence | reflexivity].
Qed.

End Parser.

(** C5, as amended.  For every archive, let [name] be the first member, in
    the archive's member order, that reads [WGS_<t>_vs_<n>] with [t] and [n]
    one or more word or hyphen characters, a single final line break being
    allowed after it.  The parser returns one PairKey for the archive, read
    from that member: it spells the same name, its tumour part is the longest
    one the name allows, and it is [(t, n)] itself whenever [n] holds no
    underscore.  An archive without such a member fails with
    [InvalidArchiveError]. *)
Theorem archive_identity (w : World) (a_tar : str) (members : list str) :
  tar_members w a_tar = Ok members ->
  (forall pre name post t n tail,
      members = pre ++ name :: post ->
      (forall m, In m pre -> ~ pairing_member (unicode_alnum w) m) ->
      name = pairing_name t n ++ tail ->
      name_part (unicode_alnum w) t -> name_part (unicode_alnum w) n ->
      (tail = [] \/ tail = [LF]) ->
      exists t' n',
        get_all_t_n_pairs w [a_tar] = Ok [((t', n'), a_tar)]
        /\ pairing_name t' n' = pairing_name t n
        /\ List.length t <= List.length t'
        /\ (~ In UNDERSCORE n -> t' = t /\ n' = n))
  /\ ((forall m, In m members -> ~ pairing_member (unicode_alnum w) m) ->
      get_all_t_n_pairs w [a_tar] = Err (InvalidArchiveError a_tar)).
Proof.
  intros Hm. split.
  - intros pre name post t n tail -> Hpre Ename Ht Hn Htail.
    assert (Hmember : pairing_member (unicode_alnum w) name)
      by (now exists t, n, tail).
    destruct (re_match (PAIR_PATTERN (unicode_alnum w)) name) as [gs|] eqn:E;
      [|now apply pair_match_complete in Hmember].
    destruct (pair_match_sound _ _ E)
      as (t' & n' & tail' & -> & Ename' & Ht' & Hn' & Htail' & Hmax).
    assert (Hlen : List.length t <= List.length t')
      by (apply (Hmax t n tail); assumption).
    destruct (@same_tail (unicode_alnum w) t' n' tail' t n tail) as [Esame _];
      try assumption; [congruence|].
    exists t', n'. repeat split; try assumption.
    + apply archive_with_member with (pre := pre) (name := name) (post := post);
        try assumption. apply Ht'.
    + unfold pairing_name in Esame. apply app_inv_head in Esame.
      symmetry in Esame. now destruct (split_unique _ _ _ _ Esame Hlen H).
    + unfold pairing_name in Esame. apply app_inv_head in Esame.
      symmetry in Esame. now destruct (split_unique _ _ _ _ Esame Hlen H).
  - now apply archive_without_member.
Qed.

Lemma archive_identity_witness :
  tar_members lab (py "pair.tar.gz")
  = Ok [py "WGS_T1_vs_N1"; py "WGS_T1_vs_N1/caveman"]
  /\ exists t' n',
       get_all_t_n_pairs lab [py "pair.tar.gz"]
       = Ok [((t', n'), py "pair.tar.gz")]
       /\ pairing_name t' n' = pairing_name (py "T1") (py "N1")
       /\ 2 <= List.length t'
       /\ (~ In UNDERSCORE (py "N1") -> t' = py "T1" /\ n' = py "N1").
Proof.
  split; [reflexivity|].
  destruct (@archive_identity lab (py "pair.tar.gz") _ eq_refl) as [H _].
  apply (H [] (py "WGS_T1_vs_N1") [py "WGS_T1_vs_N1/caveman"]
           (py "T1") (py "N1") []).
  - reflexivity.
  - intros m [].
  - reflexivity.
  - split; [discriminate | reflexivity].
  - split; [discriminate | reflexivity].
  - now left.
Defined.

(** C5 as stated fails in two ways.  A member whose name ends in a line
    break is not of the form, yet the parser accepts it, where the claim
    promises [InvalidArchiveError]; and a name that can be read in two ways
    yields the reading with the longest tumour part, not every [(T, N)] the
    name can be read as. *)
Lemma archive_identity_counterexample :
  (tar_members lab (py "newline.tar.gz") = Ok [py "WGS_T1_vs_N1" ++ [LF]]
   /\ ~ exactly_pairing (unicode_alnum lab) (py "WGS_T1_vs_N1" ++ [LF])
   /\ get_all_t_n_pairs lab [py "newline.tar.gz"]
      = Ok [((py "T1", py "N1"), py "newline.tar.gz")])
  /\ (tar_members lab (py "twice.tar.gz")
      = Ok [pairing_name (py "A") (py "B_vs_C")]
      /\ name_part (unicode_alnum lab) (py "A")
      /\ name_part (unicode_alnum lab) (py "B_vs_C")
      /\ get_all_t_n_pairs lab [py "twice.tar.gz"]
         = Ok [((py "A_vs_B", py "C"), py "twice.tar.gz")]
      /\ (py "A_vs_B", py "C") <> (py "A", py "B_vs_C")).
Proof.
  split; [split; [reflexivity | split]|].
  - intros (t & n & E & _ & Hn).
    destruct (pairing_name_last t Hn) as (body & c & Eb & Hc).
    rewrite Eb in E. apply app_inj_tail in E as [_ E]. congruence.
  - reflexivity.
  - repeat split; try reflexivity; discriminate.
Qed.

Lemma junk_member_is_matched (alnum : N -> bool) :
  re_match (PAIR_PATTERN alnum) JUNK_MEMBER
  = Some [py "T1"; py "N1_extra_junk"].
Proof. reflexivity. Qed.

Lemma first_pair_junk (w : World) (members : list str) :
  In JUNK_MEMBER members ->
  (forall m, In m members -> m <> JUNK_MEMBER ->
             ~ pairing_member (unicode_alnum w) m) ->
  first_pair w members = Some (py "T1", py "N1_extra_junk").
Proof.
  induction members as [|m members IH]; intros Hin Hothers; [destruct Hin|].
  cbn [first_pair]. destruct (str_eqb m JUNK_MEMBER) eqn:E.
  - apply str_eqb_eq in E as ->. now rewrite junk_member_is_matched.
  - apply str_eqb_neq in E.
    rewrite pair_match_none by (apply Hothers; [now left | assumption]).
    apply IH.
    + destruct Hin as [|]; [congruence | assumption].
    + intros m' Hm'. apply Hothers. now right.
Qed.

(** C3, as amended.  For every archive whose members include the name
    [WGS_T1_vs_N1_extra_junk] and no other name of the pairing convention,
    the parser takes that name for a match of the pattern, the underscore
    being a word character: it returns the PairKey [(T1, N1_extra_junk)] for
    the archive and does not fail with [InvalidArchiveError]. *)
Theorem junk_member_names_a_pair (w : World) (a_tar : str)
    (members : list str) :
  tar_members w a_tar = Ok members ->
  In JUNK_MEMBER members ->
  (forall m, In m members -> m <> JUNK_MEMBER ->
             ~ pairing_member (unicode_alnum w) m) ->
  get_all_t_n_pairs w [a_tar]
  = Ok [((py "T1", py "N1_extra_junk"), a_tar)].
Proof.
  intros Hm Hin Hothers. rewrite single_archive. unfold archive_pair.
  rewrite Hm. cbn [rbind]. now rewrite first_pair_junk by assumption.
Qed.

Lemma junk_member_names_a_pair_witness :
  get_all_t_n_pairs lab [py "junk.tar.gz"]
  = Ok [((py "T1", py "N1_extra_junk"), py "junk.tar.gz")].
Proof.
  apply (@junk_member_names_a_pair lab (py "junk.tar.gz") [JUNK_MEMBER]).
  - reflexivity.
  - now left.
  - intros m [<-|[]] H. now elim H.
Defined.

(** C3 as stated: the archive whose only member is
    [WGS_T1_vs_N1_extra_junk] is not rejected. *)
Lemma junk_member_counterexample :
  tar_members lab (py "junk.tar.gz") = Ok [JUNK_MEMBER]
  /\ get_all_t_n_pairs lab [py "junk.tar.gz"]
     <> Err (InvalidArchiveError (py "junk.tar.gz"))
  /\ is_ok (get_all_t_n_pairs lab [py "junk.tar.gz"]) = true.
Proof. split; [reflexivity | split; [discriminate | reflexivity]]. Qed.

(** ** The locators *)

(** What the archive-name pattern accepts at the start of a bare name. *)
Lemma tar_pattern_shape (name : str) (gs : list str) :
  re_match TAR_PATTERN name = Some gs ->
  exists c tail, name = py ".tar" ++ [c] ++ py "gz" ++ tail
                 /\ (tail = [] \/ tail = [LF]).
Proof.
  unfold re_match, TAR_PATTERN.
  change (lit ".tar") with (map Chr (46 :: [116; 97; 114])%N).
  intros H. apply re_run_chars_inv in H as (s1 & -> & H).
  destruct s1 as [|c s2]; [discriminate|]. cbn [app re_run] in H.
  destruct (dot c); [|discriminate].
  change (lit "gz") with (map Chr (103 :: [122])%N) in H.
  apply re_run_chars_inv in H as (tail & -> & H).
  cbn [re_run] in H. destruct (at_end tail) eqn:E; [|discriminate].
  exists c, tail. split; [reflexivity|].
  destruct tail as [|x [|y tail]]; simpl in E; try discriminate.
  - now left.
  - right. apply N.eqb_eq in E. now subst.
Qed.

Lemma conventional_name_is_filtered (name : str) :
  conventional_tar_name name -> is_match TAR_PATTERN name = false.
Proof.
  intros (stem & Hstem & ->). unfold is_match.
  destruct (re_match TAR_PATTERN (stem ++ py ".tar.gz")) as [gs|] eqn:E;
    [exfalso | reflexivity].
  apply tar_pattern_shape in E as (c & tail & E & [->| ->]).
  - apply (f_equal (@List.length N)) in E. rewrite !length_app in E.
    simpl in E. destruct stem; [congruence | simpl in E; lia].
  - change (stem ++ py ".tar.gz") with (stem ++ py ".tar.g" ++ [122%N]) in E.
    change (py ".tar" ++ [c] ++ py "gz" ++ [LF])
      with (py ".tar" ++ [c] ++ py "gz" ++ [] ++ [LF]) in E.
    rewrite !app_assoc in E. apply app_inj_tail in E as [_ E]. discriminate.
Qed.

Section Locators.

Variable w : World.

Lemma tar_entries_drop (before : list str) (name : str) (after : list str) :
  is_match TAR_PATTERN name = false ->
  forall to_return,
    tar_entries w (before ++ name :: after) to_return
    = tar_entries w (before ++ after) to_return.
Proof.
  intros Hname. induction before as [|e before IH]; intros to_return; simpl.
  - now rewrite Hname, andb_false_r.
  - destruct (negb (isdir w e) && is_match TAR_PATTERN e); apply IH.
Qed.

Lemma tar_entries_all_filtered (entries : list str) :
  (forall e, In e entries -> is_match TAR_PATTERN e = false) ->
  forall to_return, tar_entries w entries to_return = to_return.
Proof.
  induction entries as [|e entries IH]; intros H to_return; simpl;
    [reflexivity|].
  rewrite (H e (or_introl eq_refl)), andb_false_r.
  apply IH. intros e' He'. apply H. now right.
Qed.

Lemma bas_entries_all_filtered (entries : list str) :
  (forall e, In e entries -> is_match BAS_PATTERN e = false) ->
  forall to_return, bas_entries w entries to_return = Ok to_return.
Proof.
  induction entries as [|e entries IH]; intros H to_return; simpl;
    [reflexivity|].
  rewrite (H e (or_introl eq_refl)), andb_false_r.
  apply IH. intros e' He'. apply H. now right.
Qed.

End Locators.

(** C9.  In a directory given as a variant-call-archive input, an entry
    named [<stem>.tar.gz] with a stem that is not empty fails the name
    filter, which looks for its pattern at the start of the bare name; the
    scan of the directory is the same with or without it; and a directory
    all of whose entries are so named contributes no archive and raises no
    error. *)
Theorem conventional_archives_are_never_listed (w : World) :
  (forall name, conventional_tar_name name ->
                is_match TAR_PATTERN name = false)
  /\ (forall before name after to_return,
        conventional_tar_name name ->
        tar_entries w (before ++ name :: after) to_return
        = tar_entries w (before ++ after) to_return)
  /\ (forall directory entries,
        check_file_exists w directory = Ok tt ->
        isdir w directory = true ->
        listdir w directory = Ok entries ->
        (forall e, In e entries -> conventional_tar_name e) ->
        get_all_variant_call_tar w [directory] = Ok []).
Proof.
  split; [|split].
  - apply conventional_name_is_filtered.
  - intros before name after to_return H.
    apply tar_entries_drop. now apply conventional_name_is_filtered.
  - intros directory entries Hexists Hdir Hlist Hall.
    unfold get_all_variant_call_tar. simpl.
    rewrite Hexists, Hdir, Hlist. simpl.
    rewrite tar_entries_all_filtered; [reflexivity|].
    intros e He. apply conventional_name_is_filtered. now apply Hall.
Qed.

Lemma conventional_archives_are_never_listed_witness :
  is_match TAR_PATTERN (py "sample.tar.gz") = false
  /\ get_all_variant_call_tar lab [py "/data/calls"] = Ok [].
Proof.
  destruct (conventional_archives_are_never_listed lab) as (H1 & _ & H3).
  split.
  - apply H1. exists (py "sample"). split; [discriminate | reflexivity].
  - apply (H3 (py "/data/calls") [py "sample.tar.gz"]);
      [reflexivity | reflexivity | reflexivity |].
    intros e [<-|[]]. exists (py "sample"). split; [discriminate | reflexivity].
Defined.

(** C8, where the code departs from it.  A directory whose only entry is a
    subdirectory with a name of the statistics pattern, scanned from a
    working directory in which that bare name is not a directory: the entry
    is not skipped.  It is handed to [validate_bas], and the scan ends in
    that call's error or returns the entry as a statistics file; it never
    returns the empty list. *)
Theorem subdirectory_is_not_skipped (w : World) (directory entry : str) :
  check_file_exists w directory = Ok tt ->
  isdir w directory = true ->
  listdir w directory = Ok [entry] ->
  isdir w (os_path_join directory entry) = true ->
  isdir w entry = false ->
  is_match BAS_PATTERN entry = true ->
  get_all_bas w [directory]
  = match validate_bas w entry with
    | Ok _ => Ok [get_abs_path w entry]
    | Err e => Err e
    end
  /\ get_all_bas w [directory] <> Ok [].
Proof.
  intros Hexists Hdir Hlist _ Hbare Hname.
  assert (E : get_all_bas w [directory]
              = match validate_bas w entry with
                | Ok _ => Ok [get_abs_path w entry]
                | Err e => Err e
                end).
  { unfold get_all_bas. simpl. rewrite Hexists, Hdir, Hlist. simpl.
    rewrite Hbare, Hname. simpl. now destruct (validate_bas w entry). }
  split; [exact E|]. rewrite E. destruct (validate_bas w entry); discriminate.
Qed.

Lemma subdirectory_is_not_skipped_witness :
  listdir lab (py "/data/bas") = Ok [py "sub.bam.bas"]
  /\ isdir lab (py "/data/bas/sub.bam.bas") = true
  /\ get_all_bas lab [py "/data/bas"] = Ok [py "/work/sub.bam.bas"].
Proof.
  split; [reflexivity | split; [reflexivity|]].
  apply (@subdirectory_is_not_skipped lab (py "/data/bas") (py "sub.bam.bas"));
    reflexivity.
Defined.

(** ** Sets of names and their sorted listing *)

Lemma str_ltb_irrefl (a : str) : str_ltb a a = false.
Proof.
  induction a as [|x a IH]; simpl; [reflexivity|].
  now rewrite N.ltb_irrefl.
Qed.

Lemma str_ltb_trans (a : str) : forall b c,
  str_ltb a b = true -> str_ltb b c = true -> str_ltb a c = true.
Proof.
  induction a as [|x a IH]; intros [|y b] [|z c] Hab Hbc; simpl in *;
    try discriminate; try reflexivity.
  destruct (N.ltb_spec x y), (N.ltb_spec y x), (N.ltb_spec y z),
    (N.ltb_spec z y), (N.ltb_spec x z), (N.ltb_spec z x);
    try discriminate; try reflexivity; try lia.
  eapply IH; eassumption.
Qed.

Lemma str_ltb_total (a : str) : forall b,
  str_ltb a b = false -> str_ltb b a = false -> a = b.
Proof.
  induction a as [|x a IH]; intros [|y b] Hab Hba; simpl in *;
    try discriminate; try reflexivity.
  destruct (N.ltb_spec x y), (N.ltb_spec y x); try discriminate; try lia.
  assert (x = y) by lia. subst. f_equal. now apply IH.
Qed.

Lemma insert_sorted_In (x y : str) (l : list str) :
  In y (insert_sorted x l) <-> y = x \/ In y l.
Proof.
  induction l as [|z l IH]; simpl.
  - intuition.
  - destruct (str_ltb z x); simpl; rewrite ?IH; intuition.
Qed.

Lemma sorted_In (x : str) (l : list str) : In x (sorted l) <-> In x l.
Proof.
  unfold sorted. induction l as [|y l IH]; simpl; [tauto|].
  rewrite insert_sorted_In, IH. intuition.
Qed.

Lemma insert_sorted_strict (x : str) (l : list str) :
  StronglySorted str_lt l -> ~ In x l ->
  StronglySorted str_lt (insert_sorted x l).
Proof.
  induction 1 as [|y l Hsorted IH Hall]; intros Hx; simpl.
  - constructor; constructor.
  - destruct (str_ltb y x) eqn:Hyx.
    + constructor.
      * apply IH. intros Hin. apply Hx. now right.
      * apply Forall_forall. intros z Hz. apply insert_sorted_In in Hz as [->|Hz].
        -- exact Hyx.
        -- rewrite Forall_forall in Hall. now apply Hall.
    + assert (Hxy : str_lt x y).
      { unfold str_lt. destruct (str_ltb x y) eqn:Hxy; [reflexivity|].
        exfalso. apply Hx. left. symmetry. now apply str_ltb_total. }
      constructor; [now constructor|].
      constructor; [assumption|].
      apply Forall_forall. intros z Hz. rewrite Forall_forall in Hall.
      eapply str_ltb_trans; [exact Hxy | now apply Hall].
Qed.

Lemma sorted_strict (l : list str) :
  NoDup l -> StronglySorted str_lt (sorted l).
Proof.
  unfold sorted. induction 1 as [|x l Hx Hnodup IH]; simpl.
  - constructor.
  - apply insert_sorted_strict; [assumption|].
    fold (sorted l). now rewrite sorted_In.
Qed.

Lemma py_set_In (x : str) (l : list str) : In x (py_set l) <-> In x l.
Proof.
  induction l as [|y l IH]; simpl; [tauto|].
  rewrite filter_In, IH, negb_true_iff, str_eqb_neq.
  destruct (str_eqb y x) eqn:E.
  - apply str_eqb_eq in E. intuition.
  - apply str_eqb_neq in E. intuition.
Qed.

Lemma py_set_NoDup (l : list str) : NoDup (py_set l).
Proof.
  induction l as [|y l IH]; simpl; constructor.
  - rewrite filter_In, negb_true_iff, str_eqb_neq. intuition.
  - now apply NoDup_filter.
Qed.

Lemma set_difference_In (x : str) (a b : list str) :
  In x (set_difference a b) <-> In x a /\ ~ In x b.
Proof.
  unfold set_difference. now rewrite filter_In, negb_true_iff, mem_false.
Qed.

(** [sorted(set(expected) - set(present))]: the names expected and not
    present, each once, in strictly ascending order. *)
Lemma not_found_spec (expected present : list str) :
  StronglySorted str_lt (not_found expected present)
  /\ forall x, In x (not_found expected present)
               <-> In x expected /\ ~ In x present.
Proof.
  unfold not_found. split.
  - apply sorted_strict. apply NoDup_filter, py_set_NoDup.
  - intros x. now rewrite sorted_In, set_difference_In, !py_set_In.
Qed.

Lemma not_found_empty (expected present : list str) :
  not_found expected present = []
  <-> forall x, In x expected -> In x present.
Proof.
  destruct (not_found_spec expected present) as [_ H]. split.
  - intros E x Hx. destruct (mem x present) eqn:M; [now apply mem_In|].
    apply mem_false in M. rewrite E in H.
    destruct (proj2 (H x) (conj Hx M)).
  - intros Hall. destruct (not_found expected present) as [|y l]; [reflexivity|].
    destruct (proj1 (H y) (or_introl eq_refl)) as [Hy Hn].
    elim Hn. now apply Hall.
Qed.

(** ** Relations between the states before and after *)

Section Respects.

Variable R : state -> state -> Prop.
Hypothesis R_refl : forall st, R st st.
Hypothesis R_trans : forall a b c, R a b -> R b c -> R a c.

Lemma respects_ret {A} (a : A) : respects R (ret a).
Proof. intros st r st' [= _ <-]. apply R_refl. Qed.

Lemma respects_raise {A} (e : exn) : respects R (@raise A e).
Proof. intros st r st' [= _ <-]. apply R_refl. Qed.

Lemma respects_lift {A} (x : result A) : respects R (lift x).
Proof. intros st r st' [= _ <-]. apply R_refl. Qed.

Lemma respects_bind {A B} (m : M A) (f : A -> M B) :
  respects R m -> (forall a, respects R (f a)) -> respects R (bind m f).
Proof.
  intros Hm Hf st r st' H. unfold bind in H.
  destruct (m st) as [[a|e] st1] eqn:E.
  - eapply R_trans; [eapply Hm, E | eapply Hf, H].
  - injection H as _ <-. eapply Hm, E.
Qed.

Lemma respects_try_except {A} (body : M A) (catches : exn -> bool)
    (handler : exn -> M A) :
  respects R body -> (forall e, respects R (handler e)) ->
  respects R (try_except body catches handler).
Proof.
  intros Hb Hh st r st' H. unfold try_except in H.
  destruct (body st) as [[a|e] st1] eqn:E.
  - injection H as _ <-. eapply Hb, E.
  - destruct (catches e).
    + eapply R_trans; [eapply Hb, E | eapply Hh, H].
    + injection H as _ <-. eapply Hb, E.
Qed.

Lemma respects_try_finally {A} (body : M A) (final : M unit) :
  respects R body -> respects R final -> respects R (try_finally body final).
Proof.
  intros Hb Hf st r st' H. unfold try_finally in H.
  destruct (body st) as [r1 st1] eqn:E.
  destruct (final st1) as [[u|e] st2] eqn:F; injection H as _ <-;
    (eapply R_trans; [eapply Hb, E | eapply Hf, F]).
Qed.

End Respects.

Lemma grows_refl (st : state) : grows_rel st st.
Proof. exists []. now rewrite app_nil_r. Qed.

Lemma grows_trans (a b c : state) :
  grows_rel a b -> grows_rel b c -> grows_rel a c.
Proof.
  intros [e1 H1] [e2 H2]. exists (e1 ++ e2). now rewrite H2, H1, app_assoc.
Qed.

Lemma quiet_refl (st : state) : quiet_rel st st.
Proof. repeat split. exists []. now rewrite app_nil_r. Qed.

Lemma quiet_trans (a b c : state) :
  quiet_rel a b -> quiet_rel b c -> quiet_rel a c.
Proof.
  intros (H1 & R1 & e1 & L1 & S1) (H2 & R2 & e2 & L2 & S2).
  repeat split; try congruence.
  exists (e1 ++ e2). split.
  - now rewrite L2, L1, app_assoc.
  - now rewrite forallb_app, S1, S2.
Qed.

Lemma quiet_grows (st st' : state) : quiet_rel st st' -> grows_rel st st'.
Proof. intros (_ & _ & evs & H & _). now exists evs. Qed.

Lemma grows_tell (e : event) : grows (tell e).
Proof. intros st r st' [= _ <-]. now exists [e]. Qed.

Lemma quiet_tell (e : event) : setup_event e = true -> quiet (tell e).
Proof.
  intros He st r st' [= _ <-]. repeat split. exists [e]. simpl.
  now rewrite He.
Qed.

Lemma quiet_update_files (f : list str -> list str) : quiet (update_files f).
Proof.
  intros st r st' [= _ <-]. repeat split. exists []. simpl.
  now rewrite app_nil_r.
Qed.

Lemma grows_update_report (f : str -> str) : grows (update_report f).
Proof. intros st r st' [= _ <-]. exists []. simpl. now rewrite app_nil_r. Qed.

Lemma grows_extend (more : list str) : grows (extend_OUTPUT_HEADER more).
Proof. intros st r st' [= _ <-]. exists []. simpl. now rewrite app_nil_r. Qed.

Lemma grows_read : grows read_OUTPUT_HEADER.
Proof. intros st r st' [= _ <-]. apply grows_refl. Qed.

Lemma quiet_is_grows {A} (m : M A) : quiet m -> grows m.
Proof. intros H st r st' E. eapply quiet_grows, H, E. Qed.

Lemma quiet_ret {A} (a : A) : quiet (ret a).
Proof. apply respects_ret, quiet_refl. Qed.

Lemma quiet_raise {A} (e : exn) : quiet (@raise A e).
Proof. apply respects_raise, quiet_refl. Qed.

Lemma quiet_lift {A} (x : result A) : quiet (lift x).
Proof. apply respects_lift, quiet_refl. Qed.

Lemma quiet_bind {A B} (m : M A) (f : A -> M B) :
  quiet m -> (forall a, quiet (f a)) -> quiet (bind m f).
Proof. apply respects_bind, quiet_trans. Qed.

Lemma quiet_try_except {A} (body : M A) (catches : exn -> bool)
    (handler : exn -> M A) :
  quiet body -> (forall e, quiet (handler e)) ->
  quiet (try_except body catches handler).
Proof. apply respects_try_except, quiet_trans. Qed.

Lemma quiet_try_finally {A} (body : M A) (final : M unit) :
  quiet body -> quiet final -> quiet (try_finally body final).
Proof. apply respects_try_finally, quiet_trans. Qed.

Lemma grows_ret {A} (a : A) : grows (ret a).
Proof. apply respects_ret, grows_refl. Qed.

Lemma grows_raise {A} (e : exn) : grows (@raise A e).
Proof. apply respects_raise, grows_refl. Qed.

Lemma grows_lift {A} (x : result A) : grows (lift x).
Proof. apply respects_lift, grows_refl. Qed.

Lemma grows_bind {A B} (m : M A) (f : A -> M B) :
  grows m -> (forall a, grows (f a)) -> grows (bind m f).
Proof. apply respects_bind, grows_trans. Qed.

Lemma grows_try_except {A} (body : M A) (catches : exn -> bool)
    (handler : exn -> M A) :
  grows body -> (forall e, grows (handler e)) ->
  grows (try_except body catches handler).
Proof. apply respects_try_except, grows_trans. Qed.

Ltac quiet_step :=
  match goal with
  | |- quiet (bind _ _) => apply quiet_bind; [|intro]
  | |- quiet (ret _) => apply quiet_ret
  | |- quiet (raise _) => apply quiet_raise
  | |- quiet (lift _) => apply quiet_lift
  | |- quiet (tell _) => apply quiet_tell; reflexivity
  | |- quiet (update_files _) => apply quiet_update_files
  | |- quiet (try_except _ _ _) => apply quiet_try_except; [|intro]
  | |- quiet (try_finally _ _) => apply quiet_try_finally
  | |- quiet (if ?b then _ else _) => destruct b
  | |- quiet (match ?x with _ => _ end) => destruct x
  end.

Ltac grows_step :=
  match goal with
  | |- grows (bind _ _) => apply grows_bind; [|intro]
  | |- grows (ret _) => apply grows_ret
  | |- grows (raise _) => apply grows_raise
  | |- grows (lift _) => apply grows_lift
  | |- grows (tell _) => apply grows_tell
  | |- grows (update_report _) => apply grows_update_report
  | |- grows (update_files _) => apply quiet_is_grows, quiet_update_files
  | |- grows (extend_OUTPUT_HEADER _) => apply grows_extend
  | |- grows read_OUTPUT_HEADER => apply grows_read
  | |- grows (try_except _ _ _) => apply grows_try_except; [|intro]
  | |- grows (if ?b then _ else _) => destruct b
  | |- grows (match ?x with _ => _ end) => destruct x
  end.

Section Stages.

Variable w : World.

Lemma quiet_os_path_exists (path : str) : quiet (os_path_exists w path).
Proof. intros st r st' [= _ <-]. apply quiet_refl. Qed.

Lemma quiet_open_and_write (path text : str) :
  quiet (open_and_write w path text).
Proof. unfold open_and_write, create_file. repeat quiet_step. Qed.

Lemma quiet_os_remove (path : str) : quiet (os_remove w path).
Proof.
  unfold os_remove. apply quiet_bind; [apply quiet_tell; reflexivity|].
  intros _ st r st' H. destruct (mem path (files st)).
  - now apply quiet_update_files in H.
  - destruct (isdir w path); injection H as _ <-; apply quiet_refl.
Qed.

Lemma quiet_check_output (output_tar : str) :
  quiet (check_output w output_tar).
Proof.
  unfold check_output.
  apply quiet_bind; [apply quiet_os_path_exists|]. intros present.
  destruct (negb present); [|apply quiet_raise].
  apply quiet_try_finally; [|apply quiet_os_remove].
  apply quiet_try_except; [apply quiet_open_and_write|].
  intros e. apply quiet_raise.
Qed.

Lemma quiet_preflight (args : namespace) : quiet (preflight w args).
Proof.
  unfold preflight.
  repeat first [apply quiet_check_output | quiet_step].
Qed.

Lemma quiet_locate_after (args : namespace) (checked : pyval * str) :
  quiet (locate_after w args checked).
Proof. unfold locate_after. repeat quiet_step. Qed.

Lemma quiet_locate (args : namespace) : quiet (locate w args).
Proof.
  unfold locate. apply quiet_bind; [apply quiet_preflight|].
  intros checked. apply quiet_locate_after.
Qed.

Lemma quiet_reconcile (args : namespace) (l : Located) :
  quiet (reconcile w args l).
Proof. unfold reconcile. repeat quiet_step. Qed.

Lemma quiet_prepare (args : namespace) : quiet (prepare w args).
Proof.
  unfold prepare. apply quiet_bind; [apply quiet_locate|].
  intros l. apply quiet_reconcile.
Qed.

Lemma grows_process_pair (p : Prepared) (item : (str * str) * str)
    (found : list str) :
  grows (process_pair w p item found).
Proof. unfold process_pair, o_write. destruct item. repeat grows_step. Qed.

Lemma grows_process_pairs (p : Prepared) (items : list ((str * str) * str)) :
  forall found, grows (process_pairs w p items found).
Proof.
  induction items as [|item items IH]; intros found; simpl.
  - apply grows_ret.
  - apply grows_bind; [apply grows_process_pair | intros; apply IH].
Qed.

Lemma grows_write_report (p : Prepared) : grows (write_report w p).
Proof.
  unfold write_report, build_header, o_write.
  repeat first [apply grows_process_pairs | grows_step].
Qed.

Lemma grows_package (p : Prepared) (found : list str) :
  grows (package w p found).
Proof. unfold package, create_file. repeat grows_step. Qed.

Lemma grows_extract_from_sanger (args : namespace) :
  grows (extract_from_sanger w args).
Proof.
  unfold extract_from_sanger.
  apply grows_bind; [apply quiet_is_grows, quiet_prepare|]. intros p.
  apply grows_bind; [apply grows_write_report|]. intros found.
  apply grows_package.
Qed.

End Stages.

(** ** The Cohort Reconciler *)

Lemma tell_adds (e : event) (st : state) :
  tell e st = (Ok tt, add_events st [e]).
Proof. reflexivity. Qed.

Section Reconciler.

Variable w : World.

Lemma reconcile_failure (args : namespace) (l : Located) (st : state)
    (e : exn) :
  get_validated_tn_pair_and_bas_lists w (l_tumour_bas l) (l_normal_bas l)
    (l_variant_call_tars l) = Err e ->
  reconcile w args l st = (Err e, add_events st [EvValidate]).
Proof.
  intros H. unfold reconcile, bind, lift. rewrite tell_adds, H. reflexivity.
Qed.

(** A failure of the reconciliation is the failure of the run, and it
    comes before the report is opened or a pair is looked at. *)
Lemma run_fails_in_reconcile (args : namespace) (st st1 : state)
    (l : Located) (e : exn) :
  locate w args st = (Ok l, st1) ->
  get_validated_tn_pair_and_bas_lists w (l_tumour_bas l) (l_normal_bas l)
    (l_variant_call_tars l) = Err e ->
  exists st',
    extract_from_sanger w args st = (Err e, st')
    /\ report st' = report st
    /\ exists evs, log st' = log st ++ evs /\ forallb setup_event evs = true.
Proof.
  intros Hl He. exists (add_events st1 [EvValidate]).
  assert (Q := @quiet_locate w args). unfold quiet, respects in Q.
  destruct (Q _ _ _ Hl) as (_ & Hr & evs & Hlog & Hsetup).
  split; [|split].
  - unfold extract_from_sanger, prepare, bind. rewrite Hl.
    now rewrite (reconcile_failure args l st1 He).
  - exact Hr.
  - exists (evs ++ [EvValidate]). simpl. split.
    + now rewrite Hlog, app_assoc.
    + now rewrite forallb_app, Hsetup.
Qed.

Lemma check_bas_outcome (t_n_pair_tar : dict (str * str) str)
    (t_name_bas n_name_bas : dict str str) :
  check_bas t_n_pair_tar t_name_bas n_name_bas
  = match not_found (map fst (keys t_n_pair_tar)) (keys t_name_bas) with
    | _ :: _ =>
        Err (MissingSampleError Tumour
               (not_found (map fst (keys t_n_pair_tar)) (keys t_name_bas)))
    | [] =>
        match not_found (map snd (keys t_n_pair_tar)) (keys n_name_bas) with
        | _ :: _ =>
            Err (MissingSampleError Normal
                   (not_found (map snd (keys t_n_pair_tar))
                      (keys n_name_bas)))
        | [] => Ok tt
        end
    end.
Proof. reflexivity. Qed.

End Reconciler.

Lemma some_missing (expected present : list str) :
  (exists x, In x expected /\ ~ In x present) ->
  not_found expected present <> [].
Proof.
  intros (x & Hx & Hn) E. rewrite not_found_empty in E. auto.
Qed.

(** C4, as amended.  The Reconciler checks the tumour role and then the
    normal role.  It fails with [MissingSampleError] if and only if the
    difference E - P of at least one role is non-empty; the error names the
    first role whose difference is non-empty, and its list of names is
    [sorted(E - P)] of that role: the names of E that are not in P, each
    once, in strictly ascending order, joined by a comma and a space.  With
    both differences empty the three maps are returned as they are.  When it
    fails the run fails with the same error, the report is not opened and no
    pair is processed. *)
Theorem reconciler_reports_missing_samples (w : World)
    (tumour_bas normal_bas variant_call_tars : list str)
    (t_n_pair_tar : dict (str * str) str) (t_name_bas n_name_bas : dict str str) :
  get_all_t_n_pairs w variant_call_tars = Ok t_n_pair_tar ->
  get_sample_names_bas_file_dict w tumour_bas = Ok t_name_bas ->
  get_sample_names_bas_file_dict w normal_bas = Ok n_name_bas ->
  let expected_t := map fst (keys t_n_pair_tar) in
  let expected_n := map snd (keys t_n_pair_tar) in
  let present_t := keys t_name_bas in
  let present_n := keys n_name_bas in
  let missing_t := not_found expected_t present_t in
  let missing_n := not_found expected_n present_n in
  let outcome :=
    get_validated_tn_pair_and_bas_lists w tumour_bas normal_bas
      variant_call_tars in
  (StronglySorted str_lt missing_t
   /\ forall x, In x missing_t <-> In x expected_t /\ ~ In x present_t)
  /\ (StronglySorted str_lt missing_n
      /\ forall x, In x missing_n <-> In x expected_n /\ ~ In x present_n)
  /\ (is_ok outcome = false
      <-> (exists x, In x expected_t /\ ~ In x present_t)
          \/ (exists x, In x expected_n /\ ~ In x present_n))
  /\ ((exists x, In x expected_t /\ ~ In x present_t) ->
      outcome = Err (MissingSampleError Tumour missing_t))
  /\ ((forall x, In x expected_t -> In x present_t) ->
      (exists x, In x expected_n /\ ~ In x present_n) ->
      outcome = Err (MissingSampleError Normal missing_n))
  /\ ((forall x, In x expected_t -> In x present_t) ->
      (forall x, In x expected_n -> In x present_n) ->
      outcome = Ok (t_n_pair_tar, t_name_bas, n_name_bas))
  /\ (forall args st l st1 e,
        locate w args st = (Ok l, st1) ->
        l_tumour_bas l = tumour_bas -> l_normal_bas l = normal_bas ->
        l_variant_call_tars l = variant_call_tars ->
        outcome = Err e ->
        exists st',
          extract_from_sanger w args st = (Err e, st')
          /\ report st' = report st
          /\ exists evs,
               log st' = log st ++ evs /\ forallb setup_event evs = true).
Proof.
  intros Hpairs Ht Hn expected_t expected_n present_t present_n
    missing_t missing_n outcome.
  assert (Hout : outcome
                 = match missing_t with
                   | _ :: _ => Err (MissingSampleError Tumour missing_t)
                   | [] =>
                       match missing_n with
                       | _ :: _ => Err (MissingSampleError Normal missing_n)
                       | [] => Ok (t_n_pair_tar, t_name_bas, n_name_bas)
                       end
                   end).
  { unfold outcome, get_validated_tn_pair_and_bas_lists.
    rewrite Hpairs, Ht, Hn. cbn [rbind]. rewrite check_bas_outcome.
    fold expected_t expected_n present_t present_n.
    fold missing_t missing_n.
    destruct missing_t; [destruct missing_n|]; reflexivity. }
  assert (Hdec : forall expected present,
             (exists x : str, In x expected /\ ~ In x present)
             \/ (forall x, In x expected -> In x present)).
  { intros expected present.
    destruct (not_found expected present) as [|x l] eqn:E.
    - right. now apply not_found_empty.
    - left. exists x.
      apply (proj2 (not_found_spec expected present) x). rewrite E. now left. }
  split; [apply not_found_spec|]. split; [apply not_found_spec|].
  split; [|split; [|split; [|split]]].
  - rewrite Hout. split.
    + intros Hfail.
      destruct (Hdec expected_t present_t) as [|Hall_t]; [now left|].
      destruct (Hdec expected_n present_n) as [|Hall_n]; [now right|].
      apply not_found_empty in Hall_t, Hall_n.
      fold missing_t in Hall_t. fold missing_n in Hall_n.
      rewrite Hall_t, Hall_n in Hfail. discriminate.
    + intros [H|H]; apply some_missing in H.
      * fold missing_t in H. now destruct missing_t.
      * fold missing_n in H. destruct missing_t; [|reflexivity].
        now destruct missing_n.
  - intros H. apply some_missing in H. fold missing_t in H.
    rewrite Hout. now destruct missing_t.
  - intros Hall H. apply not_found_empty in Hall. fold missing_t in Hall.
    apply some_missing in H. fold missing_n in H.
    rewrite Hout, Hall. now destruct missing_n.
  - intros Hall_t Hall_n. apply not_found_empty in Hall_t, Hall_n.
    fold missing_t in Hall_t. fold missing_n in Hall_n.
    now rewrite Hout, Hall_t, Hall_n.
  - intros args st l st1 e Hl <- <- <- He.
    now apply run_fails_in_reconcile with (l := l) (st1 := st1).
Qed.

Lemma reconciler_reports_missing_samples_witness :
  get_validated_tn_pair_and_bas_lists lab [py "/work/T1.bam.bas"]
    [py "/work/N1.bam.bas"] [py "/work/t2.tar.gz"]
  = Err (MissingSampleError Tumour [py "T2"])
  /\ exists st',
       extract_from_sanger lab
         (call_args [py "T1.bam.bas"] [py "N1.bam.bas"] [py "t2.tar.gz"]
            (py "out.tar.gz") GRCh37 PyNone (PyBool false))
         (module_loaded lab_disk)
       = (Err (MissingSampleError Tumour [py "T2"]), st')
       /\ report st' = []
       /\ exists evs, log st' = evs /\ forallb setup_event evs = true.
Proof.
  pose proof (@reconciler_reports_missing_samples lab
                [py "/work/T1.bam.bas"] [py "/work/N1.bam.bas"]
                [py "/work/t2.tar.gz"]
                [((py "T2", py "N1"), py "/work/t2.tar.gz")]
                [(py "T1", py "/work/T1.bam.bas")]
                [(py "N1", py "/work/N1.bam.bas")]
                eq_refl eq_refl eq_refl) as H.
  cbv zeta in H. destruct H as (_ & _ & _ & Htumour & _ & _ & Hrun).
  assert (Hmissing : exists x : str,
             In x (map fst (keys [((py "T2", py "N1"), py "/work/t2.tar.gz")]))
             /\ ~ In x (keys [(py "T1", py "/work/T1.bam.bas")])).
  { exists (py "T2"). split; [now left|]. intros [E|[]]. discriminate E. }
  split; [exact (Htumour Hmissing)|].
  assert (Hlocate : exists l st1,
             locate lab
               (call_args [py "T1.bam.bas"] [py "N1.bam.bas"] [py "t2.tar.gz"]
                  (py "out.tar.gz") GRCh37 PyNone (PyBool false))
               (module_loaded lab_disk) = (Ok l, st1)
             /\ l_tumour_bas l = [py "/work/T1.bam.bas"]
             /\ l_normal_bas l = [py "/work/N1.bam.bas"]
             /\ l_variant_call_tars l = [py "/work/t2.tar.gz"]).
  { vm_compute. do 2 eexists. repeat split. }
  destruct Hlocate as (l & st1 & Hl & E1 & E2 & E3).
  exact (Hrun _ _ l st1 _ Hl E1 E2 E3 (Htumour Hmissing)).
Defined.

(** C4 as stated, for the tumour role: every expected tumour has its
    statistics file, E - P is empty, and the Reconciler fails with
    [MissingSampleError] all the same, because a normal is missing. *)
Lemma reconciler_counterexample :
  get_all_t_n_pairs lab [py "/work/pair.tar.gz"]
  = Ok [((py "T1", py "N1"), py "/work/pair.tar.gz")]
  /\ get_sample_names_bas_file_dict lab [py "/work/T1.bam.bas"]
     = Ok [(py "T1", py "/work/T1.bam.bas")]
  /\ set_difference (py_set [py "T1"]) (py_set [py "T1"]) = []
  /\ get_validated_tn_pair_and_bas_lists lab [py "/work/T1.bam.bas"] []
       [py "/work/pair.tar.gz"]
     = Err (MissingSampleError Normal [py "N1"]).
Proof. repeat split. Qed.

(** ** The test of the output path *)

Lemma bind_ok {A B} (m : M A) (f : A -> M B) (st st1 : state) (a : A) :
  m st = (Ok a, st1) -> bind m f st = f a st1.
Proof. intros H. unfold bind. now rewrite H. Qed.

Lemma bind_err {A B} (m : M A) (f : A -> M B) (st st1 : state) (e : exn) :
  m st = (Err e, st1) -> bind m f st = (Err e, st1).
Proof. intros H. unfold bind. now rewrite H. Qed.

Lemma bind_assoc {A B C} (m : M A) (f : A -> M B) (g : B -> M C)
    (st : state) :
  bind (bind m f) g st = bind m (fun a => bind (f a) g) st.
Proof. unfold bind. now destruct (m st) as [[a|e] st1]. Qed.

Lemma mem_app_self (x : str) (l : list str) : mem x (l ++ [x]) = true.
Proof. apply mem_In, in_or_app. right. now left. Qed.

Lemma files_restored (x : str) (l : list str) :
  mem x l = false ->
  filter (fun f => negb (str_eqb x f)) (l ++ [x]) = l.
Proof.
  intros H. rewrite filter_app. simpl. rewrite str_eqb_refl. simpl.
  rewrite app_nil_r. apply mem_false in H.
  induction l as [|y l IH]; simpl; [reflexivity|].
  destruct (str_eqb x y) eqn:E.
  - apply str_eqb_eq in E. subst. elim H. now left.
  - simpl. f_equal. apply IH. intros Hin. apply H. now right.
Qed.

Section Preflight.

Variable w : World.

Lemma check_output_present (output_tar : str) (st : state) :
  mem output_tar (files st) || isdir w output_tar = true ->
  check_output w output_tar st = (Err (OutputExistsError output_tar), st).
Proof.
  intros H. unfold check_output, bind, os_path_exists. now rewrite H.
Qed.

(** The placeholder is written and removed: the files are what they
    were, and the trace has the two steps. *)
Lemma placeholder_removed (output_tar : str) (st : state) :
  mem output_tar (files st) = false ->
  os_remove w output_tar
    {| OUTPUT_HEADER := OUTPUT_HEADER st;
       files := files st ++ [output_tar];
       report := report st;
       log := log st ++ [EvOpenWrite output_tar] |}
  = (Ok tt, add_events st [EvOpenWrite output_tar; EvRemove output_tar]).
Proof.
  intros H. unfold os_remove, bind, tell, update_files, add_events. simpl.
  rewrite mem_app_self, (files_restored _ _ H), <- app_assoc. reflexivity.
Qed.

Lemma check_output_written (output_tar : str) (st : state) :
  mem output_tar (files st) || isdir w output_tar = false ->
  open_w w output_tar = Written ->
  check_output w output_tar st
  = (Ok tt, add_events st [EvOpenWrite output_tar; EvRemove output_tar]).
Proof.
  intros H Hopen. apply orb_false_iff in H as [Hmem Hdir].
  unfold check_output, bind at 1, os_path_exists. rewrite Hmem, Hdir. simpl.
  unfold try_finally, try_except, open_and_write, bind, tell, create_file,
    update_files.
  rewrite Hopen. simpl. rewrite Hmem.
  now rewrite (placeholder_removed _ _ Hmem).
Qed.

Lemma check_output_write_fails (output_tar : str) (st : state) (exc : exn) :
  mem output_tar (files st) || isdir w output_tar = false ->
  open_w w output_tar = WriteFails exc -> is_OSError exc = true ->
  check_output w output_tar st
  = (Err (OutputUnwritableError exc),
     add_events st [EvOpenWrite output_tar; EvRemove output_tar]).
Proof.
  intros H Hopen Hos. apply orb_false_iff in H as [Hmem Hdir].
  unfold check_output, bind at 1, os_path_exists. rewrite Hmem, Hdir. simpl.
  unfold try_finally, try_except, open_and_write, bind, tell, create_file,
    update_files, raise.
  rewrite Hopen. simpl. rewrite Hmem, Hos.
  now rewrite (placeholder_removed _ _ Hmem).
Qed.

(** The file cannot be opened: nothing is created, the [except] clause
    turns an operating-system error into the error of the unwritable
    output, and the removal in the [finally] clause, which finds no file,
    raises in its place. *)
Lemma check_output_open_fails (output_tar : str) (st : state) (exc : exn) :
  mem output_tar (files st) || isdir w output_tar = false ->
  open_w w output_tar = OpenFails exc ->
  check_output w output_tar st
  = (Err (FileNotFoundError output_tar),
     add_events st [EvOpenWrite output_tar; EvRemove output_tar]).
Proof.
  intros H Hopen. apply orb_false_iff in H as [Hmem Hdir].
  unfold check_output, bind at 1, os_path_exists. rewrite Hmem, Hdir. simpl.
  unfold try_finally, try_except, open_and_write, bind, tell, raise.
  rewrite Hopen. simpl.
  assert (E : forall r : result unit,
            (let (r0, st') :=
               (r, {| OUTPUT_HEADER := OUTPUT_HEADER st; files := files st;
                      report := report st;
                      log := log st ++ [EvOpenWrite output_tar] |}) in
             match os_remove w output_tar st' with
             | (Ok _, st'') => (r0, st'')
             | (Err e, st'') => (Err e, st'')
             end)
            = (Err (FileNotFoundError output_tar),
               add_events st [EvOpenWrite output_tar; EvRemove output_tar])).
  { intros r. unfold os_remove, bind, tell, add_events. simpl.
    rewrite Hmem, Hdir, <- app_assoc. reflexivity. }
  destruct (is_OSError exc); apply E.
Qed.

Lemma inner_try_open_fails (output_tar : str) (st : state) (exc : exn) :
  open_w w output_tar = OpenFails exc -> is_OSError exc = true ->
  fst (try_except
         (open_and_write w output_tar (py "place holder" ++ [LF]))
         is_OSError
         (fun exc => raise (OutputUnwritableError exc)) st)
  = Err (OutputUnwritableError exc).
Proof.
  intros Hopen Hos.
  unfold try_except, open_and_write, bind, tell, raise.
  rewrite Hopen. simpl. now rewrite Hos.
Qed.

Variables (args : namespace) (debug genome_size : pyval) (path : str).
Hypothesis Hdebug : getattr args "debug" = Ok debug.
Hypothesis Hsize : getattr args "genome_size" = Ok genome_size.
Hypothesis Hint : isinstance_int genome_size = true.
Hypothesis Hpath : getattr args "output_tar" = Ok (PyStr path).
Hypothesis Hname : validate_tar_name w (get_abs_path w path) = Ok tt.

Lemma preflight_is_check_output (st : state) :
  preflight w args st
  = match check_output w (get_abs_path w path) st with
    | (Ok _, st') => (Ok (genome_size, get_abs_path w path), st')
    | (Err e, st') => (Err e, st')
    end.
Proof.
  unfold preflight, bind, lift. rewrite Hdebug, Hsize, Hint. simpl.
  rewrite Hpath. simpl. rewrite Hname.
  now destruct (check_output w (get_abs_path w path) st) as [[[]|e] st'].
Qed.

Lemma run_fails_in_preflight (st st' : state) (e : exn) :
  preflight w args st = (Err e, st') ->
  extract_from_sanger w args st = (Err e, st').
Proof.
  intros H. unfold extract_from_sanger, prepare, locate.
  rewrite !bind_assoc. now apply bind_err.
Qed.

Lemma run_after_preflight (st st1 : state) (checked : pyval * str)
    (r : result unit) (st' : state) :
  preflight w args st = (Ok checked, st1) ->
  extract_from_sanger w args st = (r, st') ->
  exists evs, log st' = log st1 ++ evs.
Proof.
  intros Hpre Hrun. unfold extract_from_sanger, prepare, locate in Hrun.
  rewrite !bind_assoc in Hrun.
  rewrite bind_ok with (a := checked) (st1 := st1) in Hrun by exact Hpre.
  clear Hpre. revert st1 r st' Hrun.
  match goal with
  | |- forall st1 r st', ?X st1 = _ -> _ => change (grows X)
  end.
  apply grows_bind; [apply quiet_is_grows, quiet_locate_after|]. intros l.
  apply grows_bind; [apply quiet_is_grows, quiet_reconcile|]. intros p.
  apply grows_bind; [apply grows_write_report|]. intros found.
  apply grows_package.
Qed.

End Preflight.

(** The runs on which the test of the output path does what C6 says.  For
    every run whose genome size is an integer and whose output path passes
    the check of its name: when the output path exists already the run fails
    with [OutputExistsError] at once, with nothing written and no input
    located or parsed; when it does not exist and the placeholder file is
    created but writing it fails with an operating-system error the run
    fails there with [OutputUnwritableError]; and when the placeholder is
    written it is removed, which leaves the files as they were, before any
    input is located or parsed. *)
Lemma output_test_outcomes (w : World) (args : namespace)
    (debug genome_size : pyval) (path : str) (st : state) :
  getattr args "debug" = Ok debug ->
  getattr args "genome_size" = Ok genome_size ->
  isinstance_int genome_size = true ->
  getattr args "output_tar" = Ok (PyStr path) ->
  validate_tar_name w (get_abs_path w path) = Ok tt ->
  let output_tar := get_abs_path w path in
  let present := mem output_tar (files st) || isdir w output_tar in
  let tested :=
    add_events st [EvOpenWrite output_tar; EvRemove output_tar] in
  (present = true ->
   extract_from_sanger w args st = (Err (OutputExistsError output_tar), st))
  /\ (present = false ->
      forall exc,
        open_w w output_tar = WriteFails exc -> is_OSError exc = true ->
        extract_from_sanger w args st
        = (Err (OutputUnwritableError exc), tested))
  /\ (present = false ->
      open_w w output_tar = Written ->
      preflight w args st = (Ok (genome_size, output_tar), tested)
      /\ forall r st',
           extract_from_sanger w args st = (r, st') ->
           exists evs, log st' = log tested ++ evs).
Proof.
  intros Hdebug Hsize Hint Hpath Hname output_tar present tested.
  pose proof (@preflight_is_check_output w args debug genome_size path
                Hdebug Hsize Hint Hpath Hname st) as Hpre.
  fold output_tar in Hpre. split; [|split].
  - intros Hpresent.
    apply run_fails_in_preflight. rewrite Hpre.
    now rewrite check_output_present by exact Hpresent.
  - intros Habsent exc Hopen Hos.
    apply run_fails_in_preflight. rewrite Hpre.
    now rewrite check_output_write_fails with (exc := exc) by assumption.
  - intros Habsent Hopen.
    rewrite check_output_written in Hpre by assumption.
    split; [exact Hpre|].
    intros r st' Hrun. eapply run_after_preflight; eassumption.
Qed.

(** The order of the checks: the genome size and the name of the output
    path are checked before the output path is tested, so a run whose
    output path exists fails with their errors when they refuse. *)
Lemma checks_before_the_output_test :
  fst (extract_from_sanger lab
         (call_args [] [] [] (py "existing.tar.gz") (PyStr (py "3000"))
            PyNone (PyBool false))
         (module_loaded lab_disk))
  = Err GenomeSizeError
  /\ fst (extract_from_sanger lab
            (call_args [] [] [] (py "existing.txt") GRCh37 PyNone
               (PyBool false))
            (module_loaded lab_disk))
     = Err (Raised (py "not a .tar.gz name")).
Proof. split; reflexivity. Qed.

(** C6, where the code departs from it.  The output path does not exist and
    the placeholder file cannot be opened, so that the test write fails
    before any file is created.  The [except OSError] clause raises the
    error of the unwritable output, but the [finally] clause then calls
    [os.remove] on a file that was never created, and the
    [FileNotFoundError] it raises replaces the error on its way: the run
    fails with [FileNotFoundError], for every error the opening fails
    with, and never with [OutputUnwritableError]. *)
Theorem unopenable_output_is_reported_as_missing (w : World)
    (args : namespace) (debug genome_size : pyval) (path : str) (st : state)
    (exc : exn) :
  getattr args "debug" = Ok debug ->
  getattr args "genome_size" = Ok genome_size ->
  isinstance_int genome_size = true ->
  getattr args "output_tar" = Ok (PyStr path) ->
  validate_tar_name w (get_abs_path w path) = Ok tt ->
  let output_tar := get_abs_path w path in
  mem output_tar (files st) || isdir w output_tar = false ->
  open_w w output_tar = OpenFails exc ->
  extract_from_sanger w args st
  = (Err (FileNotFoundError output_tar),
     add_events st [EvOpenWrite output_tar; EvRemove output_tar])
  /\ (forall exc', fst (extract_from_sanger w args st)
                   <> Err (OutputUnwritableError exc'))
  /\ (is_OSError exc = true ->
      fst (try_except
             (open_and_write w output_tar (py "place holder" ++ [LF]))
             is_OSError
             (fun exc => raise (OutputUnwritableError exc)) st)
      = Err (OutputUnwritableError exc)).
Proof.
  intros Hdebug Hsize Hint Hpath Hname output_tar Habsent Hopen.
  pose proof (@preflight_is_check_output w args debug genome_size path
                Hdebug Hsize Hint Hpath Hname st) as Hpre.
  fold output_tar in Hpre.
  rewrite check_output_open_fails with (exc := exc) in Hpre by assumption.
  apply run_fails_in_preflight in Hpre.
  split; [exact Hpre|]. split.
  - intros exc'. rewrite Hpre. discriminate.
  - intros Hos. now apply inner_try_open_fails.
Qed.

Lemma unopenable_output_is_reported_as_missing_witness :
  mem (py "/readonly/out.tar.gz") lab_disk
  || isdir lab (py "/readonly/out.tar.gz") = false
  /\ open_w lab (py "/readonly/out.tar.gz")
     = OpenFails (OSError (py "[Errno 13] Permission denied"))
  /\ extract_from_sanger lab
       (call_args [] [] [] (py "/readonly/out.tar.gz") GRCh37 PyNone
          (PyBool false))
       (module_loaded lab_disk)
     = (Err (FileNotFoundError (py "/readonly/out.tar.gz")),
        add_events (module_loaded lab_disk)
          [EvOpenWrite (py "/readonly/out.tar.gz");
           EvRemove (py "/readonly/out.tar.gz")]).
Proof.
  split; [reflexivity|]. split; [reflexivity|].
  apply (@unopenable_output_is_reported_as_missing lab
           (call_args [] [] [] (py "/readonly/out.tar.gz") GRCh37 PyNone
              (PyBool false))
           (PyBool false) GRCh37 (py "/readonly/out.tar.gz")
           (module_loaded lab_disk)
           (OSError (py "[Errno 13] Permission denied")));
    reflexivity.
Defined.

(** ** The report *)

Section Report.

Variable w : World.

Lemma reconcile_ok (args : namespace) (l : Located) (st st' : state)
    (p : Prepared) :
  reconcile w args l st = (Ok p, st') ->
  exists metadata,
    getattr args "metadata" = Ok metadata
    /\ getattr args "count_variants" = Ok (p_count_variants p)
    /\ p_t_n_pair_meta p = (if truthy metadata then Some STUB_META else None)
    /\ get_validated_tn_pair_and_bas_lists w (l_tumour_bas l)
         (l_normal_bas l) (l_variant_call_tars l)
       = Ok (p_t_n_pair_tar p, p_t_name_bas p, p_n_name_bas p).
Proof.
  unfold reconcile, bind, lift, tell, ret. intros H.
  destruct (get_validated_tn_pair_and_bas_lists w (l_tumour_bas l)
              (l_normal_bas l) (l_variant_call_tars l))
    as [[[pairs tb] nb]|e]; [|discriminate].
  destruct (getattr args "metadata") as [metadata|e]; [|discriminate].
  exists metadata. destruct (truthy metadata).
  - destruct (iterate metadata) as [meta_in|e]; [|discriminate].
    destruct (get_all_meta w meta_in) as [found|e]; [|discriminate].
    destruct (getattr args "count_variants") as [c|e]; [|discriminate].
    injection H as <- _. now repeat split.
  - destruct (getattr args "count_variants") as [c|e]; [|discriminate].
    injection H as <- _. now repeat split.
Qed.

Lemma prepare_ok (args : namespace) (st st' : state) (p : Prepared) :
  prepare w args st = (Ok p, st') ->
  exists metadata,
    getattr args "metadata" = Ok metadata
    /\ getattr args "count_variants" = Ok (p_count_variants p)
    /\ p_t_n_pair_meta p = (if truthy metadata then Some STUB_META else None).
Proof.
  unfold prepare, bind at 1. intros H.
  destruct (locate w args st) as [[l|e] st1]; [|discriminate].
  apply reconcile_ok in H as (metadata & H1 & H2 & H3 & _).
  now exists metadata.
Qed.

(** The lookup of the pair's metadata is the first thing a turn of the
    loop does, and with the local unbound or bound to the placeholder's
    tuple, indeed to anything but a dictionary, it raises. *)
Lemma process_pair_raises (p : Prepared) (item : (str * str) * str)
    (found : list str) (st : state) :
  (forall items, p_t_n_pair_meta p <> Some (PyDict items)) ->
  process_pair w p item found st
  = match p_t_n_pair_meta p with
    | None =>
        (Err (UnboundLocalError "t_n_pair_meta"),
         add_events st [EvPair (fst item)])
    | Some (PyTuple _) | Some (PyList _) =>
        (Err (TypeError "tuple indices must be integers or slices"),
         add_events st [EvPair (fst item)])
    | Some _ =>
        (Err (TypeError "object is not subscriptable"),
         add_events st [EvPair (fst item)])
    end.
Proof.
  intros Hnot. unfold process_pair. destruct item as [[t n] v_tar].
  unfold bind at 1. rewrite tell_adds. unfold bind at 1, lift at 1.
  destruct (p_t_n_pair_meta p) as [[]|]; try reflexivity.
  now elim (Hnot items).
Qed.

Lemma write_report_unfold (p : Prepared) (st : state) :
  write_report w p st
  = process_pairs w p (p_t_n_pair_tar p) []
      (header_written (p_count_variants p) st).
Proof.
  unfold write_report, header_written, header_of, build_header, o_write,
    bind, update_report, extend_OUTPUT_HEADER, read_OUTPUT_HEADER, tell, ret.
  destruct (truthy (p_count_variants p)); reflexivity.
Qed.

Lemma package_keeps (p : Prepared) (found : list str) (st st' : state)
    (r : result unit) :
  package w p found st = (r, st') ->
  OUTPUT_HEADER st' = OUTPUT_HEADER st /\ report st' = report st.
Proof.
  unfold package, try_except, bind, tell, create_file, update_files, raise.
  destruct (tar_write w (p_output_tar p) (output_metrics_file w :: found))
    as [e|e|]; simpl.
  - destruct (is_Exception e); intros [= _ <-]; now split.
  - destruct (is_Exception e); intros [= _ <-]; now split.
  - intros [= _ <-]; now split.
Qed.

(** The two ways a run goes on once everything is prepared: without a
    pair the header line is the report and the bundle is made; with a
    pair the header line is written and the first pair raises. *)
Lemma run_outcome (args : namespace) (st s : state) (p : Prepared) :
  prepare w args st = (Ok p, s) ->
  (p_t_n_pair_tar p = []
   /\ extract_from_sanger w args st
      = package w p [] (header_written (p_count_variants p) s))
  \/ (exists item rest e,
        p_t_n_pair_tar p = item :: rest
        /\ extract_from_sanger w args st
           = (Err e,
              add_events (header_written (p_count_variants p) s)
                [EvPair (fst item)])
        /\ (p_t_n_pair_meta p = None ->
            e = UnboundLocalError "t_n_pair_meta")
        /\ (p_t_n_pair_meta p = Some STUB_META ->
            e = TypeError "tuple indices must be integers or slices")).
Proof.
  intros Hp.
  assert (E : extract_from_sanger w args st
              = match
                  process_pairs w p (p_t_n_pair_tar p) []
                    (header_written (p_count_variants p) s)
                with
                | (Ok found, st2) => package w p found st2
                | (Err e, st2) => (Err e, st2)
                end).
  { unfold extract_from_sanger.
    rewrite bind_ok with (a := p) (st1 := s) by exact Hp.
    unfold bind at 1. now rewrite write_report_unfold. }
  rewrite E. clear E.
  apply prepare_ok in Hp as (metadata & _ & _ & Hmeta).
  destruct (p_t_n_pair_tar p) as [|item rest].
  - left. split; reflexivity.
  - right. cbn [process_pairs]. unfold bind at 1.
    rewrite process_pair_raises
      by (intros items; rewrite Hmeta; destruct (truthy metadata);
          discriminate).
    rewrite Hmeta. destruct (truthy metadata).
    + exists item, rest,
        (TypeError "tuple indices must be integers or slices").
      repeat split. discriminate.
    + exists item, rest, (UnboundLocalError "t_n_pair_meta").
      repeat split. discriminate.
Qed.

End Report.

(** C1, where the code departs from it.  The local [t_n_pair_meta] is bound
    only in the branch that metadata paths open, and the loop reads it for
    every pair.  A run without metadata that has a pair to process gets as
    far as the header line and fails at the first pair with
    [UnboundLocalError]; no pair is processed. *)
Theorem absent_metadata_aborts_the_first_pair (w : World) (args : namespace)
    (st s : state) (p : Prepared) (metadata : pyval) :
  prepare w args st = (Ok p, s) ->
  getattr args "metadata" = Ok metadata -> truthy metadata = false ->
  p_t_n_pair_tar p <> [] ->
  p_t_n_pair_meta p = None
  /\ exists item rest,
       p_t_n_pair_tar p = item :: rest
       /\ extract_from_sanger w args st
          = (Err (UnboundLocalError "t_n_pair_meta"),
             add_events (header_written (p_count_variants p) s)
               [EvPair (fst item)]).
Proof.
  intros Hp Hattr Hfalsy Hpairs.
  assert (Hmeta : p_t_n_pair_meta p = None).
  { destruct (prepare_ok _ _ _ Hp) as (metadata' & Hattr' & _ & Hmeta).
    rewrite Hattr in Hattr'. injection Hattr' as <-.
    now rewrite Hfalsy in Hmeta. }
  split; [exact Hmeta|].
  destruct (run_outcome _ _ _ Hp) as [[Hnone _]|(item & rest & e & Hi & Hrun & He & _)];
    [contradiction|].
  exists item, rest. split; [exact Hi|]. now rewrite Hrun, (He Hmeta).
Qed.

Lemma absent_metadata_aborts_the_first_pair_witness :
  fst (extract_from_sanger lab
         (call_args [py "T1.bam.bas"] [py "N1.bam.bas"] [py "pair.tar.gz"]
            (py "out.tar.gz") GRCh37 PyNone (PyBool false))
         (module_loaded lab_disk))
  = Err (UnboundLocalError "t_n_pair_meta").
Proof.
  assert (H : exists p s,
             prepare lab
               (call_args [py "T1.bam.bas"] [py "N1.bam.bas"]
                  [py "pair.tar.gz"] (py "out.tar.gz") GRCh37 PyNone
                  (PyBool false))
               (module_loaded lab_disk) = (Ok p, s)
             /\ p_t_n_pair_tar p <> []).
  { vm_compute. do 2 eexists. split; [reflexivity | discriminate]. }
  destruct H as (p & s & Hp & Hpairs).
  destruct (@absent_metadata_aborts_the_first_pair lab _ _ s p PyNone Hp
              eq_refl eq_refl Hpairs) as (_ & item & rest & _ & E).
  now rewrite E.
Defined.

(** ** Lines and fields *)

Lemma split_on_no_sep (sep : N) (s : str) :
  ~ In sep s -> forall cur, split_on sep (s ++ [sep]) cur = [cur ++ s; []].
Proof.
  induction s as [|c s IH]; intros H cur; simpl.
  - now rewrite N.eqb_refl, app_nil_r.
  - destruct (N.eqb c sep) eqn:E.
    + apply N.eqb_eq in E. elim H. now left.
    + rewrite IH by (intros Hin; apply H; now right).
      now rewrite <- app_assoc.
Qed.

Lemma lines_one (s : str) : ~ In LF s -> lines (s ++ [LF]) = [s].
Proof. intros H. unfold lines. now rewrite split_on_no_sep. Qed.





Lemma header_after_succ (k : nat) :
  header_after k ++ VARIANT_COUNT_HEADER = header_after (S k).
Proof.
  unfold header_after. rewrite <- app_assoc. f_equal.
  induction k as [|k IH].
  - cbn [repeat List.concat]. now rewrite app_nil_r.
  - change (List.concat (repeat VARIANT_COUNT_HEADER (S k)))
      with (VARIANT_COUNT_HEADER ++ List.concat (repeat VARIANT_COUNT_HEADER k)).
    rewrite <- app_assoc, IH. reflexivity.
Qed.

Lemma header_of_after (count_variants : pyval) (st : state) (k : nat) :
  OUTPUT_HEADER st = header_after k ->
  header_of count_variants st
  = header_after (if truthy count_variants then S k else k).
Proof.
  intros H. unfold header_of. rewrite H.
  destruct (truthy count_variants); [apply header_after_succ | reflexivity].
Qed.

Lemma run_ok_prepared (w : World) (args : namespace) (st st' : state) :
  extract_from_sanger w args st = (Ok tt, st') ->
  exists p s, prepare w args st = (Ok p, s).
Proof.
  unfold extract_from_sanger, bind at 1. intros H.
  destruct (prepare w args st) as [[p|e] s]; [|discriminate].
  now exists p, s.
Qed.

(** A run that succeeds had no pair to process: the first pair of any run
    raises at the lookup of its metadata. *)
Lemma successful_run_has_no_pair (w : World) (args : namespace)
    (st s st' : state) (p : Prepared) :
  prepare w args st = (Ok p, s) ->
  extract_from_sanger w args st = (Ok tt, st') ->
  p_t_n_pair_tar p = []
  /\ report st' = join [TAB] (header_of (p_count_variants p) s) ++ [LF].
Proof.
  intros Hp Hrun.
  destruct (run_outcome _ _ _ Hp)
    as [[Hnone E]|(item & rest & e & _ & E & _)];
    rewrite E in Hrun; [|discriminate].
  split; [assumption|].
  apply package_keeps in Hrun as [_ Hr]. exact Hr.
Qed.














(** ** The module's header list across calls *)

Lemma run_header (w : World) (args : namespace) (st s st' : state)
    (p : Prepared) (r : result unit) :
  prepare w args st = (Ok p, s) ->
  extract_from_sanger w args st = (r, st') ->
  OUTPUT_HEADER st' = header_of (p_count_variants p) st
  /\ In (EvWrite (join [TAB] (header_of (p_count_variants p) st) ++ [LF]))
        (log st').
Proof.
  intros Hp Hrun.
  assert (Q := @quiet_prepare w args). unfold quiet, respects in Q.
  destruct (Q _ _ _ Hp) as (Hsame & _).
  assert (Hof : header_of (p_count_variants p) s
                = header_of (p_count_variants p) st)
    by (unfold header_of; now rewrite Hsame).
  destruct (run_outcome _ _ _ Hp)
    as [[_ E]|(item & rest & e & _ & E & _)]; rewrite E in Hrun.
  - destruct (package_keeps _ _ _ _ Hrun) as [Hh _].
    assert (G := @grows_package w p []). unfold grows, respects in G.
    destruct (G _ _ _ Hrun) as [evs Hlog].
    split.
    + rewrite Hh. simpl. exact Hof.
    + rewrite Hlog. simpl. rewrite Hof.
      apply in_or_app. left. apply in_or_app. right. now left.
  - injection Hrun as _ <-. simpl. rewrite Hof. split; [reflexivity|].
    apply in_or_app. left. apply in_or_app. right. now left.
Qed.

(** The header list stays one the module can have: the base schema followed
    by some number of copies of the variant-count names. *)
Lemma header_state_is_kept (w : World) (args : namespace) (st st' : state)
    (r : result unit) (k : nat) :
  OUTPUT_HEADER st = header_after k ->
  extract_from_sanger w args st = (r, st') ->
  exists k', OUTPUT_HEADER st' = header_after k'.
Proof.
  intros Hk Hrun. destruct (prepare w args st) as [[p|e] s] eqn:Hp.
  - destruct (@run_header w args st s st' p r Hp Hrun) as [H _].
    rewrite H, (header_of_after _ _ Hk). eauto.
  - unfold extract_from_sanger in Hrun.
    rewrite bind_err with (e := e) (st1 := s) in Hrun by exact Hp.
    injection Hrun as _ <-.
    assert (Q := @quiet_prepare w args). unfold quiet, respects in Q.
    destruct (Q _ _ _ Hp) as (Hsame & _). rewrite Hsame. eauto.
Qed.

(** C10, as amended.  With variant counting on, building the header
    appends the four variant-count names to the module-level OUTPUT_HEADER
    list itself.  After one call that reaches the report, in a fresh
    interpreter, OUTPUT_HEADER is the base schema followed by the four names
    and no longer equals the base schema, which has 54 names; a second call
    with variant counting on that reaches the report writes a header line
    with the four variant-count names twice. *)
Theorem header_list_is_extended_in_place (w : World)
    (args1 args2 : namespace) (fs : list str)
    (p1 p2 : Prepared) (s1 s2 st1 st2 : state) (r1 r2 : result unit) :
  prepare w args1 (module_loaded fs) = (Ok p1, s1) ->
  truthy (p_count_variants p1) = true ->
  extract_from_sanger w args1 (module_loaded fs) = (r1, st1) ->
  prepare w args2 st1 = (Ok p2, s2) ->
  truthy (p_count_variants p2) = true ->
  extract_from_sanger w args2 st1 = (r2, st2) ->
  List.length OUTPUT_HEADER_BASE = 54
  /\ OUTPUT_HEADER st1 = OUTPUT_HEADER_BASE ++ VARIANT_COUNT_HEADER
  /\ OUTPUT_HEADER st1 <> OUTPUT_HEADER_BASE
  /\ In (EvWrite
           (join [TAB]
              (OUTPUT_HEADER_BASE ++ VARIANT_COUNT_HEADER
                 ++ VARIANT_COUNT_HEADER) ++ [LF]))
        (log st2)
  /\ OUTPUT_HEADER st2
     = OUTPUT_HEADER_BASE ++ VARIANT_COUNT_HEADER ++ VARIANT_COUNT_HEADER.
Proof.
  intros Hp1 Hc1 Hrun1 Hp2 Hc2 Hrun2.
  destruct (@run_header w args1 _ s1 st1 p1 r1 Hp1 Hrun1) as [H1 _].
  destruct (@run_header w args2 _ s2 st2 p2 r2 Hp2 Hrun2) as [H2 Hw2].
  unfold header_of in H1, H2, Hw2. rewrite Hc1 in H1.
  rewrite Hc2, H1, <- app_assoc in H2, Hw2. simpl in H1.
  split; [reflexivity|]. split; [exact H1|]. split; [|split; assumption].
  rewrite H1. intros E. apply (f_equal (@List.length str)) in E.
  vm_compute in E. discriminate E.
Qed.

Lemma header_list_is_extended_in_place_witness :
  OUTPUT_HEADER
    (snd (extract_from_sanger lab
            (call_args [] [] [] (py "out.tar.gz") GRCh37 PyNone (PyBool true))
            (module_loaded lab_disk)))
  = OUTPUT_HEADER_BASE ++ VARIANT_COUNT_HEADER
  /\ OUTPUT_HEADER
       (snd (extract_from_sanger lab
               (call_args [] [] [] (py "more.tar.gz") GRCh37 PyNone
                  (PyBool true))
               (snd (extract_from_sanger lab
                       (call_args [] [] [] (py "out.tar.gz") GRCh37 PyNone
                          (PyBool true))
                       (module_loaded lab_disk)))))
     = OUTPUT_HEADER_BASE ++ VARIANT_COUNT_HEADER ++ VARIANT_COUNT_HEADER.
Proof.
  pose (first :=
          extract_from_sanger lab
            (call_args [] [] [] (py "out.tar.gz") GRCh37 PyNone (PyBool true))
            (module_loaded lab_disk)).
  pose (second :=
          extract_from_sanger lab
            (call_args [] [] [] (py "more.tar.gz") GRCh37 PyNone (PyBool true))
            (snd first)).
  assert (H1 : exists p1 s1,
             prepare lab
               (call_args [] [] [] (py "out.tar.gz") GRCh37 PyNone
                  (PyBool true))
               (module_loaded lab_disk) = (Ok p1, s1)
             /\ truthy (p_count_variants p1) = true).
  { vm_compute. do 2 eexists. split; reflexivity. }
  assert (H2 : exists p2 s2,
             prepare lab
               (call_args [] [] [] (py "more.tar.gz") GRCh37 PyNone
                  (PyBool true))
               (snd first) = (Ok p2, s2)
             /\ truthy (p_count_variants p2) = true).
  { vm_compute. do 2 eexists. split; reflexivity. }
  destruct H1 as (p1 & s1 & Hp1 & Hc1), H2 as (p2 & s2 & Hp2 & Hc2).
  destruct (@header_list_is_extended_in_place lab _ _ lab_disk p1 p2 s1 s2
              (snd first) (snd second) (fst first) (fst second)
              Hp1 Hc1 (surjective_pairing first)
              Hp2 Hc2 (surjective_pairing second))
    as (_ & Hone & _ & _ & Htwo).
  split; [exact Hone | exact Htwo].
Defined.

(** C10 as stated: the base schema the module starts with has 54 names,
    not 53. *)
Lemma header_list_counterexample :
  OUTPUT_HEADER (module_loaded []) = OUTPUT_HEADER_BASE
  /\ List.length (OUTPUT_HEADER (module_loaded [])) = 54
  /\ List.length (OUTPUT_HEADER (module_loaded [])) <> 53.
Proof. repeat split. discriminate. Qed.

(** ** The command line *)

Lemma getattr_setattr_other (ns : namespace) (d name : string) (v : pyval) :
  d <> name -> getattr (setattr ns d v) name = getattr ns name.
Proof.
  intros Hd. induction ns as [|[n v'] ns IH]; simpl.
  - apply String.eqb_neq in Hd. now rewrite Hd.
  - destruct (String.eqb n d) eqn:E; simpl.
    + apply String.eqb_eq in E. subst n.
      apply String.eqb_neq in Hd. now rewrite Hd.
    + destruct (String.eqb n name); [reflexivity | exact IH].
Qed.

Lemma getattr_setattr_same (ns : namespace) (d : string) (v : pyval) :
  getattr (setattr ns d v) d = Ok v.
Proof.
  induction ns as [|[n v'] ns IH]; simpl.
  - now rewrite String.eqb_refl.
  - destruct (String.eqb n d) eqn:E; simpl; rewrite E; [reflexivity | exact IH].
Qed.

Lemma find_action_declared (token : str) (a : action) :
  find_action token = Some a -> In a parser_actions.
Proof. intros H. now apply find_some in H. Qed.

Lemma dest_injective (a b : action) :
  In a parser_actions -> In b parser_actions -> dest a = dest b -> a = b.
Proof.
  intros Ha Hb. simpl in Ha, Hb.
  repeat (destruct Ha as [<-|Ha]; [
    repeat (destruct Hb as [<-|Hb];
            [intros E; try reflexivity; discriminate E|]);
    destruct Hb |]).
  destruct Ha.
Qed.

(** *** The options the parser recognises are the declared ones *)

Lemma option_string_actions_declared (o : str) (a : action) :
  In (o, a) option_string_actions -> In a parser_actions.
Proof.
  unfold option_string_actions. intros H.
  apply in_flat_map in H as (a' & Ha' & H).
  apply in_map_iff in H as (o' & [= _ <-] & _). exact Ha'.
Qed.

Lemma get_option_tuples_declared (s : str) (a : action) (o : str)
    (e : option str) :
  In (Some a, o, e) (get_option_tuples s) -> In a parser_actions.
Proof.
  unfold get_option_tuples.
  destruct s as [|c0 [|c1 rest]];
    [intros H; destruct H | intros H; destruct H |].
  destruct (N.eqb c1 DASH).
  - destruct (split_equals (c0 :: c1 :: rest)) as [[before after]|];
      intros H; apply in_flat_map in H as ([o' a'] & Hin & H); cbn [fst snd] in H;
      (destruct (starts_with _ o'); [|destruct H]);
      destruct H as [[= <- _ _]|[]];
      eapply option_string_actions_declared; eassumption.
  - intros H. apply in_flat_map in H as ([o' a'] & Hin & H). cbn [fst snd] in H.
    destruct (str_eqb o' [c0; c1]).
    + destruct H as [[= <- _ _]|[]].
      eapply option_string_actions_declared; eassumption.
    + destruct (starts_with _ o'); [|destruct H].
      destruct H as [[= <- _ _]|[]].
      eapply option_string_actions_declared; eassumption.
Qed.

Section Parsing.

Variable w : World.

Lemma parse_optional_declared (s : str) (a : action) (o : str)
    (e : option str) :
  parse_optional w s = Ok (Some (Some a, o, e)) -> In a parser_actions.
Proof.
  unfold parse_optional. destruct s as [|c rest]; [discriminate|].
  destruct (negb (N.eqb c DASH)); [discriminate|].
  destruct (find_action (c :: rest)) as [a0|] eqn:Ha0.
  - intros [= <- _ _]. eapply find_action_declared; eassumption.
  - destruct rest as [|c1 rest]; [discriminate|].
    destruct (split_equals (c :: c1 :: rest)) as [[before after]|].
    + destruct (find_action before) as [a1|] eqn:Ha1.
      * intros [= <- _ _]. eapply find_action_declared; eassumption.
      * destruct (get_option_tuples (c :: c1 :: rest)) as [|t [|t' l]] eqn:Ht.
        -- destruct (negative_number w _ && _); [discriminate|].
           destruct (existsb _ _); discriminate.
        -- intros [= ->]. eapply get_option_tuples_declared.
           rewrite Ht. now left.
        -- discriminate.
    + destruct (get_option_tuples (c :: c1 :: rest)) as [|t [|t' l]] eqn:Ht.
      * destruct (negative_number w _ && _); [discriminate|].
        destruct (existsb _ _); discriminate.
      * intros [= ->]. eapply get_option_tuples_declared.
        rewrite Ht. now left.
      * discriminate.
Qed.

Lemma parse_optional_exits (s : str) (e : exn) :
  parse_optional w s = Err e -> e = usage_error.
Proof.
  unfold parse_optional. destruct s as [|c rest]; [discriminate|].
  destruct (negb (N.eqb c DASH)); [discriminate|].
  destruct (find_action (c :: rest)) as [a0|]; [discriminate|].
  destruct rest as [|c1 rest]; [discriminate|].
  destruct (match split_equals (c :: c1 :: rest) with
            | Some (option_string, explicit_arg) =>
                match find_action option_string with
                | Some a => Some (Some a, option_string, Some explicit_arg)
                | None => None
                end
            | None => None
            end); [discriminate|].
  destruct (get_option_tuples (c :: c1 :: rest)) as [|t [|t' l]].
  - destruct (negative_number w _ && _); [discriminate|].
    destruct (existsb _ _); discriminate.
  - discriminate.
  - now intros [= <-].
Qed.

Lemma classify_declared : forall arg_strings pattern,
  classify w arg_strings = Ok pattern ->
  Forall (fun sk => declared (snd sk)) pattern
  /\ List.length pattern = List.length arg_strings.
Proof.
  induction arg_strings as [|s more IH]; intros pattern H; cbn [classify] in H.
  - injection H as <-. split; [constructor | reflexivity].
  - destruct (str_eqb s DASHES).
    + injection H as <-. split.
      * constructor; [exact I|]. apply Forall_forall. intros sk Hin.
        apply in_map_iff in Hin as (x & <- & _). exact I.
      * cbn. now rewrite length_map.
    + destruct (parse_optional w s) as [t|e] eqn:Ht; [|discriminate].
      cbn [rbind] in H.
      destruct (classify w more) as [rest|e]; [|discriminate].
      cbn [rbind] in H. injection H as <-.
      destruct (IH rest eq_refl) as [Hd Hl]. split.
      * constructor; [|exact Hd]. cbn [snd].
        destruct t as [[[[a|] o] e]|]; cbn; try exact I.
        eapply parse_optional_declared; eassumption.
      * cbn. now rewrite Hl.
Qed.

Lemma classify_exits : forall arg_strings e,
  classify w arg_strings = Err e -> e = usage_error.
Proof.
  induction arg_strings as [|s more IH]; intros e H; cbn [classify] in H.
  - discriminate.
  - destruct (str_eqb s DASHES); [discriminate|].
    destruct (parse_optional w s) as [t|e'] eqn:Ht.
    + cbn [rbind] in H. destruct (classify w more) as [rest|e'] eqn:Hc.
      * discriminate.
      * injection H as <-. now apply IH.
    + injection H as <-. eapply parse_optional_exits; eassumption.
Qed.

End Parsing.

(** *** What one option string stands for *)

Section Consuming.

Variable w : World.

Lemma match_following_spec (a : action) (following : list (str * arg_kind))
    (tuples : list (action * list str)) (n : nat) :
  In a parser_actions ->
  match_following a following = Ok (tuples, n) ->
  cluster tuples /\ n <= 1.
Proof.
  unfold match_following, cluster. intros Ha.
  destruct (takes_argument a) eqn:Et.
  - destruct following as [|[s [| |]] ?]; try discriminate.
    intros [= <- <-]. cbn. rewrite Et. cbn.
    repeat split; [constructor; [split; [assumption | cbn; lia]|constructor] | lia | lia].
  - intros [= <- <-]. cbn. rewrite Et. cbn.
    repeat split; [constructor; [split; [assumption | cbn; lia]|constructor] | lia | lia].
Qed.

Lemma match_following_exits (a : action) (following : list (str * arg_kind))
    (e : exn) :
  match_following a following = Err e -> e = usage_error.
Proof.
  unfold match_following. destruct (takes_argument a); [|discriminate].
  destruct following as [|[s [| |]] ?]; try discriminate; now intros [= <-].
Qed.

Lemma glued_spec : forall explicit_arg a option_string following tuples n,
  In a parser_actions ->
  glued a option_string explicit_arg following = Ok (tuples, n) ->
  cluster tuples /\ n <= 1.
Proof.
  induction explicit_arg as [|c more IH];
    intros a option_string following tuples n Ha H; cbn [glued] in H;
    destruct (takes_argument a) eqn:Et.
  - injection H as <- <-. unfold cluster. cbn. rewrite Et. cbn.
    repeat split; [constructor; [split; [assumption | cbn; lia]|constructor] | lia | lia].
  - discriminate.
  - injection H as <- <-. unfold cluster. cbn. rewrite Et. cbn.
    repeat split; [constructor; [split; [assumption | cbn; lia]|constructor] | lia | lia].
  - destruct (negb (N.eqb (nth 1 option_string DASH) DASH)); [|discriminate].
    destruct (find_action [hd DASH option_string; c]) as [a'|] eqn:Ha';
      [|discriminate].
    apply find_action_declared in Ha'.
    assert (Hmore : forall more_tuples n',
               cluster more_tuples /\ n' <= 1 ->
               cluster ((a, []) :: more_tuples) /\ n' <= 1).
    { intros more_tuples n' [[Hall Hcount] Hn]. unfold cluster. cbn.
      rewrite Et. repeat split; try assumption.
      constructor; [split; [assumption | cbn; lia] | assumption]. }
    destruct more as [|c' more'].
    + destruct (match_following a' following) as [[more_tuples n']|e] eqn:Hm;
        [|discriminate].
      cbn [rbind fst snd] in H. injection H as <- <-.
      apply Hmore. eapply match_following_spec; eassumption.
    + destruct (glued a' [hd DASH option_string; c] (c' :: more') following)
        as [[more_tuples n']|e] eqn:Hm; [|discriminate].
      cbn [rbind fst snd] in H. injection H as <- <-.
      apply Hmore. eapply IH; eassumption.
Qed.

Lemma glued_exits : forall explicit_arg a option_string following e,
  glued a option_string explicit_arg following = Err e -> e = usage_error.
Proof.
  induction explicit_arg as [|c more IH];
    intros a option_string following e H; cbn [glued] in H;
    destruct (takes_argument a); try discriminate.
  - now injection H as <-.
  - destruct (negb (N.eqb (nth 1 option_string DASH) DASH));
      [|now injection H as <-].
    destruct (find_action [hd DASH option_string; c]) as [a'|];
      [|now injection H as <-].
    destruct more as [|c' more'].
    + destruct (match_following a' following) as [[more_tuples n']|e'] eqn:Hm;
        [discriminate|].
      injection H as <-. eapply match_following_exits; eassumption.
    + destruct (glued a' [hd DASH option_string; c] (c' :: more') following)
        as [[more_tuples n']|e'] eqn:Hm; [discriminate|].
      injection H as <-. eapply IH; eassumption.
Qed.

Lemma consume_optional_spec (a : action) (o : str) (x : option str)
    (following : list (str * arg_kind)) (tuples : list (action * list str))
    (n : nat) :
  In a parser_actions ->
  consume_optional (a, o, x) following = Ok (tuples, n) ->
  cluster tuples /\ n <= 1.
Proof.
  unfold consume_optional. destruct x as [explicit_arg|].
  - apply glued_spec.
  - apply match_following_spec.
Qed.

Lemma consume_optional_exits (a : action) (o : str) (x : option str)
    (following : list (str * arg_kind)) (e : exn) :
  consume_optional (a, o, x) following = Err e -> e = usage_error.
Proof.
  unfold consume_optional. destruct x as [explicit_arg|].
  - apply glued_exits.
  - apply match_following_exits.
Qed.

(** *** What an action stores *)

Lemma get_values_spec (a : action) (args : list str) (v : pyval) :
  List.length args <= 1 -> get_values w a args = Ok v ->
  match act a with
  | StoreStr => (exists s, v = PyStr s) \/ v = PyList []
  | StoreInt => (exists z, v = PyInt z) \/ v = PyList []
  | _ => True
  end.
Proof.
  intros Hlen. unfold get_values.
  destruct args as [|x [|y args]]; [| |cbn in Hlen; lia]; cbn [remove_first].
  - cbn. intros [= <-]. destruct (act a); auto.
  - destruct (str_eqb x DASHES).
    + cbn. intros [= <-]. destruct (act a); auto.
    + unfold takes_argument, get_value. cbn [get_all_values].
      unfold get_value. destruct (act a); try (intros _; exact I).
      * intros [= <-]. left. eauto.
      * destruct (py_int w x) as [z|]; [|discriminate].
        intros [= <-]. left. eauto.
Qed.

Lemma get_values_exits (a : action) (args : list str) (e : exn) :
  get_values w a args = Err e -> e = usage_error.
Proof.
  assert (Hv : forall x e, get_value w a x = Err e -> e = usage_error).
  { intros x e'. unfold get_value. destruct (act a); try discriminate.
    destruct (py_int w x); [discriminate | now intros [= <-]]. }
  assert (Hall : forall l e, get_all_values w a l = Err e -> e = usage_error).
  { induction l as [|x l IH]; intros e' H; cbn in H; [discriminate|].
    destruct (get_value w a x) as [v|e''] eqn:Hx.
    - cbn in H. destruct (get_all_values w a l) as [vs|e''] eqn:Hl;
        [discriminate|]. injection H as <-. now apply IH.
    - injection H as <-. eapply Hv; eassumption. }
  unfold get_values.
  destruct (remove_first DASHES args) as [|x [|y l]].
  - cbn. discriminate.
  - destruct (takes_argument a).
    + apply Hv.
    + intros H. destruct (get_all_values w a [x]) as [vs|e'] eqn:Hl;
        [discriminate|]. injection H as <-. eapply Hall; eassumption.
  - intros H. destruct (get_all_values w a (x :: y :: l)) as [vs|e'] eqn:Hl;
      [discriminate|]. injection H as <-. eapply Hall; eassumption.
Qed.

Lemma take_action_spec (a : action) (args : list str) (ns : namespace)
    (seen : list string) (ns' : namespace) (seen' : list string) :
  List.length args <= 1 ->
  take_action w a args ns seen = Ok (ns', seen') ->
  exists v, stored_value a v /\ ns' = setattr ns (dest a) v
            /\ seen' = dest a :: seen.
Proof.
  intros Hlen. unfold take_action, stored_value.
  destruct (get_values w a args) as [v|e] eqn:Hv; [|discriminate].
  cbn [rbind]. apply get_values_spec in Hv; [|assumption].
  destruct (act a); try discriminate; intros [= <- <-].
  - now exists v.
  - now exists v.
  - now exists (PyBool true).
Qed.

Lemma take_action_exits (a : action) (args : list str) (ns : namespace)
    (seen : list string) (e : exn) :
  take_action w a args ns seen = Err e -> is_exit e = true.
Proof.
  unfold take_action.
  destruct (get_values w a args) as [v|e'] eqn:Hv.
  - cbn [rbind]. destruct (act a); try discriminate; now intros [= <-].
  - intros [= <-]. apply get_values_exits in Hv. now subst.
Qed.

Lemma take_actions_spec : forall tuples ns seen ns' seen',
  Forall (fun t => In (fst t) parser_actions /\ List.length (snd t) <= 1)
    tuples ->
  take_actions w tuples ns seen = Ok (ns', seen') ->
  exists steps,
    map fst steps = map fst tuples
    /\ Forall (fun s => stored_value (fst s) (snd s)) steps
    /\ ns' = after_stores steps ns
    /\ seen' = rev (map (fun s => dest (fst s)) steps) ++ seen.
Proof.
  induction tuples as [|[a args] tuples IH]; intros ns seen ns' seen' Hall H.
  - cbn in H. injection H as <- <-. exists []. now repeat split.
  - cbn [take_actions] in H. inversion Hall as [|? ? [_ Hlen] Hrest]; subst.
    destruct (take_action w a args ns seen) as [[ns1 seen1]|e] eqn:H1;
      [|discriminate].
    cbn [rbind fst snd] in H.
    apply take_action_spec in H1 as (v & Hv & -> & ->); [|exact Hlen].
    apply IH in H as (steps & Hmap & Hsteps & -> & ->); [|exact Hrest].
    exists ((a, v) :: steps). cbn. repeat split.
    + now rewrite Hmap.
    + now constructor.
    + now rewrite <- app_assoc.
Qed.

Lemma take_actions_exits : forall tuples ns seen e,
  take_actions w tuples ns seen = Err e -> is_exit e = true.
Proof.
  induction tuples as [|[a args] tuples IH]; intros ns seen e H.
  - discriminate.
  - cbn [take_actions] in H.
    destruct (take_action w a args ns seen) as [[ns1 seen1]|e'] eqn:H1.
    + eapply IH; eassumption.
    + injection H as <-. eapply take_action_exits; eassumption.
Qed.

Lemma required_takes_argument (a : action) :
  In a parser_actions -> required a = true -> takes_argument a = true.
Proof.
  intros Ha. simpl in Ha.
  repeat (destruct Ha as [<-|Ha]; [intros E; try reflexivity; discriminate E|]).
  destruct Ha.
Qed.

(** *** The whole parse as a sequence of stores *)

Lemma consume_trace : forall args skip ns seen extras ns' seen' extras',
  Forall (fun sk => declared (snd sk)) args ->
  consume w args skip ns seen extras = Ok (ns', seen', extras') ->
  exists steps,
    Forall (fun s => In (fst s) parser_actions /\ stored_value (fst s) (snd s))
      steps
    /\ ns' = after_stores steps ns
    /\ seen' = rev (map (fun s => dest (fst s)) steps) ++ seen
    /\ List.length (filter (fun s => required (fst s)) steps)
       <= List.length args.
Proof.
  induction args as [|[s kind] following IH];
    intros skip ns seen extras ns' seen' extras' Hd H.
  - cbn in H. injection H as <- <- _. exists []. cbn. now repeat split.
  - inversion Hd as [|? ? Hkind Hrest]; subst. cbn [snd] in Hkind.
    cbn [consume] in H.
    assert (Hnext : forall skip' extras0,
               consume w following skip' ns seen extras0
               = Ok (ns', seen', extras') ->
               exists steps,
                 Forall (fun s => In (fst s) parser_actions
                                  /\ stored_value (fst s) (snd s)) steps
                 /\ ns' = after_stores steps ns
                 /\ seen' = rev (map (fun s => dest (fst s)) steps) ++ seen
                 /\ List.length (filter (fun s => required (fst s)) steps)
                    <= List.length ((s, kind) :: following)).
    { intros skip' extras0 H0.
      apply IH in H0 as (steps & H1 & H2 & H3 & H4); [|exact Hrest].
      exists steps. cbn [List.length]. repeat split; try assumption. lia. }
    destruct skip as [|skip']; [|eapply Hnext; eassumption].
    destruct kind as [|[[[a|] o] x]|]; try (eapply Hnext; eassumption).
    cbn in Hkind.
    destruct (consume_optional (a, o, x) following) as [[tuples n]|e] eqn:Hc;
      [|discriminate].
    cbn [rbind fst snd] in H.
    apply consume_optional_spec in Hc as [[Hall Hcount] _]; [|exact Hkind].
    destruct (take_actions w tuples ns seen) as [[ns1 seen1]|e] eqn:Ht;
      [|discriminate].
    cbn [rbind fst snd] in H.
    apply take_actions_spec in Ht as (steps1 & Hmap & Hsteps1 & -> & ->);
      [|exact Hall].
    apply IH in H as (steps2 & Hsteps2 & -> & -> & Hlen); [|exact Hrest].
    assert (Hdecl1 : Forall (fun s => In (fst s) parser_actions) steps1).
    { apply Forall_forall. intros st Hin.
      assert (Hin' : In (fst st) (map fst tuples))
        by (rewrite <- Hmap; now apply in_map).
      apply in_map_iff in Hin' as (t & <- & Ht).
      rewrite Forall_forall in Hall. now apply Hall. }
    exists (steps1 ++ steps2). split; [|split; [|split]].
    + apply Forall_app. split; [|exact Hsteps2].
      rewrite Forall_forall in *. intros st Hin. split; auto.
    + unfold after_stores. now rewrite fold_left_app.
    + rewrite map_app, rev_app_distr, <- app_assoc. reflexivity.
    + rewrite filter_app, length_app. cbn [List.length].
      assert (Hone : List.length (filter (fun s => required (fst s)) steps1)
                     <= List.length
                          (filter (fun t => takes_argument (fst t)) tuples)).
      { clear - Hmap Hdecl1. revert tuples Hmap.
        induction steps1 as [|st steps1 IH1]; intros tuples Hmap.
        - cbn. lia.
        - destruct tuples as [|t tuples]; [discriminate|].
          cbn [map] in Hmap. injection Hmap as Hfst Hmap.
          inversion Hdecl1 as [|? ? Hst Hrest]; subst.
          specialize (IH1 Hrest tuples Hmap). cbn [filter].
          rewrite <- Hfst.
          destruct (required (fst st)) eqn:Er.
          + rewrite (@required_takes_argument _ Hst Er). cbn. lia.
          + destruct (takes_argument (fst st)); cbn; lia. }
      lia.
Qed.

Lemma consume_exits : forall args skip ns seen extras e,
  consume w args skip ns seen extras = Err e -> is_exit e = true.
Proof.
  induction args as [|[s kind] following IH];
    intros skip ns seen extras e H; [discriminate|].
  cbn [consume] in H.
  destruct skip as [|skip']; [|eapply IH; eassumption].
  destruct kind as [|[[[a|] o] x]|]; try (eapply IH; eassumption).
  destruct (consume_optional (a, o, x) following) as [[tuples n]|e'] eqn:Hc.
  - cbn [rbind fst snd] in H.
    destruct (take_actions w tuples ns seen) as [[ns1 seen1]|e'] eqn:Ht.
    + eapply IH; eassumption.
    + injection H as <-. eapply take_actions_exits; eassumption.
  - injection H as <-. apply consume_optional_exits in Hc. now subst.
Qed.

(** A parse that succeeds is a sequence of stores of declared actions on
    the initial namespace, among them one at least for each required
    action, and there are no more stores of required actions than there
    are argument strings. *)
Lemma parse_args_trace (arg_strings : list str) (ns : namespace) :
  parse_args w arg_strings = Ok ns ->
  exists steps,
    Forall (fun s => In (fst s) parser_actions /\ stored_value (fst s) (snd s))
      steps
    /\ ns = after_stores steps initial_namespace
    /\ (forall a, In a parser_actions -> required a = true ->
                  In a (map fst steps))
    /\ List.length (filter (fun s => required (fst s)) steps)
       <= List.length arg_strings.
Proof.
  unfold parse_args.
  destruct (classify w arg_strings) as [pattern|e] eqn:Hc; [|discriminate].
  cbn [rbind].
  destruct (consume w pattern 0 initial_namespace [] [])
    as [[[ns' seen] extras]|e] eqn:Hcons; [|discriminate].
  cbn [rbind].
  destruct (forallb _ parser_actions) eqn:F; [|discriminate].
  destruct extras; [|discriminate]. intros [= <-].
  apply classify_declared in Hc as [Hd Hl].
  apply consume_trace in Hcons as (steps & Hsteps & -> & -> & Hlen);
    [|exact Hd].
  exists steps. split; [exact Hsteps|]. split; [reflexivity|]. split.
  - intros a Ha Hr. rewrite forallb_forall in F. specialize (F a Ha).
    rewrite Hr in F. cbn [negb orb] in F.
    apply existsb_exists in F as (d & Hin & Ed). apply String.eqb_eq in Ed.
    rewrite app_nil_r in Hin. apply in_rev in Hin.
    apply in_map_iff in Hin as (st & Hdest & Hst).
    rewrite Forall_forall in Hsteps. destruct (Hsteps st Hst) as [Hdecl _].
    assert (fst st = a) by (apply dest_injective; congruence).
    subst a. now apply in_map.
  - now rewrite <- Hl.
Qed.

Lemma parse_args_exits (arg_strings : list str) (e : exn) :
  parse_args w arg_strings = Err e -> is_exit e = true.
Proof.
  unfold parse_args.
  destruct (classify w arg_strings) as [pattern|e'] eqn:Hc.
  - cbn [rbind].
    destruct (consume w pattern 0 initial_namespace [] [])
      as [[[ns' seen] extras]|e'] eqn:Hcons.
    + cbn [rbind]. destruct (forallb _ parser_actions).
      * destruct extras; [discriminate | now intros [= <-]].
      * now intros [= <-].
    + intros [= <-]. eapply consume_exits; eassumption.
  - intros [= <-]. apply classify_exits in Hc. now subst.
Qed.

End Consuming.

Lemma no_action_for (name : string) :
  name = "metadata"%string \/ name = "count_variants"%string ->
  forall a, In a parser_actions -> dest a <> name.
Proof.
  intros Hname a Hin. simpl in Hin.
  repeat (destruct Hin as [<-|Hin]; [destruct Hname; subst; discriminate|]).
  destruct Hin.
Qed.

Lemma after_stores_keeps (name : string) :
  (forall a, In a parser_actions -> dest a <> name) ->
  forall steps ns,
    Forall (fun s => In (fst s) parser_actions /\ stored_value (fst s) (snd s))
      steps ->
    getattr (after_stores steps ns) name = getattr ns name.
Proof.
  intros Hname. induction steps as [|s steps IH]; intros ns Hall;
    [reflexivity|].
  inversion Hall as [|? ? [Hs _] Hrest]; subst.
  cbn [after_stores fold_left]. fold (after_stores steps).
  change (fold_left (fun ns0 s0 => setattr ns0 (dest (fst s0)) (snd s0)) steps)
    with (after_stores steps).
  rewrite IH by exact Hrest. apply getattr_setattr_other. now apply Hname.
Qed.

Lemma parse_args_keeps (w : World) (name : string) (tokens : list str)
    (ns : namespace) :
  (forall a, In a parser_actions -> dest a <> name) ->
  parse_args w tokens = Ok ns ->
  getattr ns name = getattr initial_namespace name.
Proof.
  intros Hname H. apply parse_args_trace in H as (steps & Hsteps & -> & _).
  now apply after_stores_keeps.
Qed.

Lemma run_needs_metadata (w : World) (args : namespace) (st : state)
    (e : exn) :
  getattr args "metadata" = Err e ->
  fst (extract_from_sanger w args st) <> Ok tt.
Proof.
  intros Hattr Hok.
  destruct (extract_from_sanger w args st) as [r st'] eqn:E. simpl in Hok.
  subst r. apply run_ok_prepared in E as (p & s & Hp).
  apply prepare_ok in Hp as (metadata & Hm & _). congruence.
Qed.

(** C2, where the code departs from it.  The parser [main] builds declares
    neither metadata paths nor a variant-count toggle.  Whatever the
    arguments, a namespace it returns has no [metadata] and no
    [count_variants] attribute, so the core, which reads both, cannot
    complete on it, and no call of [main] succeeds. *)
Theorem command_line_omits_metadata_and_count (w : World) (tokens : list str)
    (ns : namespace) :
  parse_args w tokens = Ok ns ->
  getattr ns "metadata" = Err (AttributeError "metadata")
  /\ getattr ns "count_variants" = Err (AttributeError "count_variants")
  /\ getattr ns "func" = Ok (PyFunc "extract_from_sanger")
  /\ (forall w' st, fst (extract_from_sanger w' ns st) <> Ok tt)
  /\ (forall program st, fst (main w (program :: tokens) st) <> Ok tt).
Proof.
  intros Hparse.
  assert (Hm : getattr ns "metadata" = Err (AttributeError "metadata")).
  { rewrite (parse_args_keeps (name := "metadata") w tokens); auto.
    apply no_action_for. now left. }
  assert (Hc : getattr ns "count_variants"
               = Err (AttributeError "count_variants")).
  { rewrite (parse_args_keeps (name := "count_variants") w tokens); auto.
    apply no_action_for. now right. }
  assert (Hf : getattr ns "func" = Ok (PyFunc "extract_from_sanger")).
  { rewrite (parse_args_keeps (name := "func") w tokens); auto.
    intros a Hin. simpl in Hin.
    repeat (destruct Hin as [<-|Hin]; [discriminate|]). destruct Hin. }
  repeat split; try assumption.
  - intros w' st.
    now apply run_needs_metadata with (e := AttributeError "metadata").
  - intros program st. unfold main. cbn [tl].
    unfold bind at 1, lift at 1. rewrite Hparse.
    destruct (1 <? List.length (program :: tokens))%nat; [|simpl; discriminate].
    unfold bind at 1, lift at 1. rewrite Hf.
    now apply run_needs_metadata with (e := AttributeError "metadata").
Qed.

Lemma command_line_omits_metadata_and_count_witness :
  (forall w,
     parse_args w
       [py "-tb"; py "T1.bam.bas"; py "-nb"; py "N1.bam.bas";
        py "-rt"; py "pair.tar.gz"; py "-o"; py "out.tar.gz"]
     = Ok [ ("tumour_bas"%string, PyStr (py "T1.bam.bas"));
            ("normal_bas"%string, PyStr (py "N1.bam.bas"));
            ("variant_call_tar"%string, PyStr (py "pair.tar.gz"));
            ("output_tar"%string, PyStr (py "out.tar.gz"));
            ("genome_size"%string, GRCh37);
            ("debug"%string, PyBool false);
            ("func"%string, PyFunc "extract_from_sanger") ])
  /\ (forall w,
        parse_args w
          [py "-tb"; py "T1.bam.bas"; py "-nb"; py "N1.bam.bas";
           py "-rt"; py "pair.tar.gz"; py "-o"; py "out.tar.gz";
           py "--metadata"; py "meta.tsv"]
        = Err usage_error)
  /\ forall w st,
       fst (main w
              [py "ppcg-qc-from-sanger";
               py "-tb"; py "T1.bam.bas"; py "-nb"; py "N1.bam.bas";
               py "-rt"; py "pair.tar.gz"; py "-o"; py "out.tar.gz"] st)
       <> Ok tt.
Proof.
  split; [reflexivity | split; [reflexivity|]].
  intros w st.
  apply (@command_line_omits_metadata_and_count w
           [py "-tb"; py "T1.bam.bas"; py "-nb"; py "N1.bam.bas";
            py "-rt"; py "pair.tar.gz"; py "-o"; py "out.tar.gz"] _ eq_refl).
Defined.


(** * Further properties of the code *)

(** ** The name filters of the three locators *)

Lemma dot_run (s : str) : forallb dot s = true <-> ~ In LF s.
Proof.
  induction s as [|c s IH]; simpl; [tauto|].
  rewrite andb_true_iff, IH. unfold dot. rewrite negb_true_iff, N.eqb_neq.
  intuition congruence.
Qed.

(** A pattern [.+<suffix>$] accepts the names made of a stem that is not
    empty and holds no line break, the suffix, and at most a final line
    break. *)
Lemma suffix_pattern_spec (c : N) (suffix : str) (name : str) :
  is_match ([Plus false dot] ++ map Chr (c :: suffix) ++ [Eol]) name = true
  <-> exists stem tail,
        name = stem ++ (c :: suffix) ++ tail /\ stem <> [] /\ ~ In LF stem
        /\ (tail = [] \/ tail = [LF]).
Proof.
  unfold is_match, re_match. cbn [app re_run]. split.
  - intros H.
    destruct (plus_greedy dot
                (fun _ rest => re_run (map Chr (c :: suffix) ++ [Eol]) false rest [])
                [] name) as [gs|] eqn:E; [|discriminate].
    apply plus_greedy_some in E as (stem & b & -> & Hstem & Hdot & Hk & _).
    apply re_run_chars_inv in Hk as (tail & -> & Hk).
    cbn [re_run] in Hk. destruct (at_end tail) eqn:Hend; [|discriminate].
    exists stem, tail. repeat split; try assumption.
    + now apply dot_run.
    + now apply at_end_tail.
  - intros (stem & tail & -> & Hstem & Hdot & Htail).
    match goal with
    | |- match ?x with _ => _ end = true =>
        destruct x eqn:E; [reflexivity | exfalso]
    end.
    revert E.
    apply plus_greedy_finds with (a := stem) (b := (c :: suffix) ++ tail);
      try assumption; [reflexivity | now apply dot_run |].
    rewrite re_run_chars. cbn [re_run].
    apply at_end_tail in Htail. rewrite Htail. discriminate.
Qed.

(** X1.  The statistics-file filter [.+\.bam\.bas$] and the metadata filter
    [.+\.tsv$] accept exactly the names made of a stem that is not empty and
    holds no line break, then the suffix, then at most one final line
    break. *)
Theorem suffix_filters_accept (name : str) :
  (is_match BAS_PATTERN name = true
   <-> exists stem tail,
         name = stem ++ py ".bam.bas" ++ tail /\ stem <> [] /\ ~ In LF stem
         /\ (tail = [] \/ tail = [LF]))
  /\ (is_match TSV_PATTERN name = true
      <-> exists stem tail,
            name = stem ++ py ".tsv" ++ tail /\ stem <> [] /\ ~ In LF stem
            /\ (tail = [] \/ tail = [LF])).
Proof.
  split.
  - change BAS_PATTERN
      with ([Plus false dot]
              ++ map Chr (46 :: [98; 97; 109; 46; 98; 97; 115])%N ++ [Eol]).
    apply suffix_pattern_spec.
  - change TSV_PATTERN
      with ([Plus false dot] ++ map Chr (46 :: [116; 115; 118])%N ++ [Eol]).
    apply suffix_pattern_spec.
Qed.

(** X2.  The archive filter [\.tar.gz$] of the directory scan accepts
    exactly the names [.tar], one character that is no line break, [gz], and
    at most one final line break: seven or eight characters, with nothing
    before the first dot. *)
Theorem archive_filter_accepts (name : str) :
  is_match TAR_PATTERN name = true
  <-> exists c tail,
        name = py ".tar" ++ [c] ++ py "gz" ++ tail /\ c <> LF
        /\ (tail = [] \/ tail = [LF]).
Proof.
  split.
  - unfold is_match, re_match, TAR_PATTERN.
    change (lit ".tar") with (map Chr (46 :: [116; 97; 114])%N).
    intros H.
    match type of H with
    | match ?x with _ => _ end = true => destruct x as [gs|] eqn:E;
                                          [|discriminate]
    end.
    apply re_run_chars_inv in E as (s1 & -> & E).
    destruct s1 as [|c s2]; [discriminate|]. cbn [app re_run] in E.
    destruct (dot c) eqn:Hc; [|discriminate].
    change (lit "gz") with (map Chr (103 :: [122])%N) in E.
    apply re_run_chars_inv in E as (tail & -> & E).
    cbn [re_run] in E. destruct (at_end tail) eqn:Hend; [|discriminate].
    exists c, tail. repeat split.
    + unfold dot in Hc. now apply negb_true_iff, N.eqb_neq in Hc.
    + now apply at_end_tail.
  - intros (c & tail & -> & Hc & Htail).
    unfold is_match, re_match, TAR_PATTERN.
    change (lit ".tar") with (map Chr (46 :: [116; 97; 114])%N).
    change (py ".tar") with (46 :: [116; 97; 114])%N.
    rewrite re_run_chars. cbn [app re_run].
    unfold dot. apply N.eqb_neq in Hc. rewrite Hc. cbn [negb].
    change (lit "gz") with (map Chr (103 :: [122])%N).
    change (py "gz" ++ tail) with ((103 :: [122])%N ++ tail).
    rewrite re_run_chars. cbn [re_run].
    apply at_end_tail in Htail. now rewrite Htail.
Qed.

(** ** The locators as concatenations *)

Section Concatenation.

Variable w : World.

Lemma bas_entries_shift (entries : list str) : forall to_return,
  bas_entries w entries to_return
  = match bas_entries w entries [] with
    | Ok found => Ok (to_return ++ found)
    | Err e => Err e
    end.
Proof.
  induction entries as [|a_file entries IH]; intros to_return; simpl.
  - now rewrite app_nil_r.
  - destruct (negb (isdir w a_file) && is_match BAS_PATTERN a_file); [|apply IH].
    destruct (validate_bas w a_file); [|reflexivity]. cbn [rbind].
    rewrite (IH (to_return ++ [get_abs_path w a_file])),
      (IH [get_abs_path w a_file]).
    destruct (bas_entries w entries []); [|reflexivity].
    now rewrite <- !app_assoc.
Qed.

Lemma bas_paths_shift (input_abs : list str) : forall to_return,
  bas_paths w input_abs to_return
  = match bas_paths w input_abs [] with
    | Ok found => Ok (to_return ++ found)
    | Err e => Err e
    end.
Proof.
  induction input_abs as [|path more IH]; intros to_return; simpl.
  - now rewrite app_nil_r.
  - destruct (check_file_exists w path); [|reflexivity]. cbn [rbind].
    destruct (isdir w path).
    + destruct (listdir w path) as [entries|e]; [|reflexivity]. cbn [rbind].
      rewrite (bas_entries_shift entries to_return).
      destruct (bas_entries w entries []) as [found|e]; [|reflexivity].
      cbn [rbind]. rewrite (IH (to_return ++ found)), (IH found).
      destruct (bas_paths w more []); [|reflexivity].
      now rewrite <- app_assoc.
    + destruct (validate_bas w path); [|reflexivity]. cbn [rbind].
      rewrite (IH (to_return ++ [get_abs_path w path])),
        (IH [get_abs_path w path]).
      destruct (bas_paths w more []); [|reflexivity].
      now rewrite <- !app_assoc.
Qed.

Lemma bas_paths_app (a b : list str) : forall to_return,
  bas_paths w (a ++ b) to_return
  = match bas_paths w a to_return with
    | Ok found => bas_paths w b found
    | Err e => Err e
    end.
Proof.
  induction a as [|path a IH]; intros to_return; simpl; [reflexivity|].
  destruct (check_file_exists w path); [|reflexivity]. cbn [rbind].
  destruct (isdir w path).
  - destruct (listdir w path) as [entries|e]; [|reflexivity]. cbn [rbind].
    destruct (bas_entries w entries to_return); [|reflexivity].
    cbn [rbind]. apply IH.
  - destruct (validate_bas w path); [|reflexivity]. cbn [rbind]. apply IH.
Qed.

Lemma bas_entries_closed (entries : list str) :
  (forall e, In e entries -> entry_filter w BAS_PATTERN e = true ->
             validate_bas w e = Ok tt) ->
  forall to_return,
    bas_entries w entries to_return
    = Ok (to_return
            ++ map (get_abs_path w)
                 (filter (entry_filter w BAS_PATTERN) entries)).
Proof.
  induction entries as [|a_file entries IH]; intros H to_return; simpl.
  - now rewrite app_nil_r.
  - fold (entry_filter w BAS_PATTERN a_file).
    destruct (entry_filter w BAS_PATTERN a_file) eqn:E.
    + rewrite (H a_file (or_introl eq_refl) E). cbn [rbind map].
      rewrite IH by (intros e He; apply H; now right).
      now rewrite <- app_assoc.
    + apply IH. intros e He. apply H. now right.
Qed.

Lemma tar_entries_closed (entries : list str) : forall to_return,
  tar_entries w entries to_return
  = to_return
      ++ map (get_abs_path w) (filter (entry_filter w TAR_PATTERN) entries).
Proof.
  induction entries as [|a_file entries IH]; intros to_return; simpl.
  - now rewrite app_nil_r.
  - fold (entry_filter w TAR_PATTERN a_file).
    destruct (entry_filter w TAR_PATTERN a_file); [|apply IH].
    rewrite IH. cbn [map]. now rewrite <- app_assoc.
Qed.

Lemma meta_entries_closed (entries : list str) : forall to_return,
  meta_entries w entries to_return
  = to_return
      ++ map (get_abs_path w) (filter (entry_filter w TSV_PATTERN) entries).
Proof.
  induction entries as [|a_file entries IH]; intros to_return; simpl.
  - now rewrite app_nil_r.
  - fold (entry_filter w TSV_PATTERN a_file).
    destruct (entry_filter w TSV_PATTERN a_file); [|apply IH].
    rewrite IH. cbn [map]. now rewrite <- app_assoc.
Qed.

Lemma tar_paths_app (a b : list str) : forall to_return,
  tar_paths w (a ++ b) to_return
  = match tar_paths w a to_return with
    | Ok found => tar_paths w b found
    | Err e => Err e
    end.
Proof.
  induction a as [|path a IH]; intros to_return; simpl; [reflexivity|].
  destruct (check_file_exists w path); [|reflexivity]. cbn [rbind].
  destruct (isdir w path).
  - destruct (listdir w path) as [entries|e]; [|reflexivity]. apply IH.
  - destruct (validate_tar_name w path); [|reflexivity]. cbn [rbind].
    apply IH.
Qed.

Lemma meta_paths_app (a b : list str) : forall to_return,
  meta_paths w (a ++ b) to_return
  = match meta_paths w a to_return with
    | Ok found => meta_paths w b found
    | Err e => Err e
    end.
Proof.
  induction a as [|path a IH]; intros to_return; simpl; [reflexivity|].
  destruct (check_file_exists w path); [|reflexivity]. cbn [rbind].
  destruct (isdir w path); [|apply IH].
  destruct (listdir w path) as [entries|e]; [|reflexivity]. apply IH.
Qed.

Lemma tar_paths_closed (input : list str) :
  (forall p, In p input ->
             check_file_exists w p = Ok tt /\ listable w p
             /\ (isdir w p = false -> validate_tar_name w p = Ok tt)) ->
  forall to_return,
    tar_paths w input to_return
    = Ok (to_return ++ flat_map (contribution w TAR_PATTERN) input).
Proof.
  induction input as [|path more IH]; intros H to_return; simpl.
  - now rewrite app_nil_r.
  - destruct (H path (or_introl eq_refl)) as (Hexists & Hlist & Hname).
    rewrite Hexists. cbn [rbind]. unfold contribution at 1, listed.
    unfold listable in Hlist. destruct (isdir w path).
    + destruct (Hlist eq_refl) as [entries ->]. cbn [rbind].
      rewrite tar_entries_closed, IH by (intros p Hp; apply H; now right).
      now rewrite <- app_assoc.
    + rewrite (Hname eq_refl). cbn [rbind].
      rewrite IH by (intros p Hp; apply H; now right).
      now rewrite <- app_assoc.
Qed.

Lemma meta_paths_closed (input : list str) :
  (forall p, In p input -> check_file_exists w p = Ok tt /\ listable w p) ->
  forall to_return,
    meta_paths w input to_return
    = Ok (to_return ++ flat_map (contribution w TSV_PATTERN) input).
Proof.
  induction input as [|path more IH]; intros H to_return; simpl.
  - now rewrite app_nil_r.
  - destruct (H path (or_introl eq_refl)) as [Hexists Hlist].
    rewrite Hexists. cbn [rbind].
    unfold contribution at 1, listed. unfold listable in Hlist.
    destruct (isdir w path).
    + destruct (Hlist eq_refl) as [entries ->]. cbn [rbind].
      rewrite meta_entries_closed, IH by (intros p Hp; apply H; now right).
      now rewrite <- app_assoc.
    + rewrite IH by (intros p Hp; apply H; now right).
      now rewrite <- app_assoc.
Qed.

Lemma bas_paths_closed (input : list str) :
  (forall p, In p input ->
             check_file_exists w p = Ok tt /\ listable w p
             /\ (isdir w p = false -> validate_bas w p = Ok tt)
             /\ (isdir w p = true ->
                 forall e, In e (listed w p) ->
                           entry_filter w BAS_PATTERN e = true ->
                           validate_bas w e = Ok tt)) ->
  forall to_return,
    bas_paths w input to_return
    = Ok (to_return ++ flat_map (contribution w BAS_PATTERN) input).
Proof.
  induction input as [|path more IH]; intros H to_return; simpl.
  - now rewrite app_nil_r.
  - destruct (H path (or_introl eq_refl)) as (Hexists & Hlist & Hfile & Hdir).
    rewrite Hexists. cbn [rbind]. unfold contribution at 1.
    unfold listed in Hdir |- *. unfold listable in Hlist.
    destruct (isdir w path).
    + destruct (Hlist eq_refl) as [entries Hentries].
      rewrite Hentries in Hdir |- *. cbn [rbind].
      rewrite bas_entries_closed by (apply Hdir; reflexivity). cbn [rbind].
      rewrite IH by (intros p Hp; apply H; now right).
      now rewrite <- app_assoc.
    + rewrite (Hfile eq_refl). cbn [rbind].
      rewrite IH by (intros p Hp; apply H; now right).
      now rewrite <- app_assoc.
Qed.

End Concatenation.

(** X3.  [get_all_bas] works through its input from left to right: on a
    concatenated input it returns the concatenation of the two results, a
    failure in the first part is the failure of the whole, and otherwise a
    failure in the second part is. *)
Theorem get_all_bas_concatenates (w : World) (a b : list str) :
  get_all_bas w (a ++ b)
  = match get_all_bas w a with
    | Err e => Err e
    | Ok found_a =>
        match get_all_bas w b with
        | Err e => Err e
        | Ok found_b => Ok (found_a ++ found_b)
        end
    end.
Proof.
  unfold get_all_bas. rewrite bas_paths_app.
  destruct (bas_paths w a []) as [found_a|e]; [|reflexivity].
  apply bas_paths_shift.
Qed.

(** X4.  When every given path exists, every directory among them can be
    listed, every path given as a file passes [validate_bas] and so does
    every directory entry that passes the scan's test, [get_all_bas] returns, in input order, for each file its absolute
    path and for each directory the absolute paths that [get_abs_path] makes
    of the bare names of its entries that pass the test. *)
Theorem get_all_bas_closed_form (w : World) (input : list str) :
  (forall p, In p input ->
             check_file_exists w p = Ok tt /\ listable w p
             /\ (isdir w p = false -> validate_bas w p = Ok tt)
             /\ (isdir w p = true ->
                 forall e, In e (listed w p) ->
                           entry_filter w BAS_PATTERN e = true ->
                           validate_bas w e = Ok tt)) ->
  get_all_bas w input = Ok (flat_map (contribution w BAS_PATTERN) input).
Proof. intros H. unfold get_all_bas. now rewrite bas_paths_closed. Qed.

Lemma get_all_bas_closed_form_witness :
  get_all_bas lab [py "N1.bam.bas"; py "/data/plain"; py "/data/bas";
                   py "T1.bam.bas"]
  = Ok [py "/work/N1.bam.bas"; py "/work/sub.bam.bas"; py "/work/T1.bam.bas"].
Proof.
  apply (@get_all_bas_closed_form lab
           [py "N1.bam.bas"; py "/data/plain"; py "/data/bas";
            py "T1.bam.bas"]).
  intros p [<-|[<-|[<-|[<-|[]]]]]; (split; [reflexivity|]);
    (split; [intros Hd;
             first [eexists; reflexivity | vm_compute in Hd; discriminate Hd]|]);
    split; try reflexivity; try discriminate.
  - intros _ e [<-|[<-|[]]]; discriminate.
  - intros _ e [<-|[]]; reflexivity.
Defined.

(** X5.  [get_all_meta] checks nothing but the existence of the given
    paths.  When they all exist and every directory among them can be listed
    it returns, in input order, each file given directly, whatever its name,
    and for each directory the absolute paths made of the bare names of the
    entries that pass the [.tsv] test.  It fails with the error of the first
    path that [check_file_exists] refuses or that is a directory
    [os.listdir] cannot list, and in no other way. *)
Theorem get_all_meta_closed_form (w : World) (input : list str) :
  ((forall p, In p input -> check_file_exists w p = Ok tt /\ listable w p) ->
   get_all_meta w input = Ok (flat_map (contribution w TSV_PATTERN) input))
  /\ (forall pre p post e,
        input = pre ++ p :: post ->
        (forall q, In q pre -> check_file_exists w q = Ok tt /\ listable w q) ->
        check_file_exists w p = Err e
        \/ (check_file_exists w p = Ok tt /\ isdir w p = true
            /\ listdir w p = Err e) ->
        get_all_meta w input = Err e)
  /\ (forall e, get_all_meta w input = Err e ->
                exists p,
                  In p input
                  /\ (check_file_exists w p = Err e
                      \/ (check_file_exists w p = Ok tt /\ isdir w p = true
                          /\ listdir w p = Err e))).
Proof.
  split; [|split].
  - intros H. unfold get_all_meta. now rewrite meta_paths_closed.
  - intros pre p post e -> Hpre Hp. unfold get_all_meta.
    rewrite meta_paths_app, meta_paths_closed by assumption.
    simpl. destruct Hp as [Hp|(Hexists & Hdir & Hlist)].
    + now rewrite Hp.
    + now rewrite Hexists, Hdir, Hlist.
  - unfold get_all_meta. generalize (@nil str).
    induction input as [|path more IH]; intros to_return e H; simpl in H;
      [discriminate|].
    destruct (check_file_exists w path) as [[]|e'] eqn:E.
    + cbn [rbind] in H. destruct (isdir w path) eqn:Hdir.
      * destruct (listdir w path) as [entries|e'] eqn:Hlist.
        -- apply IH in H as (p & Hp & Hc).
           exists p. split; [now right | assumption].
        -- injection H as <-. exists path. split; [now left|]. right.
           now repeat split.
      * apply IH in H as (p & Hp & Hc).
        exists p. split; [now right | assumption].
    + injection H as <-. exists path. split; [now left | now left].
Qed.

Lemma get_all_meta_closed_form_witness :
  get_all_meta lab [py "notes.txt"; py "/data/plain"]
  = Ok [py "/work/notes.txt"]
  /\ get_all_meta lab [py "notes.txt"; py "/data/locked"; py "/data/plain"]
     = Err (OSError (py "[Errno 13] Permission denied")).
Proof.
  destruct (get_all_meta_closed_form lab [py "notes.txt"; py "/data/plain"])
    as [H1 _].
  destruct (get_all_meta_closed_form lab
              [py "notes.txt"; py "/data/locked"; py "/data/plain"])
    as (_ & H2 & _).
  split.
  - apply H1. intros p [<-|[<-|[]]]; (split; [reflexivity|]); intros Hd;
      [discriminate Hd | eexists; reflexivity].
  - apply (H2 [py "notes.txt"] (py "/data/locked") [py "/data/plain"]).
    + reflexivity.
    + intros q [<-|[]]. split; [reflexivity|]. intros Hd. discriminate Hd.
    + right. repeat split.
Defined.

(** X6.  [get_all_variant_call_tar] validates the names of the paths given
    as files and never those of directory entries.  When every path exists,
    every directory among them can be listed and every path given as a file
    passes [validate_tar_name] it returns, in input order, each such file
    and for each directory the absolute paths made of the bare names of its
    entries that pass the test; every path a directory contributes is made
    of a name [.tar?gz]; and the first path that does not exist, is a file
    whose name is refused, or is a directory that cannot be listed, gives
    the error. *)
Theorem get_all_variant_call_tar_closed_form (w : World) (input : list str) :
  ((forall p, In p input ->
              check_file_exists w p = Ok tt /\ listable w p
              /\ (isdir w p = false -> validate_tar_name w p = Ok tt)) ->
   get_all_variant_call_tar w input
   = Ok (flat_map (contribution w TAR_PATTERN) input))
  /\ (forall p x,
        isdir w p = true -> In x (contribution w TAR_PATTERN p) ->
        exists c tail,
          x = get_abs_path w (py ".tar" ++ [c] ++ py "gz" ++ tail)
          /\ c <> LF /\ (tail = [] \/ tail = [LF]))
  /\ (forall pre p post e,
        input = pre ++ p :: post ->
        (forall q, In q pre ->
                   check_file_exists w q = Ok tt /\ listable w q
                   /\ (isdir w q = false -> validate_tar_name w q = Ok tt)) ->
        check_file_exists w p = Err e
        \/ (check_file_exists w p = Ok tt /\ isdir w p = false
            /\ validate_tar_name w p = Err e)
        \/ (check_file_exists w p = Ok tt /\ isdir w p = true
            /\ listdir w p = Err e) ->
        get_all_variant_call_tar w input = Err e).
Proof.
  split; [|split].
  - intros H. unfold get_all_variant_call_tar. now rewrite tar_paths_closed.
  - intros p x Hdir Hx. unfold contribution in Hx. rewrite Hdir in Hx.
    apply in_map_iff in Hx as (name & <- & Hname).
    apply filter_In in Hname as [_ Hname]. unfold entry_filter in Hname.
    apply andb_true_iff in Hname as [_ Hname].
    apply archive_filter_accepts in Hname as (c & tail & -> & Hc & Htail).
    now exists c, tail.
  - intros pre p post e -> Hpre Hp. unfold get_all_variant_call_tar.
    rewrite tar_paths_app, tar_paths_closed by assumption. simpl.
    destruct Hp as [Hp|[(Hexists & Hdir & Hname)|(Hexists & Hdir & Hlist)]].
    + now rewrite Hp.
    + rewrite Hexists, Hdir. cbn [rbind]. now rewrite Hname.
    + now rewrite Hexists, Hdir, Hlist.
Qed.

Lemma get_all_variant_call_tar_closed_form_witness :
  get_all_variant_call_tar lab [py "pair.tar.gz"; py "/data/calls"]
  = Ok [py "/work/pair.tar.gz"]
  /\ get_all_variant_call_tar lab [py "/data/calls"; py "pair.zip"]
     = Err (Raised (py "not a .tar.gz name")).
Proof.
  destruct (get_all_variant_call_tar_closed_form lab
              [py "pair.tar.gz"; py "/data/calls"]) as (H1 & _ & _).
  destruct (get_all_variant_call_tar_closed_form lab
              [py "/data/calls"; py "pair.zip"]) as (_ & _ & H3).
  split.
  - apply H1. intros p [<-|[<-|[]]]; (split; [reflexivity|]);
      (split; [intros Hd;
               first [eexists; reflexivity
                     | vm_compute in Hd; discriminate Hd]|]);
      try reflexivity; discriminate.
  - apply (H3 [py "/data/calls"] (py "pair.zip") []).
    + reflexivity.
    + intros q [<-|[]]. split; [reflexivity|].
      split; [intros _; eexists; reflexivity | discriminate].
    + right. left. repeat split.
Defined.

(** ** Dictionaries filled by a loop *)

Section DictFacts.

Variables (K V : Type) (keq : K -> K -> bool).
Hypothesis keq_spec : forall a b, keq a b = true <-> a = b.

Lemma keq_refl (k : K) : keq k k = true.
Proof. now apply keq_spec. Qed.

Lemma keq_neq (a b : K) : a <> b -> keq a b = false.
Proof.
  intros H. destruct (keq a b) eqn:E; [|reflexivity].
  apply keq_spec in E. contradiction.
Qed.

Lemma dict_get_set_same (d : dict K V) (k : K) (v : V) :
  dict_get keq (dict_set keq d k v) k = Some v.
Proof.
  induction d as [|[k' v'] d IH]; simpl.
  - now rewrite keq_refl.
  - destruct (keq k' k) eqn:E; simpl; rewrite E; [reflexivity | exact IH].
Qed.

Lemma dict_get_set_other (d : dict K V) (k k' : K) (v : V) :
  k <> k' -> dict_get keq (dict_set keq d k v) k' = dict_get keq d k'.
Proof.
  intros Hk. induction d as [|[k0 v0] d IH]; simpl.
  - now rewrite keq_neq.
  - destruct (keq k0 k) eqn:E; simpl.
    + apply keq_spec in E. subst k0. now rewrite keq_neq.
    + destruct (keq k0 k'); [reflexivity | exact IH].
Qed.

Lemma keys_set (d : dict K V) (k : K) (v : V) :
  (In k (keys d) /\ keys (dict_set keq d k v) = keys d)
  \/ (~ In k (keys d) /\ keys (dict_set keq d k v) = keys d ++ [k]).
Proof.
  induction d as [|[k' v'] d IH]; simpl.
  - right. split; [tauto | reflexivity].
  - destruct (keq k' k) eqn:E; simpl.
    + apply keq_spec in E. subst. left. split; [now left | reflexivity].
    + assert (k' <> k) by (intros ->; now rewrite keq_refl in E).
      destruct IH as [[Hin Hk]|[Hout Hk]].
      * left. split; [now right | now rewrite Hk].
      * right. split; [intros [|]; contradiction | now rewrite Hk].
Qed.

Lemma In_keys_set (d : dict K V) (k k' : K) (v : V) :
  In k' (keys (dict_set keq d k v)) <-> k' = k \/ In k' (keys d).
Proof.
  destruct (keys_set d k v) as [[Hin ->]|[Hout ->]].
  - split; [now right | intros [->|]; assumption].
  - rewrite in_app_iff. simpl. intuition.
Qed.

Lemma NoDup_keys_set (d : dict K V) (k : K) (v : V) :
  NoDup (keys d) -> NoDup (keys (dict_set keq d k v)).
Proof.
  intros H. destruct (keys_set d k v) as [[Hin ->]|[Hout ->]]; [assumption|].
  apply NoDup_app; [assumption | repeat constructor; intros [] |].
  intros x Hx [<-|[]]. contradiction.
Qed.

Lemma length_set (d : dict K V) (k : K) (v : V) :
  List.length (dict_set keq d k v) <= S (List.length d).
Proof.
  induction d as [|[k' v'] d IH]; simpl; [lia|].
  destruct (keq k' k); simpl; lia.
Qed.

Lemma dict_get_In (d : dict K V) (k : K) :
  In k (keys d) -> exists v, dict_get keq d k = Some v.
Proof.
  induction d as [|[k' v'] d IH]; simpl; [tauto|].
  intros [->|Hin].
  - rewrite keq_refl. eauto.
  - destruct (keq k' k); eauto.
Qed.

End DictFacts.

Section Indexing.

Variables (K : Type) (keq : K -> K -> bool) (key : str -> result K).
Hypothesis keq_spec : forall a b, keq a b = true <-> a = b.

Lemma index_by_keeps (items : list str) : forall d d' k v,
  index_by keq key items d = Ok d' ->
  dict_get keq d k = Some v ->
  (forall x, In x items -> key x <> Ok k) ->
  dict_get keq d' k = Some v.
Proof.
  induction items as [|x items IH]; intros d d' k v H Hget Hnone; simpl in H.
  - now injection H as <-.
  - destruct (key x) as [kx|e] eqn:E; [|discriminate]. cbn [rbind] in H.
    apply (IH _ _ k v H).
    + rewrite dict_get_set_other; [assumption | assumption |].
      intros ->. now apply (Hnone x (or_introl eq_refl)).
    + intros y Hy. apply Hnone. now right.
Qed.

Lemma index_by_last (items : list str) : forall d d' pre x post k,
  index_by keq key items d = Ok d' ->
  items = pre ++ x :: post ->
  key x = Ok k ->
  (forall y, In y post -> key y <> Ok k) ->
  dict_get keq d' k = Some x.
Proof.
  intros d d' pre. revert items d d'.
  induction pre as [|p pre IH]; intros items d d' x post k H -> Hx Hpost;
    simpl in H.
  - rewrite Hx in H. cbn [rbind] in H.
    apply (index_by_keeps _ _ H); [|assumption].
    now apply dict_get_set_same.
  - destruct (key p) as [kp|e]; [|discriminate]. cbn [rbind] in H.
    now apply (IH _ _ _ x post k H).
Qed.

Lemma index_by_keys (items : list str) : forall d d',
  index_by keq key items d = Ok d' ->
  (NoDup (keys d) -> NoDup (keys d'))
  /\ (forall k, In k (keys d')
                <-> In k (keys d) \/ exists x, In x items /\ key x = Ok k)
  /\ List.length d' <= List.length d + List.length items
  /\ forall x, In x items -> exists k, key x = Ok k.
Proof.
  induction items as [|x items IH]; intros d d' H; simpl in H.
  - injection H as <-. repeat split; auto.
    + intros [|(x & [] & _)]; assumption.
    + simpl. lia.
    + intros x [].
  - destruct (key x) as [kx|e] eqn:E; [|discriminate]. cbn [rbind] in H.
    destruct (IH _ _ H) as (Hnodup & Hkeys & Hlen & Hall).
    repeat split.
    + intros Hd. now apply Hnodup, NoDup_keys_set.
    + intros Hk. apply Hkeys in Hk as [Hk|(y & Hy & Hky)].
      * apply In_keys_set in Hk as [->|Hk]; [|now left|assumption].
        right. exists x. split; [now left | assumption].
      * right. exists y. split; [now right | assumption].
    + intros [Hk|(y & [<-|Hy] & Hky)]; apply Hkeys.
      * left. apply In_keys_set; [assumption | now right].
      * left. apply In_keys_set; [assumption | left; congruence].
      * right. now exists y.
    + pose proof (length_set keq d kx x). simpl. lia.
    + intros y [<-|Hy]; [eauto | now apply Hall].
Qed.

Lemma index_by_app (a b : list str) : forall d,
  index_by keq key (a ++ b) d
  = match index_by keq key a d with
    | Ok d' => index_by keq key b d'
    | Err e => Err e
    end.
Proof.
  induction a as [|x a IH]; intros d; simpl; [reflexivity|].
  destruct (key x); [apply IH | reflexivity].
Qed.

Lemma index_by_total (items : list str) : forall d,
  (forall x, In x items -> exists k, key x = Ok k) ->
  exists d', index_by keq key items d = Ok d'.
Proof.
  induction items as [|x items IH]; intros d H; simpl; [eauto|].
  destruct (H x (or_introl eq_refl)) as [k ->]. cbn [rbind].
  apply IH. intros y Hy. apply H. now right.
Qed.

Lemma index_by_first_failure (pre : list str) (x : str) (post : list str)
    (e : exn) (d : dict K str) :
  (forall y, In y pre -> exists k, key y = Ok k) ->
  key x = Err e ->
  index_by keq key (pre ++ x :: post) d = Err e.
Proof.
  intros Hpre Hx. rewrite index_by_app.
  destruct (index_by_total pre d Hpre) as [d' ->]. simpl. now rewrite Hx.
Qed.

End Indexing.

Lemma pair_eqb_spec (a b : str * str) : pair_eqb a b = true <-> a = b.
Proof.
  destruct a as [a1 a2], b as [b1 b2]. unfold pair_eqb. simpl.
  rewrite andb_true_iff, !str_eqb_eq. split; [intros [-> ->]|intros [= -> ->]]; auto.
Qed.

Lemma pairs_loop_index (w : World) (tars : list str) : forall d,
  pairs_loop w tars d = index_by pair_eqb (archive_pair w) tars d.
Proof.
  induction tars as [|a tars IH]; intros d; simpl; [reflexivity|].
  destruct (archive_pair w a); [apply IH | reflexivity].
Qed.

Lemma names_loop_index (w : World) (bas_list : list str) : forall d,
  names_loop w bas_list d = index_by str_eqb (sample_name w) bas_list d.
Proof.
  induction bas_list as [|bas more IH]; intros d; simpl; [reflexivity|].
  unfold sample_name at 1.
  destruct (get_bas_content w bas) as [content|e]; [|reflexivity].
  cbn [rbind].
  destruct (get_sample_name_from_bas w content); [apply IH | reflexivity].
Qed.

(** X7.  The map [get_all_t_n_pairs] returns has one entry per PairKey that
    some archive yields and no other, at most as many entries as archives,
    and under each PairKey the path of the last archive in the input that
    yields it: an archive of a pair already seen replaces the earlier one
    without a word. *)
Theorem later_archive_replaces_earlier (w : World) (tars : list str)
    (d : dict (str * str) str) :
  get_all_t_n_pairs w tars = Ok d ->
  NoDup (keys d)
  /\ List.length d <= List.length tars
  /\ (forall k, In k (keys d)
                <-> exists a, In a tars /\ archive_pair w a = Ok k)
  /\ (forall pre a post k,
        tars = pre ++ a :: post ->
        archive_pair w a = Ok k ->
        (forall b, In b post -> archive_pair w b <> Ok k) ->
        dict_get pair_eqb d k = Some a).
Proof.
  unfold get_all_t_n_pairs. rewrite pairs_loop_index. intros H.
  destruct (@index_by_keys _ _ _ pair_eqb_spec _ _ _ H)
    as (Hnodup & Hkeys & Hlen & _).
  repeat split.
  - apply Hnodup. constructor.
  - exact Hlen.
  - intros Hk. apply Hkeys in Hk as [[]|Hk]. exact Hk.
  - intros Hk. apply Hkeys. now right.
  - intros pre a post k Htars Ha Hpost.
    exact (@index_by_last _ _ _ pair_eqb_spec _ _ _ _ _ _ _ H Htars Ha Hpost).
Qed.

Lemma later_archive_replaces_earlier_witness :
  get_all_t_n_pairs lab [py "pair.tar.gz"; py "t2.tar.gz"; py "newline.tar.gz"]
  = Ok [((py "T1", py "N1"), py "newline.tar.gz");
        ((py "T2", py "N1"), py "t2.tar.gz")]
  /\ dict_get pair_eqb
       [((py "T1", py "N1"), py "newline.tar.gz");
        ((py "T2", py "N1"), py "t2.tar.gz")]
       (py "T1", py "N1")
     = Some (py "newline.tar.gz").
Proof.
  split; [reflexivity|].
  destruct (@later_archive_replaces_earlier lab
              [py "pair.tar.gz"; py "t2.tar.gz"; py "newline.tar.gz"] _
              eq_refl) as (_ & _ & _ & H).
  apply (H [py "pair.tar.gz"; py "t2.tar.gz"] (py "newline.tar.gz") []).
  - reflexivity.
  - reflexivity.
  - intros b [].
Defined.

Lemma archive_pair_invalid (w : World) (a_tar : str) (members : list str) :
  tar_members w a_tar = Ok members ->
  (forall m, In m members -> ~ pairing_member (unicode_alnum w) m) ->
  archive_pair w a_tar = Err (InvalidArchiveError a_tar).
Proof.
  intros Hm H. unfold archive_pair. rewrite Hm. cbn [rbind].
  rewrite first_pair_none; [reflexivity|].
  intros m Hin. apply pair_match_none. now apply H.
Qed.

(** X8.  The archives are read in input order and the first one that
    cannot be read, or holds no member of the pairing convention, fails the
    whole call: with its own error in the first case, with
    [InvalidArchiveError] naming that archive in the second.  The archives
    after it are not opened and nothing is returned for those before it. *)
Theorem first_bad_archive_fails_the_batch (w : World) (pre : list str)
    (a_tar : str) (post : list str) :
  (forall b, In b pre -> exists k, archive_pair w b = Ok k) ->
  (forall e, tar_members w a_tar = Err e ->
             get_all_t_n_pairs w (pre ++ a_tar :: post) = Err e)
  /\ (forall members,
        tar_members w a_tar = Ok members ->
        (forall m, In m members -> ~ pairing_member (unicode_alnum w) m) ->
        get_all_t_n_pairs w (pre ++ a_tar :: post)
        = Err (InvalidArchiveError a_tar)).
Proof.
  intros Hpre. unfold get_all_t_n_pairs. rewrite pairs_loop_index. split.
  - intros e He. apply index_by_first_failure; [assumption|].
    unfold archive_pair. now rewrite He.
  - intros members Hm Hnone. apply index_by_first_failure; [assumption|].
    now apply archive_pair_invalid with (members := members).
Qed.

Lemma first_bad_archive_fails_the_batch_witness :
  get_all_t_n_pairs lab [py "pair.tar.gz"; py "missing.tar.gz"; py "t2.tar.gz"]
  = Err (Raised (py "ReadError")).
Proof.
  destruct (@first_bad_archive_fails_the_batch lab [py "pair.tar.gz"]
              (py "missing.tar.gz") [py "t2.tar.gz"]) as [H _].
  - intros b [<-|[]]. now exists (py "T1", py "N1").
  - apply H. reflexivity.
Defined.

(** X9.  The map [get_sample_names_bas_file_dict] returns has one entry per
    sample name that some statistics file carries and no other, and under
    each name the last file in the input that carries it: a second file of
    a sample replaces the first without a word.  The call fails with the
    error of the first file whose content or sample name cannot be read. *)
Theorem later_statistics_file_replaces_earlier (w : World)
    (bas_list : list str) :
  (forall d,
     get_sample_names_bas_file_dict w bas_list = Ok d ->
     NoDup (keys d)
     /\ (forall name, In name (keys d)
                      <-> exists bas, In bas bas_list
                                      /\ sample_name w bas = Ok name)
     /\ (forall pre bas post name,
           bas_list = pre ++ bas :: post ->
           sample_name w bas = Ok name ->
           (forall other, In other post -> sample_name w other <> Ok name) ->
           dict_get str_eqb d name = Some bas))
  /\ (forall pre bas post e,
        bas_list = pre ++ bas :: post ->
        (forall other, In other pre -> exists name, sample_name w other = Ok name) ->
        sample_name w bas = Err e ->
        get_sample_names_bas_file_dict w bas_list = Err e).
Proof.
  unfold get_sample_names_bas_file_dict. rewrite names_loop_index. split.
  - intros d H.
    destruct (@index_by_keys _ _ _ str_eqb_eq _ _ _ H)
      as (Hnodup & Hkeys & _ & _).
    repeat split.
    + apply Hnodup. constructor.
    + intros Hk. apply Hkeys in Hk as [[]|Hk]. exact Hk.
    + intros Hk. apply Hkeys. now right.
    + intros pre bas post name Hlist Hbas Hpost.
      exact (@index_by_last _ _ _ str_eqb_eq _ _ _ _ _ _ _ H Hlist Hbas
               Hpost).
  - intros pre bas post e -> Hpre Hbas.
    now apply index_by_first_failure.
Qed.

Lemma later_statistics_file_replaces_earlier_witness :
  get_sample_names_bas_file_dict lab
    [py "T1.bam.bas"; py "/work/N1.bam.bas"; py "/work/T1.bam.bas"]
  = Ok [(py "T1", py "/work/T1.bam.bas"); (py "N1", py "/work/N1.bam.bas")]
  /\ get_sample_names_bas_file_dict lab [py "T1.bam.bas"; py "other.bam.bas"]
     = Err (Raised (py "no sample name")).
Proof.
  split; [reflexivity|].
  destruct (later_statistics_file_replaces_earlier lab
              [py "T1.bam.bas"; py "other.bam.bas"]) as [_ H].
  apply (H [py "T1.bam.bas"] (py "other.bam.bas") []).
  - reflexivity.
  - intros other [<-|[]]. now exists (py "T1").
  - reflexivity.
Defined.

(** X10.  When [get_validated_tn_pair_and_bas_lists] returns, the three
    maps are the ones its helpers built, and every pair of the first map
    finds its tumour in the second and its normal in the third: the two
    subscriptions the loop of the core makes for a pair cannot raise
    [KeyError]. *)
Theorem validated_pairs_have_their_files (w : World)
    (tumour_bas normal_bas variant_call_tars : list str)
    (t_n_pair_tar : dict (str * str) str) (t_name_bas n_name_bas : dict str str) :
  get_validated_tn_pair_and_bas_lists w tumour_bas normal_bas
    variant_call_tars = Ok (t_n_pair_tar, t_name_bas, n_name_bas) ->
  get_all_t_n_pairs w variant_call_tars = Ok t_n_pair_tar
  /\ get_sample_names_bas_file_dict w tumour_bas = Ok t_name_bas
  /\ get_sample_names_bas_file_dict w normal_bas = Ok n_name_bas
  /\ forall t n a_tar,
       In ((t, n), a_tar) t_n_pair_tar ->
       exists t_bas n_bas,
         lookup t_name_bas t = Ok t_bas /\ lookup n_name_bas n = Ok n_bas.
Proof.
  unfold get_validated_tn_pair_and_bas_lists. intros H.
  destruct (get_all_t_n_pairs w variant_call_tars) as [pt|e]; [|discriminate].
  cbn [rbind] in H.
  destruct (get_sample_names_bas_file_dict w tumour_bas) as [tb|e];
    [|discriminate].
  cbn [rbind] in H.
  destruct (get_sample_names_bas_file_dict w normal_bas) as [nb|e];
    [|discriminate].
  cbn [rbind] in H. rewrite check_bas_outcome in H.
  destruct (not_found (map fst (keys pt)) (keys tb)) eqn:Et; [|discriminate].
  destruct (not_found (map snd (keys pt)) (keys nb)) eqn:En; [|discriminate].
  cbn [rbind] in H. injection H as <- <- <-.
  repeat split. intros t n a_tar Hin.
  rewrite not_found_empty in Et, En.
  assert (Ht : In t (keys tb)).
  { apply Et. apply in_map_iff. exists (t, n). split; [reflexivity|].
    apply in_map_iff. now exists ((t, n), a_tar). }
  assert (Hn : In n (keys nb)).
  { apply En. apply in_map_iff. exists (t, n). split; [reflexivity|].
    apply in_map_iff. now exists ((t, n), a_tar). }
  destruct (@dict_get_In _ _ _ str_eqb_eq _ _ Ht) as [t_bas Hgt].
  destruct (@dict_get_In _ _ _ str_eqb_eq _ _ Hn) as [n_bas Hgn].
  exists t_bas, n_bas. unfold lookup. now rewrite Hgt, Hgn.
Qed.

Lemma validated_pairs_have_their_files_witness :
  exists t_bas n_bas,
    lookup [(py "T1", py "/work/T1.bam.bas")] (py "T1") = Ok t_bas
    /\ lookup [(py "N1", py "/work/N1.bam.bas")] (py "N1") = Ok n_bas.
Proof.
  destruct (@validated_pairs_have_their_files lab
              [py "/work/T1.bam.bas"] [py "/work/N1.bam.bas"]
              [py "/work/pair.tar.gz"] _ _ _ eq_refl) as (_ & _ & _ & H).
  apply (H (py "T1") (py "N1") (py "/work/pair.tar.gz")). now left.
Defined.

(** ** The run, further *)

Lemma package_facts (w : World) (p : Prepared) (found : list str)
    (st st' : state) (r : result unit) :
  package w p found st = (r, st') ->
  log st'
  = log st ++ [EvPackage (p_output_tar p) (output_metrics_file w :: found)]
  /\ (files st' = files st \/ files st' = files st ++ [p_output_tar p])
  /\ (r = Ok tt ->
      tar_write w (p_output_tar p) (output_metrics_file w :: found) = Written
      /\ files st'
         = if mem (p_output_tar p) (files st) then files st
           else files st ++ [p_output_tar p])
  /\ (forall e,
        tar_write w (p_output_tar p) (output_metrics_file w :: found)
        = OpenFails e
        \/ tar_write w (p_output_tar p) (output_metrics_file w :: found)
           = WriteFails e ->
        is_Exception e = true -> r = Err (PackagingError e)).
Proof.
  unfold package, try_except, bind, tell, create_file, update_files, raise.
  destruct (tar_write w (p_output_tar p) (output_metrics_file w :: found))
    as [e|e|]; simpl.
  - destruct (is_Exception e) eqn:E; intros [= <- <-]; simpl;
      (split; [reflexivity | split; [now left | split; [discriminate|]]]);
      intros e' [[= <-]|[=]] He'; congruence.
  - destruct (is_Exception e) eqn:E; intros [= <- <-]; simpl;
      (split; [reflexivity | split; [| split; [discriminate|]]]);
      try (destruct (mem (p_output_tar p) (files st)); [now left | now right]);
      intros e' [[=]|[= <-]] He'; congruence.
  - intros [= <- <-]; simpl.
    split; [reflexivity | split; [| split; [now split|]]].
    + destruct (mem (p_output_tar p) (files st)); [now left | now right].
    + intros e [[=]|[=]].
Qed.

(** X11.  With metadata paths given, [get_t_n_pair_meta] hands back the
    tuple [(1, 2)] of the placeholder, and the loop subscripts it with the
    pair: a run with metadata that has a pair to process writes the header
    line and fails at the first pair with [TypeError]. *)
Theorem given_metadata_aborts_the_first_pair (w : World) (args : namespace)
    (st s : state) (p : Prepared) (metadata : pyval) :
  prepare w args st = (Ok p, s) ->
  getattr args "metadata" = Ok metadata -> truthy metadata = true ->
  p_t_n_pair_tar p <> [] ->
  p_t_n_pair_meta p = Some (PyTuple [PyInt 1; PyInt 2])
  /\ exists item rest,
       p_t_n_pair_tar p = item :: rest
       /\ extract_from_sanger w args st
          = (Err (TypeError "tuple indices must be integers or slices"),
             add_events (header_written (p_count_variants p) s)
               [EvPair (fst item)]).
Proof.
  intros Hp Hattr Htruthy Hpairs.
  assert (Hmeta : p_t_n_pair_meta p = Some STUB_META).
  { destruct (prepare_ok _ _ _ Hp) as (metadata' & Hattr' & _ & Hmeta).
    rewrite Hattr in Hattr'. injection Hattr' as <-.
    now rewrite Htruthy in Hmeta. }
  split; [exact Hmeta|].
  destruct (run_outcome _ _ _ Hp)
    as [[Hnone _]|(item & rest & e & Hi & Hrun & _ & He)]; [contradiction|].
  exists item, rest. split; [exact Hi|]. now rewrite Hrun, (He Hmeta).
Qed.

Lemma given_metadata_aborts_the_first_pair_witness :
  fst (extract_from_sanger lab
         (call_args [py "T1.bam.bas"] [py "N1.bam.bas"] [py "pair.tar.gz"]
            (py "out.tar.gz") GRCh37 (paths [py "meta.tsv"]) (PyBool false))
         (module_loaded lab_disk))
  = Err (TypeError "tuple indices must be integers or slices").
Proof.
  assert (H : exists p s,
             prepare lab
               (call_args [py "T1.bam.bas"] [py "N1.bam.bas"]
                  [py "pair.tar.gz"] (py "out.tar.gz") GRCh37
                  (paths [py "meta.tsv"]) (PyBool false))
               (module_loaded lab_disk) = (Ok p, s)
             /\ p_t_n_pair_tar p <> []).
  { vm_compute. do 2 eexists. split; [reflexivity | discriminate]. }
  destruct H as (p & s & Hp & Hpairs).
  destruct (@given_metadata_aborts_the_first_pair lab _ _ s p
              (paths [py "meta.tsv"]) Hp eq_refl eq_refl Hpairs)
    as (_ & item & rest & _ & E).
  now rewrite E.
Defined.

(** X12.  No run constructs a [SangerQcMetricsExtractor] or writes a data
    line: whatever the arguments and the outcome, the trace of a run gains
    no construction of an extractor, and the only text written to the
    metrics file is the header line. *)
Theorem no_run_reaches_the_extractor (w : World) (args : namespace)
    (st st' : state) (r : result unit) :
  extract_from_sanger w args st = (r, st') ->
  (forall x, In (EvExtractor x) (log st') -> In (EvExtractor x) (log st))
  /\ (forall text,
        In (EvWrite text) (log st') ->
        In (EvWrite text) (log st)
        \/ exists p s,
             prepare w args st = (Ok p, s)
             /\ text = join [TAB] (header_of (p_count_variants p) st) ++ [LF]).
Proof.
  intros Hrun. destruct (prepare w args st) as [[p|e] s] eqn:Hp.
  - assert (Q := @quiet_prepare w args). unfold quiet, respects in Q.
    destruct (Q _ _ _ Hp) as (Hsame & _ & evs & Hlog & Hsetup).
    assert (Hof : header_of (p_count_variants p) s
                  = header_of (p_count_variants p) st)
      by (unfold header_of; now rewrite Hsame).
    assert (Hst' : exists last,
               log st'
               = log st ++ evs
                   ++ [EvWrite
                         (join [TAB] (header_of (p_count_variants p) st)
                            ++ [LF])]
                   ++ [last]
               /\ (forall x, last <> EvExtractor x)
               /\ (forall text, last <> EvWrite text)).
    { destruct (run_outcome _ _ _ Hp)
        as [[_ E]|(item & rest & e & _ & E & _)]; rewrite E in Hrun.
      - apply package_facts in Hrun as (Hl & _).
        eexists. split;
          [rewrite Hl; simpl; rewrite Hlog, Hof, <- !app_assoc; reflexivity
          |split; intros; discriminate].
      - injection Hrun as _ <-.
        eexists. split;
          [simpl; rewrite Hlog, Hof, <- !app_assoc; reflexivity
          |split; intros; discriminate]. }
    destruct Hst' as (last & Hl & Hx & Ht). rewrite Hl.
    assert (Hevs : forall ev, In ev evs -> setup_event ev = true)
      by (now apply forallb_forall).
    split.
    + intros x Hin. repeat (apply in_app_or in Hin as [Hin|Hin]).
      * assumption.
      * apply Hevs in Hin. discriminate.
      * destruct Hin as [Hin|[]]. discriminate.
      * destruct Hin as [Hin|[]]. now elim (Hx x).
    + intros text Hin. repeat (apply in_app_or in Hin as [Hin|Hin]).
      * now left.
      * apply Hevs in Hin. discriminate.
      * destruct Hin as [Hin|[]]. injection Hin as <-.
        right. now exists p, s.
      * destruct Hin as [Hin|[]]. now elim (Ht text).
  - unfold extract_from_sanger in Hrun.
    rewrite bind_err with (e := e) (st1 := s) in Hrun by exact Hp.
    injection Hrun as _ <-.
    assert (Q := @quiet_prepare w args). unfold quiet, respects in Q.
    destruct (Q _ _ _ Hp) as (_ & _ & evs & Hlog & Hsetup). rewrite Hlog.
    assert (Hevs : forall ev, In ev evs -> setup_event ev = true)
      by (now apply forallb_forall).
    split.
    + intros x Hin. apply in_app_or in Hin as [Hin|Hin]; [assumption|].
      apply Hevs in Hin. discriminate.
    + intros text Hin. apply in_app_or in Hin as [Hin|Hin]; [now left|].
      apply Hevs in Hin. discriminate.
Qed.

Lemma no_run_reaches_the_extractor_witness :
  ~ In (EvExtractor
          {| ex_tumour_bas := py "/work/T1.bam.bas";
             ex_normal_bas := py "/work/N1.bam.bas";
             ex_genome_size := GRCh37;
             ex_variant_call_tar := py "/work/pair.tar.gz";
             ex_output_dir := temp_dir lab;
             ex_count_variants := PyBool false;
             ex_meta := PyNone |})
       (log (snd (extract_from_sanger lab
                    (call_args [py "T1.bam.bas"] [py "N1.bam.bas"]
                       [py "pair.tar.gz"] (py "out.tar.gz") GRCh37 PyNone
                       (PyBool false))
                    (module_loaded lab_disk)))).
Proof.
  intros Hin.
  destruct (@no_run_reaches_the_extractor lab _ _ _ _
              (surjective_pairing
                 (extract_from_sanger lab
                    (call_args [py "T1.bam.bas"] [py "N1.bam.bas"]
                       [py "pair.tar.gz"] (py "out.tar.gz") GRCh37 PyNone
                       (PyBool false))
                    (module_loaded lab_disk)))) as [H _].
  exact (H _ Hin).
Defined.

(** X13.  A call never shortens or resets the module's header list.  It
    leaves the list as it was when it fails before the report is opened and
    when variant counting is off; otherwise it appends the four
    variant-count names once. *)
Theorem header_list_only_grows (w : World) (args : namespace)
    (st st' : state) (r : result unit) :
  extract_from_sanger w args st = (r, st') ->
  (OUTPUT_HEADER st' = OUTPUT_HEADER st
   \/ OUTPUT_HEADER st' = OUTPUT_HEADER st ++ VARIANT_COUNT_HEADER)
  /\ (forall e s, prepare w args st = (Err e, s) ->
                  OUTPUT_HEADER st' = OUTPUT_HEADER st)
  /\ (forall v, getattr args "count_variants" = Ok v -> truthy v = false ->
                OUTPUT_HEADER st' = OUTPUT_HEADER st)
  /\ (forall p s, prepare w args st = (Ok p, s) ->
                  truthy (p_count_variants p) = true ->
                  OUTPUT_HEADER st'
                  = OUTPUT_HEADER st ++ VARIANT_COUNT_HEADER).
Proof.
  intros Hrun.
  assert (H : OUTPUT_HEADER st'
              = match prepare w args st with
                | (Ok p, _) => header_of (p_count_variants p) st
                | (Err _, _) => OUTPUT_HEADER st
                end).
  { destruct (prepare w args st) as [[p|e] s] eqn:Hp.
    - now destruct (@run_header w args st s st' p r Hp Hrun).
    - unfold extract_from_sanger in Hrun.
      rewrite bind_err with (e := e) (st1 := s) in Hrun by exact Hp.
      injection Hrun as _ <-.
      assert (Q := @quiet_prepare w args). unfold quiet, respects in Q.
      now destruct (Q _ _ _ Hp) as (Hsame & _). }
  split; [|split; [|split]].
  - rewrite H. destruct (prepare w args st) as [[p|e] s]; [|now left].
    unfold header_of. destruct (truthy (p_count_variants p)); auto.
  - intros e s Hp. now rewrite H, Hp.
  - intros v Hv Hfalsy. rewrite H.
    destruct (prepare w args st) as [[p|e] s] eqn:Hp; [|reflexivity].
    apply prepare_ok in Hp as (_ & _ & Hc & _).
    rewrite Hv in Hc. injection Hc as <-.
    unfold header_of. now rewrite Hfalsy.
  - intros p s Hp Hc. rewrite H, Hp. unfold header_of. now rewrite Hc.
Qed.

Lemma header_list_only_grows_witness :
  OUTPUT_HEADER
    (snd (extract_from_sanger lab
            (call_args [] [] [] (py "out.tar.gz") GRCh37 PyNone (PyBool false))
            (module_loaded lab_disk)))
  = OUTPUT_HEADER_BASE.
Proof.
  destruct (@header_list_only_grows lab
              (call_args [] [] [] (py "out.tar.gz") GRCh37 PyNone
                 (PyBool false))
              (module_loaded lab_disk) _ _
              (surjective_pairing _)) as (_ & _ & H & _).
  apply (H (PyBool false)); reflexivity.
Defined.

(** X14.  A run without a pair bundles the metrics file and nothing else.
    When the bundle is written the run succeeds; when writing it raises an
    exception the run fails with the packaging error that carries the
    exception's text, after the header line has been written. *)
Theorem bundle_of_a_run_without_pairs (w : World) (args : namespace)
    (st s : state) (p : Prepared) :
  prepare w args st = (Ok p, s) ->
  p_t_n_pair_tar p = [] ->
  let members := [output_metrics_file w] in
  let outcome := tar_write w (p_output_tar p) members in
  In (EvPackage (p_output_tar p) members)
     (log (snd (extract_from_sanger w args st)))
  /\ report (snd (extract_from_sanger w args st))
     = join [TAB] (header_of (p_count_variants p) st) ++ [LF]
  /\ (outcome = Written -> fst (extract_from_sanger w args st) = Ok tt)
  /\ (forall e, outcome = OpenFails e \/ outcome = WriteFails e ->
                is_Exception e = true ->
                fst (extract_from_sanger w args st)
                = Err (PackagingError e)).
Proof.
  intros Hp Hnone members outcome.
  destruct (run_outcome _ _ _ Hp)
    as [[_ E]|(item & rest & e & Hi & _)]; [|congruence].
  assert (Q := @quiet_prepare w args). unfold quiet, respects in Q.
  destruct (Q _ _ _ Hp) as (Hsame & _).
  assert (Hof : header_of (p_count_variants p) s
                = header_of (p_count_variants p) st)
    by (unfold header_of; now rewrite Hsame).
  destruct (extract_from_sanger w args st) as [r st'] eqn:Hrun.
  symmetry in E. pose proof (package_keeps _ _ _ _ E) as [_ Hreport].
  pose proof (package_facts _ _ _ _ E) as (Hlog & _ & Hok & Hfail).
  cbn [fst snd]. split; [|split; [|split]].
  - rewrite Hlog. apply in_or_app. right. now left.
  - rewrite Hreport. simpl. now rewrite Hof.
  - intros Hw. revert Hlog Hok Hfail. clear - E Hw.
    unfold package, try_except, bind, tell, create_file, update_files in E.
    fold members in E. fold outcome in E. rewrite Hw in E. simpl in E.
    now injection E as <- _.
  - intros e He Hexc. now apply (Hfail e).
Qed.

Lemma bundle_of_a_run_without_pairs_witness :
  fst (extract_from_sanger lab_broken_tar
         (call_args [] [] [] (py "out.tar.gz") GRCh37 PyNone (PyBool false))
         (module_loaded lab_disk))
  = Err (PackagingError (OSError (py "[Errno 28] No space left on device"))).
Proof.
  assert (H : exists p s,
             prepare lab_broken_tar
               (call_args [] [] [] (py "out.tar.gz") GRCh37 PyNone
                  (PyBool false))
               (module_loaded lab_disk) = (Ok p, s)
             /\ p_t_n_pair_tar p = []).
  { vm_compute. do 2 eexists. split; reflexivity. }
  destruct H as (p & s & Hp & Hnone).
  destruct (@bundle_of_a_run_without_pairs lab_broken_tar _ _ s p Hp Hnone)
    as (_ & _ & _ & H).
  apply H; [right|]; reflexivity.
Defined.

(** ** The files a run leaves *)

Lemma same_files_refl (st : state) : same_files st st.
Proof. reflexivity. Qed.

Lemma same_files_trans (a b c : state) :
  same_files a b -> same_files b c -> same_files a c.
Proof. unfold same_files. congruence. Qed.

Lemma keeps_files_bind {A B} (m : M A) (f : A -> M B) :
  keeps_files m -> (forall a, keeps_files (f a)) -> keeps_files (bind m f).
Proof. apply respects_bind, same_files_trans. Qed.

Lemma keeps_files_ret {A} (a : A) : keeps_files (ret a).
Proof. apply respects_ret, same_files_refl. Qed.

Lemma keeps_files_raise {A} (e : exn) : keeps_files (@raise A e).
Proof. apply respects_raise, same_files_refl. Qed.

Lemma keeps_files_lift {A} (x : result A) : keeps_files (lift x).
Proof. apply respects_lift, same_files_refl. Qed.

Lemma keeps_files_tell (e : event) : keeps_files (tell e).
Proof. now intros st r st' [= _ <-]. Qed.

Lemma keeps_files_update_report (f : str -> str) :
  keeps_files (update_report f).
Proof. now intros st r st' [= _ <-]. Qed.

Lemma keeps_files_extend (more : list str) :
  keeps_files (extend_OUTPUT_HEADER more).
Proof. now intros st r st' [= _ <-]. Qed.

Lemma keeps_files_read : keeps_files read_OUTPUT_HEADER.
Proof. now intros st r st' [= _ <-]. Qed.

Ltac keeps_files_step :=
  match goal with
  | |- keeps_files (bind _ _) => apply keeps_files_bind; [|intro]
  | |- keeps_files (ret _) => apply keeps_files_ret
  | |- keeps_files (raise _) => apply keeps_files_raise
  | |- keeps_files (lift _) => apply keeps_files_lift
  | |- keeps_files (tell _) => apply keeps_files_tell
  | |- keeps_files (update_report _) => apply keeps_files_update_report
  | |- keeps_files (extend_OUTPUT_HEADER _) => apply keeps_files_extend
  | |- keeps_files read_OUTPUT_HEADER => apply keeps_files_read
  | |- keeps_files (if ?b then _ else _) => destruct b
  | |- keeps_files (match ?x with _ => _ end) => destruct x
  end.

Section Files.

Variable w : World.

(** The test of the output path puts back what it found, whatever way it
    ends. *)
Lemma keeps_files_check_output (output_tar : str) :
  keeps_files (check_output w output_tar).
Proof.
  intros st r st'. unfold check_output, bind at 1, os_path_exists.
  destruct (mem output_tar (files st)) eqn:Hmem;
    [cbn [orb negb]; now intros [= _ <-]|].
  destruct (isdir w output_tar) eqn:Hdir;
    [cbn [orb negb]; now intros [= _ <-]|].
  cbn [orb negb].
  unfold try_finally, try_except, open_and_write, os_remove, bind, tell,
    create_file, update_files, raise.
  destruct (open_w w output_tar) as [e|e|]; simpl; rewrite ?Hmem; simpl.
  - destruct (is_OSError e); simpl; rewrite Hmem, Hdir; now intros [= _ <-].
  - destruct (is_OSError e); simpl; rewrite mem_app_self;
      intros [= _ <-]; unfold same_files; simpl; now apply files_restored.
  - rewrite mem_app_self. intros [= _ <-]. unfold same_files. simpl.
    now apply files_restored.
Qed.

Lemma keeps_files_prepare (args : namespace) : keeps_files (prepare w args).
Proof.
  unfold prepare, locate, preflight, locate_after, reconcile.
  repeat first [apply keeps_files_check_output | keeps_files_step].
Qed.

Lemma keeps_files_process_pairs (p : Prepared)
    (items : list ((str * str) * str)) :
  forall found, keeps_files (process_pairs w p items found).
Proof.
  induction items as [|item items IH]; intros found; simpl.
  - apply keeps_files_ret.
  - apply keeps_files_bind; [|intros; apply IH].
    unfold process_pair, o_write. destruct item.
    repeat keeps_files_step.
Qed.

Lemma keeps_files_write_report (p : Prepared) :
  keeps_files (write_report w p).
Proof.
  unfold write_report, build_header, o_write.
  repeat first [apply keeps_files_process_pairs | keeps_files_step].
Qed.

Ltac destruct_innermost :=
  match goal with
  | |- context [match ?x with _ => _ end] =>
      lazymatch x with
      | context [match _ with _ => _ end] => fail
      | _ => destruct x eqn:?; try discriminate
      end
  end.

Lemma locate_after_output (args : namespace) (checked : pyval * str)
    (st st' : state) (l : Located) :
  locate_after w args checked st = (Ok l, st') ->
  l_output_tar l = snd checked.
Proof.
  unfold locate_after. destruct checked as [g out].
  unfold bind, lift, tell, ret. repeat destruct_innermost.
  now intros [= <- _].
Qed.

Lemma reconcile_output (args : namespace) (l : Located) (st st' : state)
    (p : Prepared) :
  reconcile w args l st = (Ok p, st') -> p_output_tar p = l_output_tar l.
Proof.
  unfold reconcile, bind, lift, tell, ret. repeat destruct_innermost;
    now intros [= <- _].
Qed.

Lemma preflight_output_is_absent (args : namespace) (st st' : state)
    (checked : pyval * str) :
  preflight w args st = (Ok checked, st') ->
  mem (snd checked) (files st) = false.
Proof.
  unfold preflight, bind, lift, ret.
  destruct (getattr args "debug"); [|discriminate].
  destruct (getattr args "genome_size") as [size|]; [|discriminate].
  destruct (negb (isinstance_int size)); [discriminate|].
  destruct (getattr args "output_tar") as [arg|]; [|discriminate].
  destruct (as_str arg) as [path|]; [|discriminate].
  destruct (validate_tar_name w (get_abs_path w path)); [|discriminate].
  destruct (check_output w (get_abs_path w path) st) as [[[]|e] st2] eqn:Hc;
    [|discriminate].
  intros [= <- _]. cbn [snd].
  destruct (mem (get_abs_path w path) (files st)) eqn:Hmem; [|reflexivity].
  rewrite check_output_present in Hc by (now rewrite Hmem). discriminate.
Qed.

(** A prepared run tested its output path and found nothing there. *)
Lemma prepared_output_is_absent (args : namespace) (st s : state)
    (p : Prepared) :
  prepare w args st = (Ok p, s) ->
  mem (p_output_tar p) (files st) = false.
Proof.
  unfold prepare, locate. rewrite !bind_assoc. unfold bind at 1.
  destruct (preflight w args st) as [[checked|e] st1] eqn:Hpre;
    [|discriminate].
  unfold bind at 1.
  destruct (locate_after w args checked st1) as [[l|e] st2] eqn:Hl;
    [|discriminate].
  intros Hr. apply reconcile_output in Hr. apply locate_after_output in Hl.
  rewrite Hr, Hl. now apply preflight_output_is_absent in Hpre.
Qed.

End Files.

(** X15.  A run leaves every file that existed in place and adds at most
    one, its output archive.  Until the bundle is made nothing is added:
    the placeholder of the output test is removed again however the test
    ends, so a run that fails before the report is opened, or at a pair,
    leaves the files exactly as they were.  A run that succeeds adds the
    output path, which did not exist before. *)
Theorem files_a_run_leaves (w : World) (args : namespace) (st st' : state)
    (r : result unit) :
  extract_from_sanger w args st = (r, st') ->
  (files st' = files st
   \/ exists p s, prepare w args st = (Ok p, s)
                  /\ p_t_n_pair_tar p = []
                  /\ files st' = files st ++ [p_output_tar p])
  /\ (forall e s, prepare w args st = (Err e, s) -> files st' = files st)
  /\ (forall p s, prepare w args st = (Ok p, s) -> p_t_n_pair_tar p <> [] ->
                  files st' = files st)
  /\ (r = Ok tt ->
      exists p s, prepare w args st = (Ok p, s)
                  /\ ~ In (p_output_tar p) (files st)
                  /\ files st' = files st ++ [p_output_tar p]).
Proof.
  intros Hrun.
  assert (Q := @keeps_files_prepare w args). unfold keeps_files, respects in Q.
  destruct (prepare w args st) as [[p|e] s] eqn:Hp.
  - pose proof (Q _ _ _ Hp) as Hs.
    unfold same_files in Hs.
    pose proof (@prepared_output_is_absent w args st s p Hp) as Habsent.
    destruct (run_outcome _ _ _ Hp)
      as [[Hnone E]|(item & rest & e & Hi & E & _)]; rewrite E in Hrun.
    + apply package_facts in Hrun as (_ & Hfiles & Hok & _).
      simpl in Hfiles, Hok. rewrite Hs in Hfiles, Hok.
      rewrite Habsent in Hok.
      split; [|split; [|split]].
      * destruct Hfiles as [|Hfiles]; [now left|].
        right. now exists p, s.
      * intros e s0 [=].
      * intros p0 s0 [= <- _] Hne. contradiction.
      * intros Hr. destruct (Hok Hr) as [_ Hf].
        exists p, s. repeat split; [|assumption].
        now apply mem_false.
    + injection Hrun as <- <-. simpl. rewrite Hs.
      split; [now left|]. split; [intros e0 s0 [=]|].
      split; [reflexivity | discriminate].
  - unfold extract_from_sanger in Hrun.
    rewrite bind_err with (e := e) (st1 := s) in Hrun by exact Hp.
    injection Hrun as <- <-.
    pose proof (Q _ _ _ Hp) as Hs.
    unfold same_files in Hs.
    split; [now left|]. split; [intros; assumption|].
    split; [intros p0 s0 [=] | discriminate].
Qed.

Lemma files_a_run_leaves_witness :
  files (snd (extract_from_sanger lab
                (call_args [] [] [] (py "out.tar.gz") GRCh37 PyNone
                   (PyBool false))
                (module_loaded lab_disk)))
  = lab_disk ++ [py "/work/out.tar.gz"]
  /\ files (snd (extract_from_sanger lab
                   (call_args [py "T1.bam.bas"] [py "N1.bam.bas"]
                      [py "pair.tar.gz"] (py "out.tar.gz") GRCh37 PyNone
                      (PyBool false))
                   (module_loaded lab_disk)))
     = lab_disk.
Proof.
  split.
  - destruct (@files_a_run_leaves lab
                (call_args [] [] [] (py "out.tar.gz") GRCh37 PyNone
                   (PyBool false))
                (module_loaded lab_disk) _ _ (surjective_pairing _))
      as (_ & _ & _ & H).
    destruct (H eq_refl) as (p & s & Hp & _ & Hf).
    rewrite Hf. vm_compute in Hp. now injection Hp as <- _.
  - assert (H : exists p s,
               prepare lab
                 (call_args [py "T1.bam.bas"] [py "N1.bam.bas"]
                    [py "pair.tar.gz"] (py "out.tar.gz") GRCh37 PyNone
                    (PyBool false))
                 (module_loaded lab_disk) = (Ok p, s)
               /\ p_t_n_pair_tar p <> []).
    { vm_compute. do 2 eexists. split; [reflexivity | discriminate]. }
    destruct H as (p & s & Hp & Hpairs).
    destruct (@files_a_run_leaves lab
                (call_args [py "T1.bam.bas"] [py "N1.bam.bas"]
                   [py "pair.tar.gz"] (py "out.tar.gz") GRCh37 PyNone
                   (PyBool false))
                (module_loaded lab_disk) _ _
                (surjective_pairing _)) as (_ & _ & H & _).
    exact (H p s Hp Hpairs).
Defined.

(** ** The command line, further *)

Lemma typed_step (ns : namespace) (seen : list string) (a : action)
    (v : pyval) :
  typed_namespace ns seen ->
  In a parser_actions -> stored_value a v ->
  typed_namespace (setattr ns (dest a) v) (dest a :: seen).
Proof.
  intros (Hsize & Hdebug & Hpaths) Ha Hv.
  assert (Hkeep : forall d, In d path_attributes -> In d seen ->
                            dest a <> d ->
                            (exists s, getattr (setattr ns (dest a) v) d
                                       = Ok (PyStr s))
                            \/ getattr (setattr ns (dest a) v) d
                               = Ok (PyList [])).
  { intros d Hd Hin Hne. rewrite getattr_setattr_other by assumption.
    now apply Hpaths. }
  assert (Hstr : (exists s, v = PyStr s) \/ v = PyList [] ->
                 forall d, In d path_attributes -> In d (dest a :: seen) ->
                           (exists s, getattr (setattr ns (dest a) v) d
                                      = Ok (PyStr s))
                           \/ getattr (setattr ns (dest a) v) d
                              = Ok (PyList [])).
  { intros Hshape d Hd Hin.
    destruct (string_dec (dest a) d) as [<-|Hne].
    - rewrite getattr_setattr_same.
      destruct Hshape as [[s ->]| ->]; [left; eauto | now right].
    - destruct Hin as [E|Hin]; [contradiction|]. now apply Hkeep. }
  assert (Hnot : ~ In (dest a) path_attributes ->
                 forall d, In d path_attributes -> In d (dest a :: seen) ->
                           (exists s, getattr (setattr ns (dest a) v) d
                                      = Ok (PyStr s))
                           \/ getattr (setattr ns (dest a) v) d
                              = Ok (PyList [])).
  { intros Hout d Hd [<-|Hin]; [contradiction|].
    apply Hkeep; try assumption. intros <-. contradiction. }
  clear Hkeep Hpaths. unfold stored_value in Hv. simpl in Ha.
  repeat (destruct Ha as [<-|Ha];
          [cbn [act dest] in Hv, Hstr, Hnot |- *; try contradiction|]);
    try (destruct Ha).
  - split; [rewrite getattr_setattr_other by discriminate; assumption|].
    split; [rewrite getattr_setattr_other by discriminate; assumption|].
    now apply Hstr.
  - split; [rewrite getattr_setattr_other by discriminate; assumption|].
    split; [rewrite getattr_setattr_other by discriminate; assumption|].
    now apply Hstr.
  - split; [rewrite getattr_setattr_other by discriminate; assumption|].
    split; [rewrite getattr_setattr_other by discriminate; assumption|].
    now apply Hstr.
  - split; [rewrite getattr_setattr_other by discriminate; assumption|].
    split; [rewrite getattr_setattr_other by discriminate; assumption|].
    now apply Hstr.
  - split; [rewrite getattr_setattr_same;
            destruct Hv as [[z ->]| ->]; [left; eauto | now right]|].
    split; [rewrite getattr_setattr_other by discriminate; assumption|].
    apply Hnot. unfold path_attributes. simpl.
    intros [E|[E|[E|[E|[]]]]]; discriminate E.
  - subst v.
    split; [rewrite getattr_setattr_other by discriminate; assumption|].
    split; [rewrite getattr_setattr_same; eauto|].
    apply Hnot. unfold path_attributes. simpl.
    intros [E|[E|[E|[E|[]]]]]; discriminate E.
Qed.

Lemma after_stores_typed : forall steps ns seen,
  Forall (fun s => In (fst s) parser_actions /\ stored_value (fst s) (snd s))
    steps ->
  typed_namespace ns seen ->
  typed_namespace (after_stores steps ns)
    (rev (map (fun s => dest (fst s)) steps) ++ seen).
Proof.
  induction steps as [|s steps IH]; intros ns seen Hall Ht; [exact Ht|].
  inversion Hall as [|? ? [Hs Hv] Hrest]; subst.
  cbn [map rev]. rewrite <- app_assoc. cbn [app].
  change (after_stores (s :: steps) ns)
    with (after_stores steps (setattr ns (dest (fst s)) (snd s))).
  apply IH; [exact Hrest|]. now apply typed_step.
Qed.

Lemma path_attribute_required (d : string) :
  In d path_attributes ->
  exists a, In a parser_actions /\ required a = true /\ dest a = d.
Proof.
  pose (none := {| option_strings := []; dest := ""; act := ShowHelp;
                   required := false; default := None |}).
  intros [<-|[<-|[<-|[<-|[]]]]];
    [exists (nth 2 parser_actions none) | exists (nth 3 parser_actions none)
    | exists (nth 4 parser_actions none) | exists (nth 5 parser_actions none)];
    cbn; (split; [tauto | split; reflexivity]).
Qed.

(** X17.  In every namespace the parser returns the genome size is an
    [int] and [debug] a [bool], and each of the four path attributes is one
    [str], never a list of paths: the loop [for path in ...] that the core
    runs over such an attribute walks the single characters of the path.
    The one exception is an argument [--] glued to a store option, as in
    [-o=--]: the parser drops it and stores the empty list. *)
Theorem parsed_namespace_is_typed (w : World) (tokens : list str)
    (ns : namespace) :
  parse_args w tokens = Ok ns ->
  ((exists z, getattr ns "genome_size" = Ok (PyInt z))
   \/ getattr ns "genome_size" = Ok (PyList []))
  /\ (exists b, getattr ns "debug" = Ok (PyBool b))
  /\ forall d, In d path_attributes ->
               (exists s, getattr ns d = Ok (PyStr s)
                          /\ iterate (PyStr s) = Ok (map (fun c => [c]) s))
               \/ (getattr ns d = Ok (PyList [])
                   /\ iterate (PyList []) = Ok []).
Proof.
  intros H. apply parse_args_trace in H as (steps & Hsteps & -> & Hreq & _).
  assert (Ht : typed_namespace (after_stores steps initial_namespace)
                 (rev (map (fun s => dest (fst s)) steps) ++ [])).
  { apply after_stores_typed; [exact Hsteps|].
    split; [left; now exists 3137454505%Z|]. split; [now exists false|].
    intros d _ []. }
  destruct Ht as (Hsize & Hdebug & Hpaths).
  split; [assumption|]. split; [assumption|].
  intros d Hd.
  assert (Hseen : In d (rev (map (fun s => dest (fst s)) steps) ++ [])).
  { rewrite app_nil_r. apply -> in_rev.
    destruct (path_attribute_required Hd) as (a & Ha & Hr & <-).
    specialize (Hreq a Ha Hr). apply in_map_iff in Hreq as (s & <- & Hs).
    apply in_map_iff. now exists s. }
  destruct (Hpaths d Hd Hseen) as [[s Hs]|Hs].
  - left. exists s. now split.
  - right. now split.
Qed.

Lemma parsed_namespace_is_typed_witness :
  (exists s,
     getattr
       [ ("tumour_bas"%string, PyStr (py "T1.bam.bas"));
         ("normal_bas"%string, PyStr (py "N1.bam.bas"));
         ("variant_call_tar"%string, PyStr (py "pair.tar.gz"));
         ("output_tar"%string, PyList []);
         ("genome_size"%string, PyInt 10);
         ("debug"%string, PyBool true);
         ("func"%string, PyFunc "extract_from_sanger") ]
       "tumour_bas" = Ok (PyStr s)
     /\ iterate (PyStr s) = Ok (map (fun c => [c]) s))
  /\ parse_args lab
       [py "--tu=T1.bam.bas"; py "-n"; py "N1.bam.bas"; py "-d"; py "-g";
        py " 1_0 ";
        py "-rt"; py "pair.tar.gz"; py "-o=--"]
     = Ok [ ("tumour_bas"%string, PyStr (py "T1.bam.bas"));
            ("normal_bas"%string, PyStr (py "N1.bam.bas"));
            ("variant_call_tar"%string, PyStr (py "pair.tar.gz"));
            ("output_tar"%string, PyList []);
            ("genome_size"%string, PyInt 10);
            ("debug"%string, PyBool true);
            ("func"%string, PyFunc "extract_from_sanger") ].
Proof.
  assert (E : parse_args lab
                [py "--tu=T1.bam.bas"; py "-n"; py "N1.bam.bas"; py "-d";
                 py "-g"; py " 1_0 "; py "-rt"; py "pair.tar.gz"; py "-o=--"]
              = Ok [ ("tumour_bas"%string, PyStr (py "T1.bam.bas"));
                     ("normal_bas"%string, PyStr (py "N1.bam.bas"));
                     ("variant_call_tar"%string, PyStr (py "pair.tar.gz"));
                     ("output_tar"%string, PyList []);
                     ("genome_size"%string, PyInt 10);
                     ("debug"%string, PyBool true);
                     ("func"%string, PyFunc "extract_from_sanger") ])
    by reflexivity.
  split; [|exact E].
  destruct (@parsed_namespace_is_typed lab _ _ E) as (_ & _ & H).
  destruct (H "tumour_bas"%string) as [Hs|[Hl _]]; [now left | exact Hs|].
  discriminate Hl.
Defined.

Lemma required_actions_distinct :
  NoDup (filter required parser_actions)
  /\ List.length (filter required parser_actions) = 4.
Proof.
  split; [|reflexivity]. cbn.
  repeat constructor; simpl; intuition discriminate.
Qed.

Lemma parse_needs_four (w : World) (tokens : list str) (ns : namespace) :
  parse_args w tokens = Ok ns -> 4 <= List.length tokens.
Proof.
  intros H. apply parse_args_trace in H as (steps & Hsteps & _ & Hreq & Hlen).
  destruct required_actions_distinct as [Hnd H4].
  assert (Hincl : incl (filter required parser_actions)
                    (map fst (filter (fun s => required (fst s)) steps))).
  { intros a Ha. apply filter_In in Ha as [Ha Hr].
    specialize (Hreq a Ha Hr). apply in_map_iff in Hreq as (s & <- & Hs).
    apply in_map. apply filter_In. now split. }
  apply (NoDup_incl_length Hnd) in Hincl. rewrite length_map in Hincl. lia.
Qed.

(** X16.  The parser accepts an invocation only when it has at least four
    argument strings, one at least for each of the four required options.
    With fewer, [main] leaves through an exit of the parser, whatever the
    argument strings are, and never reaches the core; with none at all the
    parse fails with the usage error, so the branch of [main] that exits
    with "Arguments required" is never taken. *)
Theorem main_needs_four_arguments :
  (forall w tokens ns, parse_args w tokens = Ok ns -> 4 <= List.length tokens)
  /\ (forall w argv st,
        List.length argv <= 4 ->
        exists code msg, main w argv st = (Err (SystemExit code msg), st))
  /\ (forall w argv st,
        List.length argv <= 1 -> main w argv st = (Err usage_error, st)).
Proof.
  split; [exact parse_needs_four|]. split.
  - intros w argv st Hlen. unfold main, bind, lift.
    destruct (parse_args w (tl argv)) as [ns|e] eqn:H.
    + apply parse_needs_four in H.
      destruct argv; cbn [tl List.length] in *; lia.
    + apply parse_args_exits in H. destruct e; try discriminate. eauto.
  - intros w argv st Hlen.
    destruct argv as [|program [|x argv]]; [| |simpl in Hlen; lia];
      reflexivity.
Qed.

Lemma main_needs_four_arguments_witness :
  (exists code msg,
     main lab [py "ppcg-qc-from-sanger"; py "-tb=a"; py "-nb=b"; py "-ox"]
       (module_loaded lab_disk)
     = (Err (SystemExit code msg), module_loaded lab_disk))
  /\ main lab [py "ppcg-qc-from-sanger"] (module_loaded lab_disk)
     = (Err usage_error, module_loaded lab_disk).
Proof.
  destruct main_needs_four_arguments as (_ & H2 & H3). split.
  - apply H2. simpl. lia.
  - apply H3. simpl. lia.
Defined.
